(** * Physiotherapy clinic demo: the data generator and its store

    A shallow embedding of [src/data_generator.py] (class
    [ClinicDataGenerator]), of the tables of [src/database.py] it writes
    into, and of the age column of [src/data_access.py].

    Conventions of the embedding.
    - A [datetime] is the number of microseconds since midnight of the
      proleptic-Gregorian ordinal day 0, a [date] is an ordinal day number
      ([date.toordinal()]), a [timedelta] is a number of microseconds.
      The bounds of Python's datetime range (years 1 to 9999) are not
      modelled.
    - Python's module-level [random] stream, the wall clock behind
      [datetime.now()], the text produced by [Faker] and the failures of
      the storage layer are oracles: functions from the number of the call
      to the value that call returns.  Every theorem quantifies over all of
      them.  The position reached in each oracle is part of the program
      state, so that every call of [datetime.now()] gets a reading of its
      own.
    - Floating point is replaced by exact arithmetic: [random.random()] is
      a multiple of 2^-53, weights are hundredths, money is counted in
      cents.  Of [random.triangular] and [random.uniform] only the range is
      kept.
    - An exception leaves the side effects made so far in place, so a
      computation returns its outcome together with the state it reached.
    - The passes of the loops of the generator, and the blocks that the
      source sets off by a comment, are definitions of their own; each one
      draws from the oracles in the order in which Python evaluates the
      source. *)

From Stdlib Require Import ZArith List String Ascii Bool Lia.
Import ListNotations.
Local Open Scope string_scope.
Local Open Scope list_scope.
Local Open Scope Z_scope.

Set Implicit Arguments.

(** ** Time *)

Definition us_per_minute : Z := 60000000.
Definition us_per_hour : Z := 60 * us_per_minute.
Definition us_per_day : Z := 24 * us_per_hour.

(** [timedelta(days=d)], [timedelta(hours=h)], [timedelta(minutes=m)]. *)
Definition timedelta_days (d : Z) : Z := d * us_per_day.
Definition timedelta_hours (h : Z) : Z := h * us_per_hour.
Definition timedelta_minutes (m : Z) : Z := m * us_per_minute.

(** [dt.date()] and [dt.time()]. *)
Definition date_of (dt : Z) : Z := dt / us_per_day.
Definition time_of (dt : Z) : Z := dt mod us_per_day.

(** [datetime.combine(d, t)]. *)
Definition combine (d t : Z) : Z := d * us_per_day + t.

(** [d.weekday()]: Monday is 0, Sunday is 6; ordinal day 1 is a Monday. *)
Definition weekday (d : Z) : Z := (d + 6) mod 7.

(** [dt.replace(hour=h, minute=m, second=0, microsecond=0)]. *)
Definition replace_hm (dt h m : Z) : Z :=
  combine (date_of dt) (timedelta_hours h + timedelta_minutes m).

(** ** Enumerations of the schema ([CHECK (... IN (...))] in database.py) *)

Inductive Gender := M | F | Other.
Inductive InsuranceType := Public | Private | SelfPay.
Inductive AppointmentStatus := Scheduled | Completed | Cancelled | NoShow | InProgress.
Inductive BookingMethod := Online | Phone | WalkIn | Referral.
Inductive CancelledBy := ByPatient | ByClinic | ByTherapist | BySystem.
Inductive ReasonCategory := Personal | Medical | Transportation | Work | Weather | OtherReason.
Inductive TreatmentCategory :=
  ManualTherapy | ExerciseTherapy | Electrotherapy | Hydrotherapy | Assessment.
Inductive TaskType :=
  AppointmentConfirmation | InsuranceVerification | PaymentProcessing
| PatientCheckIn | ReminderCall | FollowUp.
Inductive TaskStatus := Pending | TaskInProgress | TaskCompleted | TaskCancelled.

Definition status_eqb (a b : AppointmentStatus) : bool :=
  match a, b with
  | Scheduled, Scheduled | Completed, Completed | Cancelled, Cancelled
  | NoShow, NoShow | InProgress, InProgress => true
  | _, _ => false
  end.

Definition gender_eqb (a b : Gender) : bool :=
  match a, b with
  | M, M | F, F | Other, Other => true
  | _, _ => false
  end.

(** ** Records: the dictionaries the generator builds *)

Module Patient.
Record t := mk {
    first_name : string;
    last_name : string;
    email : string;
    phone : string;
    date_of_birth : Z;
    gender : Gender;
    address : string;
    insurance_type : InsuranceType;
    primary_condition : string;
    registration_date : Z;
    emergency_contact : string;
    emergency_phone : string;
    notes : option string
}.
End Patient.

Module Therapist.
Record t := mk {
    first_name : string;
    last_name : string;
    email : string;
    phone : string;
    specialization : string;
    license_number : Z;          (* the digits of f"PT{n}" *)
    hire_date : Z;
    hourly_rate : Z;
    max_patients_per_day : Z;
    working_days : string;
    start_time : string;
    end_time : string;
    is_active : Z
}.
End Therapist.

Module Treatment.
Record t := mk {
    treatment_name : string;
    treatment_code : string;
    duration_minutes : Z;
    base_price : Z;
    description : string;
    requires_equipment : bool;
    category : TreatmentCategory
}.
End Treatment.

Module Appointment.
Record t := mk {
    appointment_id : Z;
    patient_id : Z;
    therapist_id : Z;
    treatment_id : Z;
    appointment_date : Z;
    appointment_time : Z;
    duration_minutes : Z;
    status : AppointmentStatus;
    booking_date : Z;
    booking_method : BookingMethod;
    price : Z;
    insurance_covered : bool;
    copay_amount : Z;
    notes : option string;
    reminder_sent : bool;
    (* keys added by [appointment.update] for completed appointments only;
       [apt.get(...)] reads an absent key as None *)
    check_in_time : option Z;
    treatment_start_time : option Z;
    treatment_end_time : option Z
}.

  (** The slot of the appointment, from its date and time columns. *)
Definition datetime (a : t) : Z := combine (appointment_date a) (appointment_time a).
End Appointment.

Module Cancellation.
Record t := mk {
    appointment_id : Z;
    cancelled_by : CancelledBy;
    cancellation_date : Z;
    hours_before_appointment : Z;
    reason_category : ReasonCategory;
    reason_detail : string;
    refund_issued : bool;
    refund_amount : Z;
    rescheduled : bool
}.
End Cancellation.

Module ReceptionTask.
Record t := mk {
    task_type : TaskType;
    patient_id : option Z;
    appointment_id : option Z;
    priority : Z;
    status : TaskStatus;
    assigned_to : string;
    estimated_duration_minutes : Z;
    actual_duration_minutes : option Z;
    due_date : Z;
    completed_date : option Z;
    notes : option string;
    created_at : Z
}.
End ReceptionTask.

(** ** The store: tables, and a connection with its open transaction *)

Record Database := mkDatabase {
  patients_table : list (Z * Patient.t);
  therapists_table : list (Z * Therapist.t);
  treatments_table : list (Z * Treatment.t);
  appointments_table : list (Z * Appointment.t);
  cancellations_table : list (Z * Cancellation.t);
  reception_tasks_table : list (Z * ReceptionTask.t);
  (* sqlite_sequence: the last AUTOINCREMENT key handed out per table *)
  patients_seq : Z;
  therapists_seq : Z;
  treatments_seq : Z;
  appointments_seq : Z;
  cancellations_seq : Z;
  reception_tasks_seq : Z
}.

Definition empty_database : Database :=
  mkDatabase [] [] [] [] [] [] 0 0 0 0 0 0.

(** [committed] is what the store durably holds (what any other reader
    sees); [working] is what this connection sees, including the writes
    of its open transaction. *)
Record Connection := mkConnection {
  committed : Database;
  working : Database
}.

(** [sqlite3.connect(db_path)]. *)
Definition connect (db : Database) : Connection := mkConnection db db.

(** ** Exceptions, program state and the monad of the generator *)

Inductive exn :=
| IndexError          (* random.choice on an empty sequence *)
| KeyError            (* dict[key] on a missing key *)
| ValueError          (* random.randint on an empty range, weights summing to 0 *)
| IntegrityError      (* sqlite3: UNIQUE constraint failed *)
| OperationalError    (* sqlite3: the storage layer failed *)
| ZeroDivisionError
| TypeError.

Record St := mkSt {
  rpos : N;            (* draws taken from the random stream *)
  cpos : N;            (* readings taken from the clock *)
  fpos : N;            (* texts taken from Faker *)
  xpos : N;            (* writes submitted to the storage layer *)
  conn : Connection    (* self.conn *)
}.

Definition Mon (A : Type) : Type := St -> (exn + A) * St.

Definition ret {A} (a : A) : Mon A := fun s => (inr a, s).
Definition raise {A} (e : exn) : Mon A := fun s => (inl e, s).
Definition bind {A B} (m : Mon A) (f : A -> Mon B) : Mon B :=
  fun s => match m s with
           | (inr a, s') => f a s'
           | (inl e, s') => (inl e, s')
           end.

(** [try: body except Exception as e: handler(e)]. *)
Definition try_except {A} (body : Mon A) (handler : exn -> Mon A) : Mon A :=
  fun s => match body s with
           | (inr a, s') => (inr a, s')
           | (inl e, s') => handler e s'
           end.

Declare Scope mon_scope.
Delimit Scope mon_scope with mon.
Notation "x <- m ;; k" := (bind m (fun x => k))
  (at level 61, m at next level, right associativity) : mon_scope.
Notation "m ;;; k" := (bind m (fun _ => k))
  (at level 61, right associativity) : mon_scope.
Local Open Scope mon_scope.

(** [for _ in range(n): acc = body(acc)]. *)
Fixpoint repeatM {A} (n : nat) (body : A -> Mon A) (acc : A) : Mon A :=
  match n with
  | O => ret acc
  | S k => acc' <- body acc ;; repeatM k body acc'
  end.

(** [for i in range(start, start + count): acc = body(i, acc)]. *)
Fixpoint for_range {A} (body : Z -> A -> Mon A) (start : Z) (count : nat) (acc : A)
  : Mon A :=
  match count with
  | O => ret acc
  | S k => acc' <- body start acc ;; for_range body (start + 1) k acc'
  end.

(** [for x in xs: body(x)]. *)
Fixpoint for_each {A} (body : A -> Mon unit) (xs : list A) : Mon unit :=
  match xs with
  | [] => ret tt
  | x :: tl => body x ;;; for_each body tl
  end.

Definition tick_rand (s : St) : St := mkSt (N.succ (rpos s)) (cpos s) (fpos s) (xpos s) (conn s).
Definition tick_clock (s : St) : St := mkSt (rpos s) (N.succ (cpos s)) (fpos s) (xpos s) (conn s).
Definition tick_fake (s : St) : St := mkSt (rpos s) (cpos s) (N.succ (fpos s)) (xpos s) (conn s).
Definition tick_io (s : St) : St := mkSt (rpos s) (cpos s) (fpos s) (N.succ (xpos s)) (conn s).
Definition set_conn (c : Connection) (s : St) : St :=
  mkSt (rpos s) (cpos s) (fpos s) (xpos s) c.

(** ** The oracles and the primitives built on them *)

Section Generator.

Variable rand : N -> Z.          (* the n-th raw draw of the random stream *)
Variable clock : N -> Z.         (* the n-th reading of [datetime.now()] *)
Variable fake : N -> string.     (* the n-th text produced by Faker *)
Variable io_error : N -> bool.   (* whether the n-th write to the store fails *)

Definition draw : Mon Z := fun s => (inr (rand (rpos s)), tick_rand s).

(** [datetime.now()]. *)
Definition now : Mon Z := fun s => (inr (clock (cpos s)), tick_clock s).

(** Any Faker provider ([first_name], [email], [address], [sentence], ...).
    The retry loop of [fake.unique] is not modelled: uniqueness of e-mail
    addresses is decided by the UNIQUE constraint of the store. *)
Definition fake_text : Mon string := fun s => (inr (fake (fpos s)), tick_fake s).

(** [random.random()] returns k / 2^53 for an integer 0 <= k < 2^53; the
    embedding returns k. *)
Definition two53 : Z := 2 ^ 53.
Definition random_random : Mon Z := z <- draw ;; ret (z mod two53).

(** [r < p / 100] for a reading [r] of [random.random()] (the double
    nearest to p / 100 is taken to be p / 100 itself). *)
Definition lt_percent (r p : Z) : bool := r * 100 <? p * two53.

(** [random.randint(a, b)]. *)
Definition randint (a b : Z) : Mon Z :=
  if b <? a then raise ValueError
  else z <- draw ;; ret (a + z mod (b - a + 1)).

(** [random.choice(seq)]. *)
Definition choice {A} (seq : list A) : Mon A :=
  match seq with
  | [] => raise IndexError
  | x :: _ => z <- draw ;; ret (nth (Z.to_nat (z mod Z.of_nat (List.length seq))) seq x)
  end.

(** [bisect(cum_weights, x, 0, hi)] of [random.choices], on the running sum
    [acc] of the weights passed so far; [x] is r * total / 2^53.  The last
    item (index hi) takes whatever is left. *)
Fixpoint bisect {A} (items : list (A * Z)) (acc r total : Z) (last : A) : A :=
  match items with
  | [] => last
  | (a, w) :: tl =>
      match tl with
      | [] => a
      | _ :: _ => if (acc + w) * two53 <=? r * total
                  then bisect tl (acc + w) r total a
                  else a
      end
  end.

Definition sum_weights {A} (choices : list (A * Z)) : Z :=
  fold_right (fun c acc => snd c + acc) 0 choices.

(** [_weighted_choice(choices)]: [random.choices(items, weights=weights)[0]].
    Weights are in hundredths. *)
Definition _weighted_choice {A} (choices : list (A * Z)) : Mon A :=
  match choices with
  | [] => raise ValueError
  | (a, _) :: _ =>
      if sum_weights choices <=? 0 then raise ValueError
      else r <- random_random ;; ret (bisect choices 0 r (sum_weights choices) a)
  end.

(** [int(random.triangular(low, high, mode))]: only the range of the result
    is kept, low <= N <= high. *)
Definition triangular_int (low high mode : Z) : Mon Z :=
  z <- draw ;; ret (low + z mod (high - low + 1)).

(** [random.uniform(lo, hi)] read on a grid: an integer between [a] and [b]
    in the unit of the caller (thousandths for the share of the co-pay,
    cents for the hourly rate). *)
Definition uniform_int (a b : Z) : Mon Z :=
  z <- draw ;; ret (a + z mod (b - a + 1)).

(** [round(num / den)] for den > 0, halves away from zero (SQLite's ROUND;
    Python's [round(x, 2)] on cents, up to the representation of x). *)
Definition round_div (num den : Z) : Z :=
  if 0 <=? num then (2 * num + den) / (2 * den)
  else - ((2 * (- num) + den) / (2 * den)).

(** [s.replace('\n', ', ')]. *)
Fixpoint replace_newline (s : string) : string :=
  match s with
  | EmptyString => EmptyString
  | String c tl =>
      if Ascii.eqb c "010"%char then String "," (String " " (replace_newline tl))
      else String c (replace_newline tl)
  end.

(** ** [ClinicDataGenerator.__init__] *)

Record ClinicDataGenerator := mkGenerator {
  CLINIC_START_DATE : Z;
  CLINIC_END_DATE : Z
}.

Definition PATIENT_AGE_WEIGHTS : list ((Z * Z) * Z) :=
  [ ((25, 35), 15); ((35, 50), 25); ((50, 65), 35); ((65, 80), 20); ((80, 90), 5) ].

Definition CONDITION_DISTRIBUTION : list (string * Z) :=
  [ ("Lower Back Pain", 25); ("Neck Pain", 15); ("Knee Injury", 12);
    ("Shoulder Pain", 10); ("Sports Injury", 8); ("Post-Surgery Rehab", 7);
    ("Arthritis Management", 6); ("Postural Problems", 5); ("Sciatica", 4);
    ("Tennis Elbow", 3); ("Fibromyalgia", 2); ("Other", 3) ].

Definition CANCELLATION_REASONS : list (ReasonCategory * Z) :=
  [ (Personal, 30); (Medical, 20); (Work, 18); (Transportation, 12);
    (Weather, 10); (OtherReason, 10) ].

Definition init : Mon ClinicDataGenerator :=
  t1 <- now ;;
  t2 <- now ;;
  ret (mkGenerator (t1 - timedelta_days 180) (t2 + timedelta_days 30)).

(** ** Profiles *)

Definition _generate_realistic_age : Mon Z :=
  age_range <- _weighted_choice PATIENT_AGE_WEIGHTS ;;
  randint (fst age_range) (snd age_range).

(** One pass of the loop of [generate_patients]. *)
Definition generate_patient : Mon Patient.t :=
  age <- _generate_realistic_age ;;
  gender <- choice [M; F] ;;
  today <- now ;;
  let birth_date := date_of today - age * 365 in
  reg_days_ago <- randint 30 180 ;;
  today' <- now ;;
  let registration_date := date_of today' - reg_days_ago in
  first_name <- (if gender_eqb gender M then fake_text else fake_text) ;;
  last_name <- fake_text ;;
  email <- fake_text ;;
  phone <- fake_text ;;
  address <- fake_text ;;
  insurance_type <- _weighted_choice [ (Public, 70); (Private, 25); (SelfPay, 5) ] ;;
  primary_condition <- _weighted_choice CONDITION_DISTRIBUTION ;;
  emergency_contact <- fake_text ;;
  emergency_phone <- fake_text ;;
  r <- random_random ;;
  notes <- (if lt_percent r 30 then t <- fake_text ;; ret (Some t) else ret None) ;;
  ret (Patient.mk first_name last_name email phone birth_date gender
         (replace_newline address) insurance_type primary_condition
         registration_date emergency_contact emergency_phone notes).

Definition generate_patients (num_patients : Z) : Mon (list Patient.t) :=
  repeatM (Z.to_nat num_patients)
    (fun patients => patient <- generate_patient ;; ret (patients ++ [patient]))
    [].

Definition specializations : list string :=
  [ "Orthopedic Physical Therapy"; "Sports Physical Therapy";
    "Neurological Physical Therapy"; "Geriatric Physical Therapy";
    "Manual Therapy"; "Pediatric Physical Therapy" ].

(** One pass of the loop of [generate_therapists], for index [i]. *)
Definition generate_therapist (i : Z) : Mon Therapist.t :=
  let '(working_days, start_time, end_time, max_patients) :=
    if i <? 4 then ("Mon,Tue,Wed,Thu,Fri", "08:00", "17:00", 12)
    else if i =? 4 then ("Mon,Wed,Fri", "08:00", "13:00", 6)
    else ("Tue,Thu,Fri", "13:00", "18:00", 6) in
  hire_days_ago <- randint 365 1800 ;;
  today <- now ;;
  let hire_date := date_of today - hire_days_ago in
  first_name <- fake_text ;;
  last_name <- fake_text ;;
  email <- fake_text ;;
  phone <- fake_text ;;
  let specialization :=
    nth (Z.to_nat (i mod Z.of_nat (List.length specializations))) specializations "" in
  license_number <- randint 10000 99999 ;;
  hourly_rate <- uniform_int 3500 5500 ;;
  ret (Therapist.mk first_name last_name email phone specialization license_number
         hire_date hourly_rate max_patients working_days start_time end_time 1).

Definition generate_therapists (num_therapists : Z) : Mon (list Therapist.t) :=
  for_range
    (fun i therapists => therapist <- generate_therapist i ;; ret (therapists ++ [therapist]))
    0 (Z.to_nat num_therapists) [].

(** ** Schedule and outcome *)

Definition peak_morning : list Z := [9; 10; 11].
Definition peak_afternoon : list Z := [14; 15].
Definition regular_hours : list Z := [8] ++ [12; 13] ++ [16].

Definition _get_business_hours_datetime (date : Z) : Mon Z :=
  r <- random_random ;;
  let hour_pool := if lt_percent r 70 then peak_morning ++ peak_afternoon
                   else regular_hours in
  hour <- choice hour_pool ;;
  minute <- choice [0; 15; 30; 45] ;;
  ret (replace_hm date hour minute).

Definition hours_before_weights : list (Z * Z) :=
  [ (1, 15); (4, 20); (24, 30); (48, 20); (168, 15) ].

Definition reason_details (c : ReasonCategory) : list string :=
  match c with
  | Personal => ["Family emergency"; "Personal commitment"; "Childcare issues"; "Travel conflict"]
  | Medical => ["Feeling unwell"; "Other medical appointment"; "Injury worsened"; "Doctor advised rest"]
  | Work => ["Work meeting"; "Unable to leave work"; "Business travel"; "Shift change"]
  | Transportation => ["Car trouble"; "Public transport delay"; "Traffic jam"; "No ride available"]
  | Weather => ["Heavy rain"; "Snow storm"; "Icy roads"; "Severe weather warning"]
  | OtherReason => ["Forgot appointment"; "Double booked"; "Financial reasons"; "No longer needed"]
  end.

(** The refund policy of [_generate_cancellation]: the flag and the amount
    (25.0 is 2500 cents). *)
Definition refund_policy (hours_before : Z) : Mon (bool * Z) :=
  if 24 <=? hours_before then
    refund_issued <- choice [true; false] ;;
    ret (refund_issued, if refund_issued then 2500 else 0)
  else ret (false, 0).

Definition _generate_cancellation (appointment_id appointment_datetime : Z)
  : Mon Cancellation.t :=
  max_hours_before <- _weighted_choice hours_before_weights ;;
  hours_before <- randint 1 max_hours_before ;;
  let cancellation_date := appointment_datetime - timedelta_hours hours_before in
  reason_category <- _weighted_choice CANCELLATION_REASONS ;;
  reason_detail <- choice (reason_details reason_category) ;;
  refund <- refund_policy hours_before ;;
  cancelled_by <- _weighted_choice [ (ByPatient, 85); (ByClinic, 10); (ByTherapist, 5) ] ;;
  rescheduled <- choice [true; false] ;;
  ret (Cancellation.mk appointment_id cancelled_by cancellation_date hours_before
         reason_category reason_detail (fst refund) (snd refund) rescheduled).

(** [treatment_info[treatment_id]] for the dictionary built from the rows of
    the treatments table (a later row with the same key replaces an earlier
    one). *)
Definition treatment_info (rows : list (Z * Treatment.t)) (treatment_id : Z)
  : option (Z * Treatment.t) :=
  find (fun row => fst row =? treatment_id) (rev rows).

Definition lookup_treatment (rows : list (Z * Treatment.t)) (treatment_id : Z)
  : Mon Treatment.t :=
  match treatment_info rows treatment_id with
  | Some row => ret (snd row)
  | None => raise KeyError
  end.

Definition status_weights : list (AppointmentStatus * Z) :=
  [ (Completed, 75); (Cancelled, 15); (NoShow, 7); (Scheduled, 3) ].

(** The date placement: triangular day offset, then the weekend shift. *)
Definition place_appointment_date (self : ClinicDataGenerator) : Mon Z :=
  days_from_start <- triangular_int 0 180 120 ;;
  let appointment_date := CLINIC_START_DATE self + timedelta_days days_from_start in
  shift <- (if 5 <=? weekday (date_of appointment_date)
            then r <- random_random ;; ret (lt_percent r 90)
            else ret false) ;;
  ret (if shift then appointment_date + timedelta_days 2 else appointment_date).

(** The pricing: the flag, the co-pay and the final price. *)
Definition price_appointment (base_price : Z) : Mon (bool * Z * Z) :=
  insurance_covered <- choice [true; false] ;;
  if insurance_covered then
    f <- uniform_int 100 300 ;;
    let copay_amount := round_div (base_price * f) 1000 in
    ret (true, copay_amount, copay_amount)
  else ret (false, 0, base_price).

(** "Future appointments are always Scheduled". *)
Definition draw_status (appointment_datetime : Z) : Mon AppointmentStatus :=
  t <- now ;;
  if t <? appointment_datetime then ret Scheduled
  else _weighted_choice status_weights.

(** "Add treatment timestamps for completed appointments". *)
Definition treatment_timestamps (status : AppointmentStatus)
    (appointment_datetime duration : Z) : Mon (option Z * option Z * option Z) :=
  if status_eqb status Completed then
    k1 <- randint 5 15 ;;
    let check_in_time := appointment_datetime - timedelta_minutes k1 in
    k2 <- randint 0 10 ;;
    let treatment_start := appointment_datetime + timedelta_minutes k2 in
    k3 <- randint (-5) 15 ;;
    let treatment_end := treatment_start + timedelta_minutes (duration + k3) in
    ret (Some check_in_time, Some treatment_start, Some treatment_end)
  else ret (None, None, None).

(** One pass of the loop of [generate_appointments]. *)
Definition generate_appointment (self : ClinicDataGenerator)
    (treatment_rows : list (Z * Treatment.t))
    (patient_ids therapist_ids treatment_ids : list Z)
    (appointment_id : Z)
    (acc : list Appointment.t * list Cancellation.t)
  : Mon (list Appointment.t * list Cancellation.t) :=
  let '(appointments, cancellations) := acc in
  patient_id <- choice patient_ids ;;
  therapist_id <- choice therapist_ids ;;
  treatment_id <- choice treatment_ids ;;
  appointment_date <- place_appointment_date self ;;
  appointment_datetime <- _get_business_hours_datetime appointment_date ;;
  lead <- randint 1 14 ;;
  let booking_date := appointment_datetime - timedelta_days lead in
  treatment <- lookup_treatment treatment_rows treatment_id ;;
  let duration := Treatment.duration_minutes treatment in
  let base_price := Treatment.base_price treatment in
  pricing <- price_appointment base_price ;;
  let '(insurance_covered, copay_amount, final_price) := pricing in
  status <- draw_status appointment_datetime ;;
  booking_method <-
    _weighted_choice [ (Phone, 60); (Online, 25); (WalkIn, 10); (Referral, 5) ] ;;
  r <- random_random ;;
  notes <- (if lt_percent r 20 then t <- fake_text ;; ret (Some t) else ret None) ;;
  reminder_sent <- choice [true; false] ;;
  stamps <- treatment_timestamps status appointment_datetime duration ;;
  let '(check_in_time, treatment_start, treatment_end) := stamps in
  let appointment :=
    Appointment.mk appointment_id patient_id therapist_id treatment_id
      (date_of appointment_datetime) (time_of appointment_datetime)
      duration status booking_date booking_method final_price
      insurance_covered copay_amount notes reminder_sent
      check_in_time treatment_start treatment_end in
  if status_eqb status Cancelled then
    cancellation <- _generate_cancellation appointment_id appointment_datetime ;;
    ret (appointments ++ [appointment], cancellations ++ [cancellation])
  else ret (appointments ++ [appointment], cancellations).

(** [SELECT treatment_id, duration_minutes, base_price FROM treatments] and
    the other SELECTs of the generator: they read what the connection
    sees. *)
Definition select {A} (table : Database -> list (Z * A)) : Mon (list (Z * A)) :=
  fun s => (inr (table (working (conn s))), s).

Definition generate_appointments (self : ClinicDataGenerator)
    (patient_ids therapist_ids treatment_ids : list Z) (num_appointments : Z)
  : Mon (list Appointment.t * list Cancellation.t) :=
  treatment_rows <- select treatments_table ;;
  for_range
    (generate_appointment self treatment_rows patient_ids therapist_ids treatment_ids)
    1 (Z.to_nat num_appointments) ([], []).

(** ** Workflow tasks *)

Definition task_types : list TaskType :=
  [ AppointmentConfirmation; InsuranceVerification; PaymentProcessing;
    PatientCheckIn; ReminderCall; FollowUp ].

Definition priority_map (t : TaskType) : Z :=
  match t with
  | PatientCheckIn => 1
  | AppointmentConfirmation => 2
  | InsuranceVerification => 3
  | PaymentProcessing => 2
  | ReminderCall => 3
  | FollowUp => 4
  end.

Definition duration_map (t : TaskType) : Z :=
  match t with
  | AppointmentConfirmation => 3
  | InsuranceVerification => 8
  | PaymentProcessing => 5
  | PatientCheckIn => 2
  | ReminderCall => 4
  | FollowUp => 6
  end.

Definition appointment_specific (t : TaskType) : bool :=
  match t with
  | AppointmentConfirmation | PatientCheckIn => true
  | _ => false
  end.

(** The target of a task: (appointment_id, patient_id). *)
Definition task_target (task_type : TaskType) (appointment_ids patient_ids : list Z)
  : Mon (option Z * option Z) :=
  if appointment_specific task_type then
    appointment_id <- choice appointment_ids ;;
    ret (Some appointment_id, None)
  else
    r <- random_random ;;
    appointment_id <- (if lt_percent r 70
                       then a <- choice appointment_ids ;; ret (Some a)
                       else ret None) ;;
    patient_id <- choice patient_ids ;;
    ret (appointment_id, Some patient_id).

(** "Task status": (status, completed_date, actual_duration). *)
Definition task_status (created_date estimated_duration : Z)
  : Mon (TaskStatus * option Z * option Z) :=
  t <- now ;;
  if created_date <? t - timedelta_days 1 then
    status <- choice [TaskCompleted; TaskCancelled] ;;
    match status with
    | TaskCompleted =>
        h <- randint 1 48 ;;
        let completed_date := created_date + timedelta_hours h in
        j <- randint (-2) 3 ;;
        let actual_duration := estimated_duration + j in
        ret (status, Some completed_date, Some actual_duration)
    | _ => ret (status, None, None)
    end
  else
    status <- choice [Pending; TaskInProgress] ;;
    ret (status, None, None).

(** One pass of the loop of [generate_reception_tasks]. *)
Definition generate_reception_task (appointment_ids patient_ids : list Z)
  : Mon ReceptionTask.t :=
  task_type <- choice task_types ;;
  target <- task_target task_type appointment_ids patient_ids ;;
  let '(appointment_id, patient_id) := target in
  t <- now ;;
  d <- randint 1 30 ;;
  let created_date := t - timedelta_days d in
  let priority := priority_map task_type in
  let estimated_duration := duration_map task_type in
  outcome <- task_status created_date estimated_duration ;;
  let '(status, completed_date, actual_duration) := outcome in
  assigned_to <- choice ["Sarah"; "Mike"; "Jennifer"; "Auto-System"] ;;
  r <- random_random ;;
  notes <- (if lt_percent r 30 then t <- fake_text ;; ret (Some t) else ret None) ;;
  ret (ReceptionTask.mk task_type patient_id appointment_id priority status
         assigned_to estimated_duration actual_duration
         (created_date + timedelta_hours 24) completed_date notes created_date).

Definition generate_reception_tasks (appointment_ids patient_ids : list Z)
  : Mon (list ReceptionTask.t) :=
  repeatM 200
    (fun tasks => task <- generate_reception_task appointment_ids patient_ids ;;
                  ret (tasks ++ [task]))
    [].

(** ** Persistence *)

(** [INSERT INTO patients ...]: [email] is UNIQUE; the key is handed out by
    AUTOINCREMENT.  NOT NULL and CHECK hold by the types of the record. *)
Definition insert_patient (p : Patient.t) (db : Database) : exn + Database :=
  if existsb (fun row => String.eqb (Patient.email (snd row)) (Patient.email p))
       (patients_table db)
  then inl IntegrityError
  else inr (mkDatabase
              (patients_table db ++ [(patients_seq db + 1, p)])
              (therapists_table db) (treatments_table db) (appointments_table db)
              (cancellations_table db) (reception_tasks_table db)
              (patients_seq db + 1) (therapists_seq db) (treatments_seq db)
              (appointments_seq db) (cancellations_seq db) (reception_tasks_seq db)).

(** [INSERT INTO therapists ...]: [email] and [license_number] are UNIQUE. *)
Definition insert_therapist (t : Therapist.t) (db : Database) : exn + Database :=
  if existsb (fun row =>
                String.eqb (Therapist.email (snd row)) (Therapist.email t)
                || (Therapist.license_number (snd row) =? Therapist.license_number t))
       (therapists_table db)
  then inl IntegrityError
  else inr (mkDatabase
              (patients_table db)
              (therapists_table db ++ [(therapists_seq db + 1, t)])
              (treatments_table db) (appointments_table db)
              (cancellations_table db) (reception_tasks_table db)
              (patients_seq db) (therapists_seq db + 1) (treatments_seq db)
              (appointments_seq db) (cancellations_seq db) (reception_tasks_seq db)).

(** [INSERT INTO appointments ...]: the [appointment_id] key of the
    dictionary is not among the inserted columns; the row gets its key from
    AUTOINCREMENT.  Foreign keys are not enforced (SQLite's default). *)
Definition insert_appointment (a : Appointment.t) (db : Database) : exn + Database :=
  inr (mkDatabase
         (patients_table db) (therapists_table db) (treatments_table db)
         (appointments_table db ++ [(appointments_seq db + 1, a)])
         (cancellations_table db) (reception_tasks_table db)
         (patients_seq db) (therapists_seq db) (treatments_seq db)
         (appointments_seq db + 1) (cancellations_seq db) (reception_tasks_seq db)).

Definition insert_cancellation (c : Cancellation.t) (db : Database) : exn + Database :=
  inr (mkDatabase
         (patients_table db) (therapists_table db) (treatments_table db) (appointments_table db)
         (cancellations_table db ++ [(cancellations_seq db + 1, c)])
         (reception_tasks_table db)
         (patients_seq db) (therapists_seq db) (treatments_seq db)
         (appointments_seq db) (cancellations_seq db + 1) (reception_tasks_seq db)).

Definition insert_reception_task (t : ReceptionTask.t) (db : Database) : exn + Database :=
  inr (mkDatabase
         (patients_table db) (therapists_table db) (treatments_table db) (appointments_table db)
         (cancellations_table db)
         (reception_tasks_table db ++ [(reception_tasks_seq db + 1, t)])
         (patients_seq db) (therapists_seq db) (treatments_seq db)
         (appointments_seq db) (cancellations_seq db) (reception_tasks_seq db + 1)).

(** [cursor.execute(INSERT ...)]: the storage layer may fail the write;
    otherwise the statement runs on what the connection sees, inside its
    open transaction. *)
Definition execute (stmt : Database -> exn + Database) : Mon unit :=
  fun s =>
    if io_error (xpos s) then (inl OperationalError, tick_io s)
    else match stmt (working (conn s)) with
         | inl e => (inl e, tick_io s)
         | inr db' =>
             (inr tt, set_conn (mkConnection (committed (conn s)) db') (tick_io s))
         end.

(** [self.conn.commit()]. *)
Definition commit : Mon unit :=
  fun s =>
    if io_error (xpos s) then (inl OperationalError, tick_io s)
    else (inr tt, set_conn (connect (working (conn s))) (tick_io s)).

(** [self.conn.rollback()]. *)
Definition rollback : Mon unit :=
  fun s => (inr tt, set_conn (connect (committed (conn s))) s).

Definition insert_data_to_database
    (patients : list Patient.t) (therapists : list Therapist.t)
    (appointments : list Appointment.t) (cancellations : list Cancellation.t)
    (reception_tasks : list ReceptionTask.t) : Mon unit :=
  try_except
    (for_each (fun patient => execute (insert_patient patient)) patients ;;;
     for_each (fun therapist => execute (insert_therapist therapist)) therapists ;;;
     for_each (fun apt => execute (insert_appointment apt)) appointments ;;;
     for_each (fun cancel => execute (insert_cancellation cancel)) cancellations ;;;
     for_each (fun task => execute (insert_reception_task task)) reception_tasks ;;;
     commit)
    (fun e => rollback ;;; raise e).

(** [_print_summary_statistics]: nothing is written; the division by the
    appointment count and the formatting of the average price of the
    completed appointments (NULL when there is none) can raise. *)
Definition _print_summary_statistics : Mon unit :=
  appointment_rows <- select appointments_table ;;
  if (Z.of_nat (List.length appointment_rows) =? 0) then raise ZeroDivisionError
  else if existsb (fun row => status_eqb (Appointment.status (snd row)) Completed)
            appointment_rows
       then ret tt
       else raise TypeError.

Definition generate_all_data (self : ClinicDataGenerator) : Mon unit :=
  patients <- generate_patients 500 ;;
  therapists <- generate_therapists 6 ;;
  (* Insert patients and therapists first *)
  insert_data_to_database patients therapists [] [] [] ;;;
  patient_rows <- select patients_table ;;
  let patient_ids := map fst patient_rows in
  therapist_rows <- select therapists_table ;;
  let therapist_ids := map fst therapist_rows in
  treatment_rows <- select treatments_table ;;
  let treatment_ids := map fst treatment_rows in
  generated <- generate_appointments self patient_ids therapist_ids treatment_ids 3000 ;;
  let '(appointments, cancellations) := generated in
  appointment_rows <- select appointments_table ;;
  let appointment_ids := map fst appointment_rows in
  reception_tasks <- generate_reception_tasks appointment_ids patient_ids ;;
  (* Insert remaining data *)
  insert_data_to_database [] [] appointments cancellations reception_tasks ;;;
  _print_summary_statistics.

(** ** database.py: the sample catalog *)

Definition sample_treatments : list Treatment.t :=
  [ Treatment.mk "Initial Assessment" "ASSESS-001" 60 8500
      "Comprehensive initial evaluation and treatment planning" false Assessment;
    Treatment.mk "Manual Therapy" "MT-001" 45 7500
      "Hands-on techniques including mobilization and manipulation" false ManualTherapy;
    Treatment.mk "Exercise Therapy" "ET-001" 45 6500
      "Supervised therapeutic exercises and movement training" true ExerciseTherapy;
    Treatment.mk "Sports Massage" "SM-001" 30 5500
      "Deep tissue massage for athletes and active individuals" false ManualTherapy;
    Treatment.mk "Electrotherapy" "ELECTRO-001" 30 4500
      "TENS, ultrasound, and electrical stimulation" true Electrotherapy;
    Treatment.mk "Dry Needling" "DN-001" 30 7000
      "Trigger point dry needling for muscle pain relief" true ManualTherapy;
    Treatment.mk "Postural Correction" "PC-001" 45 6500
      "Assessment and correction of postural imbalances" false ExerciseTherapy;
    Treatment.mk "Balance Training" "BT-001" 30 5000
      "Proprioceptive and balance enhancement exercises" true ExerciseTherapy;
    Treatment.mk "Hydrotherapy" "HYDRO-001" 45 8000
      "Water-based rehabilitation and exercise" true Hydrotherapy;
    Treatment.mk "Follow-up Session" "FU-001" 30 6000
      "Progress review and treatment adjustment" false Assessment ].

(** [INSERT OR IGNORE INTO treatments ...]: a row whose [treatment_code] is
    already there is skipped. *)
Definition insert_or_ignore_treatment (db : Database) (t : Treatment.t) : Database :=
  if existsb (fun row =>
                String.eqb (Treatment.treatment_code (snd row)) (Treatment.treatment_code t))
       (treatments_table db)
  then db
  else mkDatabase
         (patients_table db) (therapists_table db)
         (treatments_table db ++ [(treatments_seq db + 1, t)])
         (appointments_table db) (cancellations_table db) (reception_tasks_table db)
         (patients_seq db) (therapists_seq db) (treatments_seq db + 1)
         (appointments_seq db) (cancellations_seq db) (reception_tasks_seq db).

Definition insert_sample_treatments (db : Database) : Database :=
  fold_left insert_or_ignore_treatment sample_treatments db.

(** ** data_access.py: the age column of the patient features

    [ROUND((julianday('now') - julianday(p.date_of_birth)) / 365.25)], read
    at the instant [now_]. *)
Definition age_column (now_ date_of_birth : Z) : Z :=
  round_div (4 * (now_ - date_of_birth * us_per_day)) (1461 * us_per_day).

(** The state in which a fresh process starts on the store [db]. *)
Definition start (db : Database) : St := mkSt 0 0 0 0 (connect db).

(** [main()]: the sample catalog is installed in the store, then a
    generator is created and run. *)
Definition main (db : Database) : (exn + unit) * St :=
  (self <- init ;; generate_all_data self) (start (insert_sample_treatments db)).

(** * Vocabulary of the specification

    [wpe E m Q s]: run from [s], the computation [m] either returns a value
    and a state satisfying [Q], or raises an exception in a state
    satisfying [E].  With [E] always false this says that [m] returns. *)
Definition wpe {A} (E : exn -> St -> Prop) (m : Mon A) (Q : A -> St -> Prop) (s : St)
  : Prop :=
  match m s with
  | (inr a, s') => Q a s'
  | (inl e, s') => E e s'
  end.

(** No exception is allowed. *)
Definition never : exn -> St -> Prop := fun _ _ => False.

(** What the random stream, the clock and Faker leave untouched. *)
Definition same_store (s s' : St) : Prop := conn s' = conn s /\ xpos s' = xpos s.

(** [s'] is reached from [s] by [k] readings of the clock and any number of
    draws and Faker calls, without touching the store. *)
Definition st_after (s s' : St) (k : N) : Prop :=
  same_store s s' /\ cpos s' = (cpos s + k)%N.

(** What one pass of the loop of [generate_patients] guarantees, [today]
    being the clock reading from which the birth date is counted back. *)
Definition patient_ok (today : Z) (p : Patient.t) : Prop :=
  (exists age, 25 <= age <= 90 /\ Patient.date_of_birth p = date_of today - age * 365)
  /\ (Patient.gender p = M \/ Patient.gender p = F).

(** The status of an appointment: forced to Scheduled when the slot is after
    the reading [now_] of the clock, drawn from the weighted table
    otherwise. *)
Definition status_ok (now_ appointment_datetime : Z) (status : AppointmentStatus)
  : Prop :=
  (now_ < appointment_datetime /\ status = Scheduled)
  \/ (appointment_datetime <= now_ /\ In status (map fst status_weights)).

(** The three timestamps: present for a completed appointment, at the
    offsets k1, k2 and duration + k3 minutes drawn around the slot [dt];
    absent otherwise. *)
Definition stamps_ok (status : AppointmentStatus) (dt duration : Z)
    (check_in_time treatment_start treatment_end : option Z) : Prop :=
  if status_eqb status Completed then
    exists k1 k2 k3,
      5 <= k1 <= 15 /\ 0 <= k2 <= 10 /\ -5 <= k3 <= 15
      /\ check_in_time = Some (dt - timedelta_minutes k1)
      /\ treatment_start = Some (dt + timedelta_minutes k2)
      /\ treatment_end =
           Some (dt + timedelta_minutes k2 + timedelta_minutes (duration + k3))
  else check_in_time = None /\ treatment_start = None /\ treatment_end = None.

(** The refund policy. *)
Definition refund_ok (hours_before : Z) (refund_issued : bool) (refund_amount : Z)
  : Prop :=
  (hours_before < 24 -> refund_issued = false /\ refund_amount = 0)
  /\ (24 <= hours_before -> refund_amount = if refund_issued then 2500 else 0).

(** What [_generate_cancellation] guarantees about the record it returns. *)
Definition cancellation_ok (appointment_id appointment_datetime : Z)
    (c : Cancellation.t) : Prop :=
  Cancellation.appointment_id c = appointment_id
  /\ 1 <= Cancellation.hours_before_appointment c <= 168
  /\ Cancellation.cancellation_date c =
       appointment_datetime - timedelta_hours (Cancellation.hours_before_appointment c)
  /\ refund_ok (Cancellation.hours_before_appointment c)
       (Cancellation.refund_issued c) (Cancellation.refund_amount c).

(** When [generate_appointments] raises, and what: IndexError on an empty
    list of keys, KeyError on a treatment key that has no row. *)
Definition appointment_inputs_bad (rows : list (Z * Treatment.t))
    (patient_ids therapist_ids treatment_ids : list Z) (e : exn) : Prop :=
  (e = IndexError
   /\ (patient_ids = [] \/ therapist_ids = [] \/ treatment_ids = []))
  \/ (e = KeyError
      /\ exists treatment_id,
          In treatment_id treatment_ids /\ treatment_info rows treatment_id = None).

(** What one pass of the loop of [generate_appointments] guarantees about
    the appointment it appends, [now_] being the reading of the clock taken
    in that pass. *)
Definition appointment_ok (rows : list (Z * Treatment.t))
    (patient_ids therapist_ids treatment_ids : list Z)
    (now_ id : Z) (a : Appointment.t) : Prop :=
  Appointment.appointment_id a = id
  /\ In (Appointment.patient_id a) patient_ids
  /\ In (Appointment.therapist_id a) therapist_ids
  /\ In (Appointment.treatment_id a) treatment_ids
  /\ (exists row, In row rows /\ fst row = Appointment.treatment_id a
                  /\ Treatment.duration_minutes (snd row) = Appointment.duration_minutes a)
  /\ status_ok now_ (Appointment.datetime a) (Appointment.status a)
  /\ stamps_ok (Appointment.status a) (Appointment.datetime a)
       (Appointment.duration_minutes a)
       (Appointment.check_in_time a) (Appointment.treatment_start_time a)
       (Appointment.treatment_end_time a).

(** What the same pass does to the list of cancellations. *)
Definition cancellation_step (a : Appointment.t) (cans cans' : list Cancellation.t)
  : Prop :=
  (Appointment.status a = Cancelled
   /\ exists c, cans' = cans ++ [c]
                /\ cancellation_ok (Appointment.appointment_id a) (Appointment.datetime a) c)
  \/ (Appointment.status a <> Cancelled /\ cans' = cans).

Definition is_cancelled (a : Appointment.t) : bool :=
  status_eqb (Appointment.status a) Cancelled.

(** The cancellations are, in order, those of the cancelled appointments. *)
Definition cancellations_match (apps : list Appointment.t) (cans : list Cancellation.t)
  : Prop :=
  Forall2 (fun a c => cancellation_ok (Appointment.appointment_id a)
                        (Appointment.datetime a) c)
    (filter is_cancelled apps) cans.

(** What [generate_appointments] guarantees when it returns, having started
    in state [s] on the treatment rows [rows]. *)
Definition appointments_ok (s : St) (rows : list (Z * Treatment.t))
    (pids thids trids : list Z) (n : nat)
    (apps : list Appointment.t) (cans : list Cancellation.t) (s' : St) : Prop :=
  List.length apps = n
  /\ st_after s s' (N.of_nat n)
  /\ (forall i a, nth_error apps i = Some a ->
                  appointment_ok rows pids thids trids
                    (clock (cpos s + N.of_nat i)) (1 + Z.of_nat i) a)
  /\ cancellations_match apps cans.

(** The status of a task and its completion fields, [now_] being the
    reading of the clock against which the age of the task is tested. *)
Definition task_outcome_ok (now_ created_date estimated_duration : Z)
    (status : TaskStatus) (completed_date actual_duration : option Z) : Prop :=
  (created_date < now_ - timedelta_days 1
   /\ ((status = TaskCompleted
        /\ exists h j, 1 <= h <= 48 /\ -2 <= j <= 3
                       /\ completed_date = Some (created_date + timedelta_hours h)
                       /\ actual_duration = Some (estimated_duration + j))
       \/ (status = TaskCancelled /\ completed_date = None /\ actual_duration = None)))
  \/ (now_ - timedelta_days 1 <= created_date
      /\ (status = Pending \/ status = TaskInProgress)
      /\ completed_date = None /\ actual_duration = None).

(** What one pass of the loop of [generate_reception_tasks] guarantees:
    [now1] is the reading from which the creation date is counted back,
    [now2] the later reading against which the age of the task is tested. *)
Definition task_ok (now1 now2 : Z) (t : ReceptionTask.t) : Prop :=
  (exists d, 1 <= d <= 30 /\ ReceptionTask.created_at t = now1 - timedelta_days d)
  /\ ReceptionTask.due_date t = ReceptionTask.created_at t + timedelta_hours 24
  /\ ReceptionTask.priority t = priority_map (ReceptionTask.task_type t)
  /\ ReceptionTask.estimated_duration_minutes t = duration_map (ReceptionTask.task_type t)
  /\ task_outcome_ok now2 (ReceptionTask.created_at t)
       (ReceptionTask.estimated_duration_minutes t)
       (ReceptionTask.status t) (ReceptionTask.completed_date t)
       (ReceptionTask.actual_duration_minutes t).

(** What [generate_reception_tasks] guarantees when it returns, having
    started in state [s]: two readings of the clock per task. *)
Definition tasks_ok (s : St) (tasks : list ReceptionTask.t) (s' : St) : Prop :=
  List.length tasks = 200%nat
  /\ st_after s s' 400
  /\ forall i t, nth_error tasks i = Some t ->
                 task_ok (clock (cpos s + 2 * N.of_nat i))
                   (clock (cpos s + 2 * N.of_nat i + 1)) t.

(** The statements of a batch, run one after the other on a store that
    never fails a write. *)
Fixpoint apply_statements (stmts : list (Database -> exn + Database)) (db : Database)
  : exn + Database :=
  match stmts with
  | [] => inr db
  | stmt :: tl =>
      match stmt db with
      | inr db' => apply_statements tl db'
      | inl e => inl e
      end
  end.

(** The INSERT statements of a call of [insert_data_to_database], in the
    order in which it runs them. *)
Definition batch_statements
    (patients : list Patient.t) (therapists : list Therapist.t)
    (appointments : list Appointment.t) (cancellations : list Cancellation.t)
    (reception_tasks : list ReceptionTask.t) : list (Database -> exn + Database) :=
  map insert_patient patients ++ map insert_therapist therapists
  ++ map insert_appointment appointments ++ map insert_cancellation cancellations
  ++ map insert_reception_task reception_tasks.

(** How a run can leave the store [db] it started on: untouched; or with
    the first batch (the patients and therapists of the run) made durable
    and nothing else; or with both batches durable.  In no case is a
    transaction left open. *)
Definition first_batch_stored (db db1 : Database) : Prop :=
  exists ps ths,
    List.length ps = 500%nat /\ List.length ths = 6%nat
    /\ apply_statements (batch_statements ps ths [] [] []) db = inr db1.

Definition second_batch_stored (db1 db2 : Database) : Prop :=
  exists apps cans tasks,
    List.length apps = 3000%nat /\ List.length tasks = 200%nat
    /\ apply_statements (batch_statements [] [] apps cans tasks) db1 = inr db2.

Inductive run_outcome (db : Database) : exn + unit -> Connection -> Prop :=
| run_failed_nothing_stored e :
    run_outcome db (inl e) (connect db)
| run_failed_first_batch_stored e db1 :
    first_batch_stored db db1 ->
    run_outcome db (inl e) (connect db1)
| run_both_batches_stored r db1 db2 :
    first_batch_stored db db1 ->
    second_batch_stored db1 db2 ->
    run_outcome db r (connect db2).

(** * Further vocabulary *)

(** Whether a text holds a line feed. *)
Fixpoint contains_newline (s : string) : bool :=
  match s with
  | EmptyString => false
  | String c tl => Ascii.eqb c "010"%char || contains_newline tl
  end.

(** The rows that AUTOINCREMENT makes of the records [xs] when the last key
    handed out is [seq]. *)
Fixpoint number_rows {A} (seq : Z) (xs : list A) : list (Z * A) :=
  match xs with
  | [] => []
  | x :: tl => (seq + 1, x) :: number_rows (seq + 1) tl
  end.

(** The store [db] with the rows of a batch appended to its tables. *)
Definition with_batch (db : Database)
    (ps : list Patient.t) (ths : list Therapist.t) (apps : list Appointment.t)
    (cans : list Cancellation.t) (tasks : list ReceptionTask.t) : Database :=
  mkDatabase
    (patients_table db ++ number_rows (patients_seq db) ps)
    (therapists_table db ++ number_rows (therapists_seq db) ths)
    (treatments_table db)
    (appointments_table db ++ number_rows (appointments_seq db) apps)
    (cancellations_table db ++ number_rows (cancellations_seq db) cans)
    (reception_tasks_table db ++ number_rows (reception_tasks_seq db) tasks)
    (patients_seq db + Z.of_nat (List.length ps))
    (therapists_seq db + Z.of_nat (List.length ths))
    (treatments_seq db)
    (appointments_seq db + Z.of_nat (List.length apps))
    (cancellations_seq db + Z.of_nat (List.length cans))
    (reception_tasks_seq db + Z.of_nat (List.length tasks)).

(** The e-mail addresses (of patients, of therapists) and the licence
    numbers held by a store. *)
Definition patient_emails (db : Database) : list string :=
  map (fun row => Patient.email (snd row)) (patients_table db).

Definition therapist_emails (db : Database) : list string :=
  map (fun row => Therapist.email (snd row)) (therapists_table db).

Definition therapist_licenses (db : Database) : list Z :=
  map (fun row => Therapist.license_number (snd row)) (therapists_table db).

Definition treatment_codes (db : Database) : list string :=
  map (fun row => Treatment.treatment_code (snd row)) (treatments_table db).

(** The patients [ps] can be inserted into [db] under the UNIQUE constraint
    on [email]: their addresses are pairwise distinct and none is in the
    store. *)
Definition patients_fresh (db : Database) (ps : list Patient.t) : Prop :=
  NoDup (map Patient.email ps)
  /\ forall p, In p ps -> ~ In (Patient.email p) (patient_emails db).

(** The same for therapists, under the UNIQUE constraints on [email] and
    [license_number]. *)
Definition therapists_fresh (db : Database) (ths : list Therapist.t) : Prop :=
  NoDup (map Therapist.email ths)
  /\ NoDup (map Therapist.license_number ths)
  /\ forall t, In t ths ->
               ~ In (Therapist.email t) (therapist_emails db)
               /\ ~ In (Therapist.license_number t) (therapist_licenses db).

(** The storage layer fails one of the [n] writes that follow state [s]. *)
Definition io_fails_within (s : St) (n : N) : Prop :=
  exists k, (xpos s <= k < xpos s + n)%N /\ io_error k = true.

(** What one pass of the loop of [generate_patients] guarantees beyond
    [patient_ok], [today'] being the second clock reading of the pass. *)
Definition patient_details_ok (today' : Z) (p : Patient.t) : Prop :=
  (exists reg_days_ago,
      30 <= reg_days_ago <= 180
      /\ Patient.registration_date p = date_of today' - reg_days_ago)
  /\ contains_newline (Patient.address p) = false.

(** What one pass of the loop of [generate_therapists] guarantees for index
    [i], [today] being the clock reading of the pass. *)
Definition therapist_ok (i today : Z) (t : Therapist.t) : Prop :=
  (i < 4 ->
   Therapist.working_days t = "Mon,Tue,Wed,Thu,Fri"
   /\ Therapist.start_time t = "08:00" /\ Therapist.end_time t = "17:00"
   /\ Therapist.max_patients_per_day t = 12)
  /\ (i = 4 ->
      Therapist.working_days t = "Mon,Wed,Fri"
      /\ Therapist.start_time t = "08:00" /\ Therapist.end_time t = "13:00"
      /\ Therapist.max_patients_per_day t = 6)
  /\ (4 < i ->
      Therapist.working_days t = "Tue,Thu,Fri"
      /\ Therapist.start_time t = "13:00" /\ Therapist.end_time t = "18:00"
      /\ Therapist.max_patients_per_day t = 6)
  /\ Therapist.specialization t
     = nth (Z.to_nat (i mod 6)) specializations ""
  /\ 10000 <= Therapist.license_number t <= 99999
  /\ (exists hire_days_ago,
         365 <= hire_days_ago <= 1800
         /\ Therapist.hire_date t = date_of today - hire_days_ago)
  /\ 3500 <= Therapist.hourly_rate t <= 5500
  /\ Therapist.is_active t = 1.

(** A time of day on the grid of [_get_business_hours_datetime]. *)
Definition business_time (t : Z) : Prop :=
  exists hour minute,
    In hour [8; 9; 10; 11; 12; 13; 14; 15; 16] /\ In minute [0; 15; 30; 45]
    /\ t = timedelta_hours hour + timedelta_minutes minute.

(** What one pass of the loop of [generate_appointments] guarantees about
    the place of the appointment in the calendar, its booking and its
    price. *)
Definition appointment_details_ok (self : ClinicDataGenerator)
    (rows : list (Z * Treatment.t)) (a : Appointment.t) : Prop :=
  (exists days_from_start shift,
      0 <= days_from_start <= 180
      /\ (shift = 0
          \/ (shift = 2
              /\ 5 <= weekday (date_of (CLINIC_START_DATE self) + days_from_start)))
      /\ Appointment.appointment_date a
         = date_of (CLINIC_START_DATE self) + days_from_start + shift)
  /\ business_time (Appointment.appointment_time a)
  /\ (exists lead,
         1 <= lead <= 14
         /\ Appointment.booking_date a = Appointment.datetime a - timedelta_days lead)
  /\ (exists row,
         In row rows /\ fst row = Appointment.treatment_id a
         /\ Appointment.duration_minutes a = Treatment.duration_minutes (snd row)
         /\ ((Appointment.insurance_covered a = true
              /\ Appointment.price a = Appointment.copay_amount a
              /\ exists share,
                  100 <= share <= 300
                  /\ Appointment.copay_amount a
                     = round_div (Treatment.base_price (snd row) * share) 1000)
             \/ (Appointment.insurance_covered a = false
                 /\ Appointment.copay_amount a = 0
                 /\ Appointment.price a = Treatment.base_price (snd row)))).

(** What [_generate_cancellation] guarantees about the categorical fields of
    the record it returns. *)
Definition cancellation_details_ok (c : Cancellation.t) : Prop :=
  In (Cancellation.reason_detail c) (reason_details (Cancellation.reason_category c))
  /\ In (Cancellation.cancelled_by c) [ByPatient; ByClinic; ByTherapist].

(** What one pass of the loop of [generate_reception_tasks] guarantees about
    the target of the task. *)
Definition task_target_ok (appointment_ids patient_ids : list Z)
    (t : ReceptionTask.t) : Prop :=
  (appointment_specific (ReceptionTask.task_type t) = true ->
   ReceptionTask.patient_id t = None
   /\ exists k, ReceptionTask.appointment_id t = Some k /\ In k appointment_ids)
  /\ (appointment_specific (ReceptionTask.task_type t) = false ->
      (exists k, ReceptionTask.patient_id t = Some k /\ In k patient_ids)
      /\ forall k, ReceptionTask.appointment_id t = Some k -> In k appointment_ids).

(** ** data_access.py: indicators of the read side

    The row count and [SUM(CASE WHEN status = ... THEN 1 ELSE 0 END)] over
    rows of the appointments table. *)
Definition count_status (status : AppointmentStatus) (rows : list (Z * Appointment.t))
  : Z :=
  Z.of_nat
    (List.length
       (filter (fun row => status_eqb (Appointment.status (snd row)) status) rows)).

(** The counts of today in [get_real_time_kpis]: total, completed,
    cancelled and no-show appointments [WHERE appointment_date = today]; an
    absent sum is read as 0. *)
Definition today_stats (rows : list (Z * Appointment.t)) (today : Z) : Z * Z * Z * Z :=
  let day :=
    filter (fun row => Appointment.appointment_date (snd row) =? today) rows in
  (Z.of_nat (List.length day), count_status Completed day,
   count_status Cancelled day, count_status NoShow day).

(** [week_start = today - timedelta(days=today.weekday())]. *)
Definition week_start (today : Z) : Z := today - weekday today.

(** [cancellation_rate_30d]: [ROUND(cancelled * 100.0 / count, 2)] over
    the appointments [WHERE appointment_date >= today - 30], in hundredths
    of a per cent; the NULL of an empty selection is read as 0. *)
Definition cancellation_rate_30d (rows : list (Z * Appointment.t)) (today : Z) : Z :=
  let recent :=
    filter (fun row => today - 30 <=? Appointment.appointment_date (snd row)) rows in
  if Z.of_nat (List.length recent) =? 0 then 0
  else round_div (count_status Cancelled recent * 10000) (Z.of_nat (List.length recent)).

(** [ROUND(julianday(a.appointment_date) - julianday(a.booking_date))]: the
    column [days_booked_in_advance] of [get_cancellation_features]; the
    appointment date counts from midnight, the booking date is an
    instant. *)
Definition days_booked_in_advance (appointment_date booking_date : Z) : Z :=
  round_div (appointment_date * us_per_day - booking_date) us_per_day.

(** * Concrete runs

    Oracles and stores on which the generator is run in the examples at the
    end of the development. *)

(** A random stream: the outputs of a 64-bit mixing function. *)
Definition mask64 (z : Z) : Z := Z.land z (2 ^ 64 - 1).

Definition rand0 (n : N) : Z :=
  let z := mask64 ((Z.of_N n + 1) * 11400714819323198485) in
  let z := mask64 (Z.lxor z (Z.shiftr z 30) * 13787848793156543929) in
  let z := mask64 (Z.lxor z (Z.shiftr z 27) * 10723151780598845931) in
  Z.lxor z (Z.shiftr z 31).

(** A random stream given by its first draws, 0 afterwards. *)
Definition rand_of_list (draws : list Z) (n : N) : Z := nth (N.to_nat n) draws 0.

(** A clock started on Tuesday 2025-09-09 (ordinal day 739503) at 10:00,
    advancing one millisecond per reading. *)
Definition clock0 (n : N) : Z := 63893095200000000 + 1000 * Z.of_N n.

(** Faker texts that never repeat: the decimal digits of the call number,
    lowest first. *)
Fixpoint decimal (fuel : nat) (n : N) : string :=
  match fuel with
  | O => ""
  | S fuel' =>
      String (ascii_of_N (48 + n mod 10))
        (if (n / 10 =? 0)%N then "" else decimal fuel' (n / 10))
  end.

Definition fake0 (n : N) : string := decimal 20 n.

(** A storage layer that never fails, and one that fails its k-th write. *)
Definition io_ok (n : N) : bool := false.
Definition io_fails_at (k n : N) : bool := (n =? k)%N.

(** A new store in which only the sample catalog has been installed. *)
Definition fresh_store : Database := insert_sample_treatments empty_database.

(** The generator object that [__init__] builds under [clock0], and the
    state in which it is left on a store [db]. *)
Definition self0 : ClinicDataGenerator :=
  mkGenerator (clock0 0 - timedelta_days 180) (clock0 1 + timedelta_days 30).

Definition after_init (db : Database) : St := tick_clock (tick_clock (start db)).

(** A store left by earlier use: one patient, one therapist and one
    appointment. *)
Definition old_patient : Patient.t :=
  Patient.mk "Erika" "Mustermann" "erika@example.org" "030 1234567" 720000 F
    "Heidestrasse 17, 51147 Koeln" Public "Neck Pain" 739400
    "Max Mustermann" "030 7654321" None.

Definition old_therapist : Therapist.t :=
  Therapist.mk "Jonas" "Weber" "jonas@example.org" "030 1112223" "Manual Therapy"
    1 738000 4500 12 "Mon,Tue,Wed,Thu,Fri" "08:00" "17:00" 1.

Definition old_appointment : Appointment.t :=
  Appointment.mk 1 1 1 2 739490 (timedelta_hours 9) 45 Scheduled
    63891000000000000 Phone 7500 false 0 None false None None None.

Definition old_store : Database :=
  mkDatabase [(1, old_patient)] [(1, old_therapist)] [] [(1, old_appointment)] [] []
    1 1 0 1 0 0.




(** The draws of a pass that places the appointment on the day of
    generation at 14:00, after the clock reading of 10:00. *)
Definition draws_future : list Z :=
  [ 0; 0; 0; 180; 0; 3; 0; 0; 1; 0; 0; 0 ].

(** A patient and a therapist that the store [old_store] does not know. *)
Definition new_patient : Patient.t :=
  Patient.mk "Lukas" "Schmidt" "lukas@example.org" "030 2223334" 725000 M
    "Am Markt 3, 50667 Koeln" Private "Knee Injury" 739450
    "Anna Schmidt" "030 4445556" None.

Definition new_therapist : Therapist.t :=
  Therapist.mk "Mia" "Keller" "mia@example.org" "030 9998887"
    "Sports Physical Therapy" 2 738500 5000 6 "Mon,Wed,Fri" "08:00" "13:00" 1.

(** * Reasoning about the generator *)

Lemma wpe_ret A E (a : A) Q s : Q a s -> wpe E (ret a) Q s.
Proof. exact (fun H => H). Qed.

Lemma wpe_raise A E e (Q : A -> St -> Prop) s : E e s -> wpe E (raise e) Q s.
Proof. exact (fun H => H). Qed.

Lemma wpe_bind A B E (m : Mon A) (f : A -> Mon B) Q s :
  wpe E m (fun a s' => wpe E (f a) Q s') s -> wpe E (bind m f) Q s.
Proof.
  unfold wpe, bind. destruct (m s) as [[e | a] s1]; auto.
Qed.

Lemma wpe_mono A (E E' : exn -> St -> Prop) (m : Mon A) (Q Q' : A -> St -> Prop) s :
  wpe E m Q s ->
  (forall e s', E e s' -> E' e s') ->
  (forall a s', Q a s' -> Q' a s') ->
  wpe E' m Q' s.
Proof.
  unfold wpe. destruct (m s) as [[e | a] s1]; auto.
Qed.

Lemma wpe_post A E (m : Mon A) (Q Q' : A -> St -> Prop) s :
  wpe E m Q s -> (forall a s', Q a s' -> Q' a s') -> wpe E m Q' s.
Proof. intros H HQ. eapply wpe_mono; [exact H | auto | exact HQ]. Qed.

(** A computation that returns can be used under any [E]. *)
Lemma wpe_never A E (m : Mon A) (Q Q' : A -> St -> Prop) s :
  wpe never m Q s -> (forall a s', Q a s' -> Q' a s') -> wpe E m Q' s.
Proof.
  intros H HQ. eapply wpe_mono; [exact H | intros e s' [] | exact HQ].
Qed.

Lemma wpe_inr A E (m : Mon A) Q s a s' :
  wpe E m Q s -> m s = (inr a, s') -> Q a s'.
Proof. unfold wpe. intros H Hm. now rewrite Hm in H. Qed.

Lemma wpe_inl A E (m : Mon A) Q s e s' :
  wpe E m Q s -> m s = (inl e, s') -> E e s'.
Proof. unfold wpe. intros H Hm. now rewrite Hm in H. Qed.

Lemma wpe_returns A (m : Mon A) Q s :
  wpe never m Q s -> exists a s', m s = (inr a, s') /\ Q a s'.
Proof.
  unfold wpe. destruct (m s) as [[e | a] s1]; [intros [] | eauto].
Qed.

Lemma wpe_fails A E (m : Mon A) s :
  wpe E m (fun _ _ => False) s -> exists e s', m s = (inl e, s') /\ E e s'.
Proof.
  unfold wpe. destruct (m s) as [[e | a] s1]; [eauto | intros []].
Qed.

Lemma bind_inl A B (m : Mon A) (f : A -> Mon B) s e s' :
  m s = (inl e, s') -> bind m f s = (inl e, s').
Proof. unfold bind. now intros ->. Qed.

Lemma bind_inr A B (m : Mon A) (f : A -> Mon B) s a s' :
  m s = (inr a, s') -> bind m f s = f a s'.
Proof. unfold bind. now intros ->. Qed.

Lemma select_run A (table : Database -> list (Z * A)) s :
  select table s = (inr (table (working (conn s))), s).
Proof. reflexivity. Qed.

(** ** The primitives *)

Lemma wpe_draw E Q s : Q (rand (rpos s)) (tick_rand s) -> wpe E draw Q s.
Proof. exact (fun H => H). Qed.

Lemma wpe_now E Q s : Q (clock (cpos s)) (tick_clock s) -> wpe E now Q s.
Proof. exact (fun H => H). Qed.

Lemma wpe_fake_text E Q s : Q (fake (fpos s)) (tick_fake s) -> wpe E fake_text Q s.
Proof. exact (fun H => H). Qed.

Lemma wpe_select A E (table : Database -> list (Z * A)) Q s :
  Q (table (working (conn s))) s -> wpe E (select table) Q s.
Proof. exact (fun H => H). Qed.

Lemma wpe_execute E stmt Q s :
  (io_error (xpos s) = true -> E OperationalError (tick_io s)) ->
  (forall e, io_error (xpos s) = false -> stmt (working (conn s)) = inl e ->
             E e (tick_io s)) ->
  (forall db', io_error (xpos s) = false -> stmt (working (conn s)) = inr db' ->
               Q tt (set_conn (mkConnection (committed (conn s)) db') (tick_io s))) ->
  wpe E (execute stmt) Q s.
Proof.
  intros Hio He Hok. unfold wpe, execute.
  destruct (io_error (xpos s)); [auto |].
  destruct (stmt (working (conn s))); auto.
Qed.

Lemma wpe_commit E Q s :
  (io_error (xpos s) = true -> E OperationalError (tick_io s)) ->
  (io_error (xpos s) = false ->
   Q tt (set_conn (connect (working (conn s))) (tick_io s))) ->
  wpe E commit Q s.
Proof.
  intros Hio Hok. unfold wpe, commit. destruct (io_error (xpos s)); auto.
Qed.

Lemma wpe_rollback E Q s :
  Q tt (set_conn (connect (committed (conn s))) s) -> wpe E rollback Q s.
Proof. exact (fun H => H). Qed.

Lemma wpe_try_except A E (body : Mon A) handler Q s :
  wpe (fun e s' => wpe E (handler e) Q s') body Q s ->
  wpe E (try_except body handler) Q s.
Proof.
  unfold wpe, try_except. destruct (body s) as [[e | a] s1]; auto.
Qed.


Lemma wpe_conj A E1 E2 (m : Mon A) Q1 Q2 s :
  wpe E1 m Q1 s -> wpe E2 m Q2 s ->
  wpe (fun e s' => E1 e s' /\ E2 e s') m (fun a s' => Q1 a s' /\ Q2 a s') s.
Proof.
  unfold wpe. destruct (m s) as [[e | a] s1]; auto.
Qed.

Lemma wpe_ext A E (m1 m2 : Mon A) Q s :
  m1 s = m2 s -> wpe E m2 Q s -> wpe E m1 Q s.
Proof.
  unfold wpe. intros ->. auto.
Qed.

#[local] Opaque wpe.

Lemma two53_pos : 0 < two53.
Proof. reflexivity. Qed.

Lemma wpe_random_random E Q s :
  (forall r, 0 <= r < two53 -> Q r (tick_rand s)) -> wpe E random_random Q s.
Proof.
  intros H. unfold random_random. apply wpe_bind, wpe_draw, wpe_ret.
  apply H, Z.mod_pos_bound, two53_pos.
Qed.

Lemma wpe_randint E a b Q s :
  (b < a -> E ValueError s) ->
  (forall x, a <= x <= b -> Q x (tick_rand s)) ->
  wpe E (randint a b) Q s.
Proof.
  intros HE HQ. unfold randint. destruct (Z.ltb_spec b a).
  - apply wpe_raise; auto.
  - apply wpe_bind, wpe_draw, wpe_ret. apply HQ.
    pose proof (Z.mod_pos_bound (rand (rpos s)) (b - a + 1)). lia.
Qed.

Lemma wpe_choice A E (seq : list A) Q s :
  (seq = [] -> E IndexError s) ->
  (forall x, In x seq -> Q x (tick_rand s)) ->
  wpe E (choice seq) Q s.
Proof.
  intros HE HQ. destruct seq as [| x tl].
  - apply wpe_raise; auto.
  - unfold choice. apply wpe_bind, wpe_draw, wpe_ret. apply HQ.
    apply nth_In.
    pose proof (Z.mod_pos_bound (rand (rpos s)) (Z.of_nat (List.length (x :: tl)))).
    cbn [List.length] in *. lia.
Qed.

Lemma bisect_In A (items : list (A * Z)) acc r total (last : A) :
  items <> [] -> In (bisect items acc r total last) (map fst items).
Proof.
  revert acc last. induction items as [| [a w] tl IH]; intros acc last Hne.
  - congruence.
  - simpl. destruct tl as [| c tl'].
    + now left.
    + destruct ((acc + w) * two53 <=? r * total).
      * right. apply IH. discriminate.
      * now left.
Qed.

Lemma wpe__weighted_choice A E (choices : list (A * Z)) Q s :
  (sum_weights choices <= 0 -> E ValueError s) ->
  (forall x, In x (map fst choices) -> Q x (tick_rand s)) ->
  wpe E (_weighted_choice choices) Q s.
Proof.
  intros HE HQ. destruct choices as [| [a w] tl].
  - apply wpe_raise. apply HE. simpl. lia.
  - unfold _weighted_choice. destruct (Z.leb_spec (sum_weights ((a, w) :: tl)) 0).
    + apply wpe_raise; auto.
    + apply wpe_bind, wpe_random_random. intros r _. apply wpe_ret.
      apply HQ, bisect_In. discriminate.
Qed.

Lemma wpe_triangular_int E low high mode Q s :
  (forall x, Q x (tick_rand s)) -> wpe E (triangular_int low high mode) Q s.
Proof. intros H. apply wpe_bind, wpe_draw, wpe_ret, H. Qed.

Lemma wpe_uniform_int E a b Q s :
  (forall x, Q x (tick_rand s)) -> wpe E (uniform_int a b) Q s.
Proof. intros H. apply wpe_bind, wpe_draw, wpe_ret, H. Qed.

Lemma choice_run A (x : A) tl s :
  choice (x :: tl) s
  = (inr (nth (Z.to_nat (rand (rpos s) mod Z.of_nat (List.length (x :: tl))))
            (x :: tl) x),
     tick_rand s).
Proof. reflexivity. Qed.

Lemma wpe_triangular_int_range E low high mode Q s :
  low <= high ->
  (forall x, low <= x <= high -> Q x (tick_rand s)) ->
  wpe E (triangular_int low high mode) Q s.
Proof.
  intros Hle H. apply wpe_bind, wpe_draw, wpe_ret. apply H.
  pose proof (Z.mod_pos_bound (rand (rpos s)) (high - low + 1)). lia.
Qed.

Lemma wpe_uniform_int_range E a b Q s :
  a <= b ->
  (forall x, a <= x <= b -> Q x (tick_rand s)) ->
  wpe E (uniform_int a b) Q s.
Proof.
  intros Hle H. apply wpe_bind, wpe_draw, wpe_ret. apply H.
  pose proof (Z.mod_pos_bound (rand (rpos s)) (b - a + 1)). lia.
Qed.


#[local] Opaque draw now fake_text random_random randint choice _weighted_choice
  triangular_int uniform_int select execute commit rollback.

Lemma same_store_refl s : same_store s s.
Proof. split; reflexivity. Qed.

Lemma same_store_trans s1 s2 s3 :
  same_store s1 s2 -> same_store s2 s3 -> same_store s1 s3.
Proof. unfold same_store. intros [? ?] [? ?]. split; congruence. Qed.

Create HintDb gen.
#[local] Hint Resolve same_store_refl : gen.
#[local] Hint Extern 1 (same_store _ _) => (split; reflexivity) : gen.

(** One step of a proof by [wpe] through a straight-line body. *)
Ltac wp_step :=
  first
    [ apply wpe_ret
    | apply wpe_bind
    | apply wpe_now
    | apply wpe_fake_text
    | apply wpe_random_random; intros ? ?
    | apply wpe_triangular_int; intros ?
    | apply wpe_uniform_int; intros ?
    | apply wpe_select ].

Ltac st_simpl :=
  unfold st_after, same_store in *;
  cbn [conn cpos xpos rpos fpos tick_rand tick_clock tick_fake tick_io set_conn] in *.

Ltac st_solve :=
  st_simpl;
  repeat match goal with
         | H : _ /\ _ |- _ => destruct H
         end;
  repeat split; try congruence; try lia.

(** ** Loops *)

Lemma wpe_repeatM_from A E (body : A -> Mon A) (Inv : nat -> A -> St -> Prop) n :
  forall j acc s,
    Inv j acc s ->
    (forall k acc s, (j <= k < j + n)%nat -> Inv k acc s ->
                     wpe E (body acc) (Inv (S k)) s) ->
    wpe E (repeatM n body acc) (Inv (j + n)%nat) s.
Proof.
  induction n as [| n IH]; intros j acc s H0 Hstep; cbn [repeatM].
  - apply wpe_ret. now rewrite Nat.add_0_r.
  - apply wpe_bind. eapply wpe_mono.
    + apply (Hstep j); [lia | exact H0].
    + auto.
    + intros acc' s' H1. cbv beta.
      replace (j + S n)%nat with (S j + n)%nat by lia.
      apply IH; [exact H1 |]. intros k acc2 s2 Hk. apply Hstep. lia.
Qed.

Lemma wpe_repeatM A E (body : A -> Mon A) (Inv : nat -> A -> St -> Prop) n acc s :
  Inv 0%nat acc s ->
  (forall k acc s, (k < n)%nat -> Inv k acc s -> wpe E (body acc) (Inv (S k)) s) ->
  wpe E (repeatM n body acc) (Inv n) s.
Proof.
  intros H0 Hstep. apply wpe_repeatM_from with (j := 0%nat) (Inv := Inv); auto.
  intros k acc' s' Hk. apply Hstep. lia.
Qed.

Lemma wpe_for_range_from A E (body : Z -> A -> Mon A) (Inv : nat -> A -> St -> Prop)
    start n :
  forall j acc s,
    Inv j acc s ->
    (forall k acc s, (j <= k < j + n)%nat -> Inv k acc s ->
                     wpe E (body (start + Z.of_nat k) acc) (Inv (S k)) s) ->
    wpe E (for_range body (start + Z.of_nat j) n acc) (Inv (j + n)%nat) s.
Proof.
  induction n as [| n IH]; intros j acc s H0 Hstep; cbn [for_range].
  - apply wpe_ret. now rewrite Nat.add_0_r.
  - apply wpe_bind. eapply wpe_mono.
    + apply (Hstep j); [lia | exact H0].
    + auto.
    + intros acc' s' H1. cbv beta.
      replace (j + S n)%nat with (S j + n)%nat by lia.
      replace (start + Z.of_nat j + 1) with (start + Z.of_nat (S j)) by lia.
      apply IH; [exact H1 |]. intros k acc2 s2 Hk. apply Hstep. lia.
Qed.

Lemma wpe_for_range A E (body : Z -> A -> Mon A) (Inv : nat -> A -> St -> Prop)
    start n acc s :
  Inv 0%nat acc s ->
  (forall k acc s, (k < n)%nat -> Inv k acc s ->
                   wpe E (body (start + Z.of_nat k) acc) (Inv (S k)) s) ->
  wpe E (for_range body start n acc) (Inv n) s.
Proof.
  intros H0 Hstep.
  replace start with (start + Z.of_nat 0) at 1 by (cbn; lia).
  apply wpe_for_range_from with (j := 0%nat) (Inv := Inv); auto.
  intros k acc' s' Hk. apply Hstep. lia.
Qed.

(** A list grown by appending satisfies, at each index, what its elements
    satisfied when they were appended. *)
Lemma nth_error_snoc A (l : list A) (x : A) i y :
  nth_error (l ++ [x]) i = Some y ->
  ((i < List.length l)%nat /\ nth_error l i = Some y)
  \/ (i = List.length l /\ y = x).
Proof.
  intros H. destruct (Nat.lt_ge_cases i (List.length l)) as [Hlt | Hge].
  - left. split; [exact Hlt |]. now rewrite nth_error_app1 in H.
  - right. rewrite nth_error_app2 in H by exact Hge.
    destruct (i - List.length l)%nat as [| k] eqn:Hk; cbn in H.
    + split; [lia | congruence].
    + destruct k; discriminate.
Qed.

(** ** Profiles *)

Lemma _generate_realistic_age_returns s :
  wpe never _generate_realistic_age
    (fun age s' => 25 <= age <= 90 /\ st_after s s' 0) s.
Proof.
  unfold _generate_realistic_age. apply wpe_bind, wpe__weighted_choice.
  - cbn. lia.
  - intros range Hin. cbn in Hin.
    repeat (destruct Hin as [<- | Hin]); try contradiction;
      (apply wpe_randint; cbn [fst snd]; [lia | intros x Hx; st_solve]).
Qed.

Lemma generate_patient_returns s :
  wpe never generate_patient
    (fun p s' => patient_ok (clock (cpos s)) p /\ st_after s s' 2) s.
Proof.
  unfold generate_patient. apply wpe_bind.
  eapply wpe_never; [apply _generate_realistic_age_returns |].
  intros age s1 [Hage Hs1]. cbv beta.
  apply wpe_bind, wpe_choice; [discriminate |]. intros gender Hgender.
  do 2 wp_step.
  apply wpe_bind, wpe_randint; [lia |]. intros reg Hreg.
  do 2 wp_step.
  apply wpe_bind.
  apply wpe_never with
    (Q := fun (_ : string) s' =>
            st_after s s' 2 /\ clock (cpos s1) = clock (cpos s)).
  { destruct (gender_eqb gender M); apply wpe_fake_text; st_solve;
      f_equal; lia. }
  intros first_name s2 [Hs2 Hclock]. cbv beta.
  do 8 wp_step.
  apply wpe_bind, wpe__weighted_choice; [cbn; lia |]. intros ins _.
  apply wpe_bind, wpe__weighted_choice; [cbn; lia |]. intros cond _.
  do 4 wp_step.
  apply wpe_bind, wpe_random_random. intros r Hr.
  apply wpe_bind.
  apply wpe_never with (Q := fun (_ : option string) s' => st_after s s' 2).
  { destruct (lt_percent r 30); repeat wp_step; st_solve. }
  intros notes s3 Hs3. cbv beta. apply wpe_ret.
  split; [| exact Hs3]. split; cbn.
  - exists age. rewrite Hclock. auto.
  - cbn in Hgender. intuition auto.
Qed.

Lemma generate_patients_returns n s :
  wpe never (generate_patients n)
    (fun ps s' =>
       List.length ps = Z.to_nat n
       /\ st_after s s' (2 * N.of_nat (Z.to_nat n))
       /\ forall i p, nth_error ps i = Some p ->
                      patient_ok (clock (cpos s + 2 * N.of_nat i)) p) s.
Proof.
  unfold generate_patients.
  eapply wpe_post;
    [ apply wpe_repeatM with
        (Inv := fun k ps s' =>
                  List.length ps = k
                  /\ st_after s s' (2 * N.of_nat k)
                  /\ forall i p, nth_error ps i = Some p ->
                                 patient_ok (clock (cpos s + 2 * N.of_nat i)) p)
    | auto ].
  - split; [reflexivity | split; [st_solve | intros [| i] p; discriminate]].
  - intros k ps s1 Hk (Hlen & Hs1 & Hall). apply wpe_bind.
    eapply wpe_never; [apply generate_patient_returns |].
    intros p s2 [Hp Hs2]. cbv beta. apply wpe_ret. split; [| split].
    + rewrite length_app. cbn. lia.
    + st_solve.
    + intros i q Hq. apply nth_error_snoc in Hq as [[_ Hq] | [-> ->]]; [eauto |].
      destruct Hs1 as [_ Hc]. rewrite Hc in Hp. now rewrite Hlen.
Qed.

(** The age column of the read side gives back the age from which the birth
    date was derived, at any instant of the day of generation or of the day
    after. *)
Lemma age_column_exact today T age :
  0 <= age <= 90 ->
  0 <= T - today <= us_per_day ->
  age_column T (date_of today - age * 365) = age.
Proof.
  intros Hage HT. unfold age_column, round_div, date_of.
  pose proof (Z.div_mod today us_per_day ltac:(discriminate)) as Hdm.
  pose proof (Z.mod_pos_bound today us_per_day ltac:(reflexivity)) as Hm.
  set (q := today / us_per_day) in *. set (r := today mod us_per_day) in *.
  unfold us_per_day, us_per_hour, us_per_minute in *.
  destruct (Z.leb_spec 0 (4 * (T - (q - age * 365) * (24 * (60 * 60000000)))));
    [| lia].
  symmetry. apply Z.div_unique with
    (r := 2 * (4 * (T - (q - age * 365) * (24 * (60 * 60000000))))
          + 1461 * (24 * (60 * 60000000))
          - 2 * (1461 * (24 * (60 * 60000000))) * age); lia.
Qed.

(** ** Schedule and outcome *)

Lemma combine_date_time dt : combine (date_of dt) (time_of dt) = dt.
Proof.
  unfold combine, date_of, time_of.
  pose proof (Z.div_mod dt us_per_day ltac:(discriminate)). lia.
Qed.

Lemma place_appointment_date_returns self s :
  wpe never (place_appointment_date self) (fun _ s' => st_after s s' 0) s.
Proof.
  unfold place_appointment_date. apply wpe_bind, wpe_triangular_int. intros d.
  apply wpe_bind.
  apply wpe_never with (Q := fun (_ : bool) s' => st_after s s' 0).
  { destruct (5 <=? _); repeat wp_step; st_solve. }
  intros shift s1 Hs1. cbv beta. apply wpe_ret. exact Hs1.
Qed.

Lemma _get_business_hours_datetime_returns date s :
  wpe never (_get_business_hours_datetime date) (fun _ s' => st_after s s' 0) s.
Proof.
  unfold _get_business_hours_datetime. apply wpe_bind, wpe_random_random.
  intros r Hr. apply wpe_bind, wpe_choice.
  { destruct (lt_percent r 70); discriminate. }
  intros hour _. apply wpe_bind, wpe_choice; [discriminate |]. intros minute _.
  apply wpe_ret. st_solve.
Qed.

Lemma price_appointment_returns base_price s :
  wpe never (price_appointment base_price) (fun _ s' => st_after s s' 0) s.
Proof.
  unfold price_appointment. apply wpe_bind, wpe_choice; [discriminate |].
  intros [|] _; repeat wp_step; st_solve.
Qed.

Lemma draw_status_returns dt s :
  wpe never (draw_status dt)
    (fun status s' => status_ok (clock (cpos s)) dt status /\ st_after s s' 1) s.
Proof.
  unfold draw_status. do 2 wp_step.
  destruct (Z.ltb_spec (clock (cpos s)) dt).
  - apply wpe_ret. split; [left; auto | st_solve].
  - apply wpe__weighted_choice; [cbn; lia |]. intros status Hin.
    split; [right; auto | st_solve].
Qed.

Lemma treatment_timestamps_returns status dt duration s :
  wpe never (treatment_timestamps status dt duration)
    (fun stamps s' =>
       stamps_ok status dt duration (fst (fst stamps)) (snd (fst stamps)) (snd stamps)
       /\ st_after s s' 0) s.
Proof.
  unfold treatment_timestamps, stamps_ok. destruct (status_eqb status Completed).
  - apply wpe_bind, wpe_randint; [lia |]. intros k1 H1.
    apply wpe_bind, wpe_randint; [lia |]. intros k2 H2.
    apply wpe_bind, wpe_randint; [lia |]. intros k3 H3.
    apply wpe_ret. split; [| st_solve]. exists k1, k2, k3. cbn. auto 10.
  - apply wpe_ret. cbn. split; [auto | st_solve].
Qed.

Lemma refund_policy_returns hours_before s :
  wpe never (refund_policy hours_before)
    (fun refund s' => refund_ok hours_before (fst refund) (snd refund)
                      /\ st_after s s' 0) s.
Proof.
  unfold refund_policy, refund_ok. destruct (Z.leb_spec 24 hours_before).
  - apply wpe_bind, wpe_choice; [discriminate |]. intros issued _.
    apply wpe_ret. cbn. split; [split; [lia | auto] | st_solve].
  - apply wpe_ret. cbn. split; [split; [auto | lia] | st_solve].
Qed.

Lemma _generate_cancellation_returns appointment_id dt s :
  wpe never (_generate_cancellation appointment_id dt)
    (fun c s' => cancellation_ok appointment_id dt c /\ st_after s s' 0) s.
Proof.
  unfold _generate_cancellation.
  apply wpe_bind, wpe__weighted_choice; [cbn; lia |]. intros max_hours Hmax.
  assert (1 <= max_hours <= 168) as Hbound.
  { cbn in Hmax. repeat (destruct Hmax as [<- | Hmax]); try contradiction; lia. }
  apply wpe_bind, wpe_randint; [lia |]. intros hours Hhours.
  apply wpe_bind, wpe__weighted_choice; [cbn; lia |]. intros category _.
  apply wpe_bind, wpe_choice; [destruct category; discriminate |]. intros detail _.
  apply wpe_bind.
  eapply wpe_never; [apply refund_policy_returns |].
  intros refund s1 [Hrefund Hs1]. cbv beta.
  apply wpe_bind, wpe__weighted_choice; [cbn; lia |]. intros by_ _.
  apply wpe_bind, wpe_choice; [discriminate |]. intros rescheduled _.
  apply wpe_ret. split; [| st_solve].
  unfold cancellation_ok. cbn.
  split; [reflexivity | split; [lia | split; [reflexivity | exact Hrefund]]].
Qed.

Lemma wpe_lookup_treatment E rows treatment_id Q s :
  (treatment_info rows treatment_id = None -> E KeyError s) ->
  (forall row, In row rows -> fst row = treatment_id -> Q (snd row) s) ->
  wpe E (lookup_treatment rows treatment_id) Q s.
Proof.
  intros HE HQ. unfold lookup_treatment.
  destruct (treatment_info rows treatment_id) as [row |] eqn:Hfind.
  - apply wpe_ret. unfold treatment_info in Hfind.
    apply find_some in Hfind as [Hin Heq].
    apply HQ; [now apply in_rev | lia].
  - apply wpe_raise. auto.
Qed.

Lemma status_eqb_eq a b : status_eqb a b = true <-> a = b.
Proof. destruct a, b; cbn; split; congruence. Qed.

Lemma generate_appointment_wpe E self rows pids thids trids id apps cans Q s :
  (forall e s', appointment_inputs_bad rows pids thids trids e ->
                same_store s s' -> E e s') ->
  (forall a cans' s',
      appointment_ok rows pids thids trids (clock (cpos s)) id a ->
      cancellation_step a cans cans' ->
      st_after s s' 1 ->
      Q (apps ++ [a], cans') s') ->
  wpe E (generate_appointment self rows pids thids trids id (apps, cans)) Q s.
Proof.
  intros HE HQ. unfold generate_appointment.
  apply wpe_bind, wpe_choice;
    [intros Hnil; apply HE; [left; auto | auto with gen] |].
  intros pid Hpid.
  apply wpe_bind, wpe_choice;
    [intros Hnil; apply HE; [left; auto | auto with gen] |].
  intros thid Hthid.
  apply wpe_bind, wpe_choice;
    [intros Hnil; apply HE; [left; auto | auto with gen] |].
  intros trid Htrid.
  apply wpe_bind. eapply wpe_never; [apply place_appointment_date_returns |].
  intros date s1 Hs1. cbv beta.
  apply wpe_bind. eapply wpe_never; [apply _get_business_hours_datetime_returns |].
  intros dt s2 Hs2. cbv beta.
  apply wpe_bind, wpe_randint; [lia |]. intros lead Hlead.
  apply wpe_bind, wpe_lookup_treatment;
    [intros Hnone; apply HE; [right; eauto | st_solve] |].
  intros row Hrow Hfst.
  apply wpe_bind. eapply wpe_never; [apply price_appointment_returns |].
  intros [[insurance_covered copay_amount] final_price] s3 Hs3. cbv beta iota.
  apply wpe_bind. eapply wpe_never; [apply draw_status_returns |].
  intros status s4 [Hstatus Hs4]. cbv beta.
  assert (cpos s3 = cpos s) as Hc by st_solve. rewrite Hc in Hstatus.
  apply wpe_bind, wpe__weighted_choice; [cbn; lia |]. intros method _.
  apply wpe_bind, wpe_random_random. intros r Hr.
  apply wpe_bind.
  apply wpe_never with (Q := fun (_ : option string) s' => st_after s s' 1).
  { destruct (lt_percent r 20); repeat wp_step; st_solve. }
  intros notes s5 Hs5. cbv beta.
  apply wpe_bind, wpe_choice; [discriminate |]. intros reminder _.
  apply wpe_bind. eapply wpe_never; [apply treatment_timestamps_returns |].
  intros [[check_in treatment_start] treatment_end] s6 [Hstamps Hs6].
  cbv beta iota. cbn [fst snd] in Hstamps.
  set (a := Appointment.mk id pid thid trid (date_of dt) (time_of dt)
              (Treatment.duration_minutes (snd row)) status
              (dt - timedelta_days lead) method final_price insurance_covered
              copay_amount notes reminder check_in treatment_start treatment_end).
  assert (appointment_ok rows pids thids trids (clock (cpos s)) id a) as Hok.
  { unfold appointment_ok, Appointment.datetime. cbn.
    rewrite combine_date_time. repeat split; auto.
    exists row. auto. }
  destruct (status_eqb status Cancelled) eqn:Hcancelled.
  - apply status_eqb_eq in Hcancelled.
    apply wpe_bind. eapply wpe_never; [apply _generate_cancellation_returns |].
    intros c s7 [Hcan Hs7]. cbv beta. apply wpe_ret.
    apply HQ; [exact Hok | | st_solve].
    left. split; [exact Hcancelled |]. exists c. split; [reflexivity |].
    unfold Appointment.datetime. cbn. now rewrite combine_date_time.
  - apply wpe_ret. apply HQ; [exact Hok | | st_solve].
    right. split; [| reflexivity]. cbn. intros Heq.
    apply status_eqb_eq in Heq. congruence.
Qed.

Lemma cancellations_match_snoc apps cans a cans' :
  cancellations_match apps cans ->
  cancellation_step a cans cans' ->
  cancellations_match (apps ++ [a]) cans'.
Proof.
  unfold cancellations_match, cancellation_step, is_cancelled.
  intros Hm [[Hst (c & -> & Hc)] | [Hst ->]]; rewrite filter_app; cbn.
  - rewrite Hst. cbn. apply Forall2_app; [exact Hm | constructor; auto].
  - destruct (status_eqb (Appointment.status a) Cancelled) eqn:Heq.
    + apply status_eqb_eq in Heq. contradiction.
    + now rewrite app_nil_r.
Qed.

Lemma generate_appointments_wpe E self pids thids trids n Q s :
  (forall e s',
      appointment_inputs_bad (treatments_table (working (conn s))) pids thids trids e ->
      same_store s s' -> E e s') ->
  (forall apps cans s',
      appointments_ok s (treatments_table (working (conn s))) pids thids trids
        (Z.to_nat n) apps cans s' ->
      Q (apps, cans) s') ->
  wpe E (generate_appointments self pids thids trids n) Q s.
Proof.
  intros HE HQ. unfold generate_appointments. apply wpe_bind, wpe_select.
  set (rows := treatments_table (working (conn s))) in *.
  eapply wpe_post;
    [ apply wpe_for_range with
        (Inv := fun k acc s' =>
                  appointments_ok s rows pids thids trids k (fst acc) (snd acc) s')
    | intros [apps cans] s'; apply HQ ].
  - split; [reflexivity | split; [st_solve | split]].
    + intros [| i] a; discriminate.
    + constructor.
  - intros k [apps cans] s1 Hk (Hlen & Hs1 & Hall & Hm). cbn [fst snd] in *.
    apply generate_appointment_wpe.
    + intros e s2 He Hs2. apply HE; [exact He |].
      eapply same_store_trans; [apply Hs1 | exact Hs2].
    + intros a cans' s2 Ha Hstep Hs2. cbn [fst snd].
      split; [| split; [| split]].
      * rewrite length_app. cbn. lia.
      * st_solve.
      * intros i b Hb. apply nth_error_snoc in Hb as [[_ Hb] | [-> ->]]; [eauto |].
        destruct Hs1 as [_ Hc]. rewrite Hc in Ha. now rewrite Hlen.
      * eapply cancellations_match_snoc; eauto.
Qed.

Lemma generate_appointments_inr self pids thids trids n s apps cans s' :
  generate_appointments self pids thids trids n s = (inr (apps, cans), s') ->
  appointments_ok s (treatments_table (working (conn s))) pids thids trids
    (Z.to_nat n) apps cans s'.
Proof.
  intros Hrun.
  refine (@wpe_inr _ (fun _ _ => True) _
            (fun r s' =>
               appointments_ok s (treatments_table (working (conn s)))
                 pids thids trids (Z.to_nat n) (fst r) (snd r) s')
            s (apps, cans) s' _ Hrun).
  apply generate_appointments_wpe; auto.
Qed.

(** On non-empty lists of keys, each treatment key having a row,
    [generate_appointments] returns. *)
Lemma generate_appointments_returns self pids thids trids n s :
  pids <> [] -> thids <> [] -> trids <> [] ->
  (forall id, In id trids ->
              treatment_info (treatments_table (working (conn s))) id <> None) ->
  exists apps cans s',
    generate_appointments self pids thids trids n s = (inr (apps, cans), s')
    /\ appointments_ok s (treatments_table (working (conn s))) pids thids trids
         (Z.to_nat n) apps cans s'.
Proof.
  intros Hpids Hthids Htrids Hrows.
  assert (wpe never (generate_appointments self pids thids trids n)
            (fun r s' =>
               appointments_ok s (treatments_table (working (conn s)))
                 pids thids trids (Z.to_nat n) (fst r) (snd r) s') s) as Hw.
  { apply generate_appointments_wpe; [| auto].
    intros e s' [[_ [H | [H | H]]] | [_ (id & Hin & Hnone)]] _;
      try contradiction. exact (Hrows id Hin Hnone). }
  apply wpe_returns in Hw. destruct Hw as ([apps cans] & s' & Hrun & Hok).
  exists apps, cans, s'. split; [exact Hrun | exact Hok].
Qed.

(** ** Workflow tasks *)

Lemma task_target_wpe E task_type appointment_ids patient_ids Q s :
  (appointment_ids = [] \/ patient_ids = [] ->
   forall s', same_store s s' -> E IndexError s') ->
  (forall target s', st_after s s' 0 -> Q target s') ->
  wpe E (task_target task_type appointment_ids patient_ids) Q s.
Proof.
  intros HE HQ. unfold task_target. destruct (appointment_specific task_type).
  - apply wpe_bind, wpe_choice; [intros Hnil; apply HE; auto with gen |].
    intros a _. apply wpe_ret, HQ. st_solve.
  - apply wpe_bind, wpe_random_random. intros r Hr. apply wpe_bind.
    apply wpe_post with (Q := fun (_ : option Z) s' => st_after s s' 0).
    { destruct (lt_percent r 70).
      - apply wpe_bind, wpe_choice; [intros Hnil; apply HE; [auto | st_solve] |].
        intros a _. apply wpe_ret. st_solve.
      - apply wpe_ret. st_solve. }
    intros a s1 Hs1. cbv beta.
    apply wpe_bind, wpe_choice; [intros Hnil; apply HE; [auto | st_solve] |].
    intros p _. apply wpe_ret, HQ. st_solve.
Qed.

Lemma task_status_returns created_date estimated_duration s :
  wpe never (task_status created_date estimated_duration)
    (fun outcome s' =>
       task_outcome_ok (clock (cpos s)) created_date estimated_duration
         (fst (fst outcome)) (snd (fst outcome)) (snd outcome)
       /\ st_after s s' 1) s.
Proof.
  unfold task_status, task_outcome_ok. do 2 wp_step.
  destruct (Z.ltb_spec created_date (clock (cpos s) - timedelta_days 1)).
  - apply wpe_bind, wpe_choice; [discriminate |]. intros status Hin.
    cbn in Hin. destruct Hin as [<- | [<- | []]].
    + apply wpe_bind, wpe_randint; [lia |]. intros h Hh.
      apply wpe_bind, wpe_randint; [lia |]. intros j Hj.
      apply wpe_ret. cbn. split; [| st_solve].
      left. split; [assumption |]. left. split; [reflexivity |].
      exists h, j. auto.
    + apply wpe_ret. cbn. split; [| st_solve].
      left. split; [assumption |]. right. auto.
  - apply wpe_bind, wpe_choice; [discriminate |]. intros status Hin.
    apply wpe_ret. cbn. split; [| st_solve].
    right. split; [assumption |]. cbn in Hin. intuition auto.
Qed.

Lemma generate_reception_task_wpe E appointment_ids patient_ids Q s :
  (appointment_ids = [] \/ patient_ids = [] ->
   forall s', same_store s s' -> E IndexError s') ->
  (forall t s',
      task_ok (clock (cpos s)) (clock (cpos s + 1)) t -> st_after s s' 2 -> Q t s') ->
  wpe E (generate_reception_task appointment_ids patient_ids) Q s.
Proof.
  intros HE HQ. unfold generate_reception_task.
  apply wpe_bind, wpe_choice; [discriminate |]. intros task_type _.
  apply wpe_bind, task_target_wpe;
    [intros Hnil s' Hs'; apply HE; [exact Hnil | st_solve] |].
  intros [appointment_id patient_id] s1 Hs1. cbv iota beta.
  do 2 wp_step.
  apply wpe_bind, wpe_randint; [lia |]. intros d Hd.
  apply wpe_bind. eapply wpe_never; [apply task_status_returns |].
  intros [[status completed_date] actual_duration] s2 [Houtcome Hs2].
  cbv beta iota. cbn [fst snd] in Houtcome.
  apply wpe_bind, wpe_choice; [discriminate |]. intros assigned _.
  apply wpe_bind, wpe_random_random. intros r Hr.
  apply wpe_bind.
  apply wpe_never with (Q := fun (_ : option string) s' => st_after s s' 2).
  { destruct (lt_percent r 30); repeat wp_step; st_solve. }
  intros notes s3 Hs3. cbv beta. apply wpe_ret. apply HQ; [| exact Hs3].
  assert (cpos s1 = cpos s) as Hc by st_solve.
  cbn [cpos tick_rand tick_clock] in Houtcome. rewrite Hc in Houtcome.
  unfold task_ok. cbn [ReceptionTask.created_at ReceptionTask.due_date
    ReceptionTask.priority ReceptionTask.estimated_duration_minutes
    ReceptionTask.task_type ReceptionTask.status ReceptionTask.completed_date
    ReceptionTask.actual_duration_minutes cpos tick_rand tick_clock].
  rewrite Hc. replace (cpos s + 1)%N with (N.succ (cpos s)) by lia.
  split; [exists d; auto | auto].
Qed.

Lemma generate_reception_tasks_wpe E appointment_ids patient_ids Q s :
  (appointment_ids = [] \/ patient_ids = [] ->
   forall s', same_store s s' -> E IndexError s') ->
  (forall tasks s', tasks_ok s tasks s' -> Q tasks s') ->
  wpe E (generate_reception_tasks appointment_ids patient_ids) Q s.
Proof.
  intros HE HQ. unfold generate_reception_tasks.
  eapply wpe_post;
    [ apply wpe_repeatM with
        (Inv := fun k tasks s' =>
                  List.length tasks = k
                  /\ st_after s s' (2 * N.of_nat k)
                  /\ forall i t, nth_error tasks i = Some t ->
                                 task_ok (clock (cpos s + 2 * N.of_nat i))
                                   (clock (cpos s + 2 * N.of_nat i + 1)) t)
    | intros tasks s' (Hlen & Hs' & Hall); apply HQ;
      change (2 * N.of_nat 200)%N with 400%N in Hs';
      split; [exact Hlen | split; [exact Hs' | exact Hall]] ].
  - split; [reflexivity | split; [st_solve | intros [| i] t; discriminate]].
  - intros k tasks s1 Hk (Hlen & Hs1 & Hall).
    apply wpe_bind, generate_reception_task_wpe.
    + intros Hnil s2 Hs2. apply HE; [exact Hnil |].
      eapply same_store_trans; [apply Hs1 | exact Hs2].
    + intros t s2 Ht Hs2. apply wpe_ret. split; [| split].
      * rewrite length_app. cbn. lia.
      * st_solve.
      * intros i u Hu. apply nth_error_snoc in Hu as [[_ Hu] | [-> ->]]; [eauto |].
        destruct Hs1 as [_ Hc]. rewrite Hc in Ht. now rewrite Hlen.
Qed.

Lemma generate_reception_tasks_inr appointment_ids patient_ids s tasks s' :
  generate_reception_tasks appointment_ids patient_ids s = (inr tasks, s') ->
  tasks_ok s tasks s'.
Proof.
  intros Hrun.
  refine (@wpe_inr _ (fun _ _ => True) _ (fun tasks s' => tasks_ok s tasks s')
            s tasks s' _ Hrun).
  apply generate_reception_tasks_wpe; auto.
Qed.

(** On non-empty lists of keys [generate_reception_tasks] returns. *)
Lemma generate_reception_tasks_returns appointment_ids patient_ids s :
  appointment_ids <> [] -> patient_ids <> [] ->
  exists tasks s',
    generate_reception_tasks appointment_ids patient_ids s = (inr tasks, s')
    /\ tasks_ok s tasks s'.
Proof.
  intros Haids Hpids.
  assert (wpe never (generate_reception_tasks appointment_ids patient_ids)
            (fun tasks s' => tasks_ok s tasks s') s) as Hw.
  { apply generate_reception_tasks_wpe; [| auto].
    intros [H | H]; contradiction. }
  apply wpe_returns in Hw. exact Hw.
Qed.

(** ** Persistence *)

Lemma apply_statements_app l1 l2 db db1 db2 :
  apply_statements l1 db = inr db1 ->
  apply_statements l2 db1 = inr db2 ->
  apply_statements (l1 ++ l2) db = inr db2.
Proof.
  revert db. induction l1 as [| stmt tl IH]; intros db H1 H2; cbn in *.
  - congruence.
  - destruct (stmt db) as [e | db']; [discriminate | auto].
Qed.

(** While a batch is being written nothing becomes durable, whether the
    loop finishes or raises. *)
Lemma for_each_execute_wpe A (f : A -> Database -> exn + Database) xs db0 :
  forall s,
    committed (conn s) = db0 ->
    wpe (fun _ s' => committed (conn s') = db0)
      (for_each (fun x => execute (f x)) xs)
      (fun _ s' =>
         committed (conn s') = db0
         /\ apply_statements (map f xs) (working (conn s)) = inr (working (conn s')))
      s.
Proof.
  induction xs as [| x tl IH]; intros s Hs; cbn [for_each map apply_statements].
  - apply wpe_ret. auto.
  - apply wpe_bind, wpe_execute; try (intros; exact Hs).
    intros db' _ Hstmt. rewrite Hstmt.
    eapply wpe_post; [apply IH; exact Hs |].
    cbv beta. intros _ s' [Hc Hw]. split; [exact Hc | exact Hw].
Qed.

(** A call of [insert_data_to_database] either makes its whole batch
    durable, or raises and leaves the store as it was durably before the
    call, with no transaction open. *)
Lemma insert_data_to_database_wpe ps ths apps cans tasks s :
  wpe (fun _ s' => conn s' = connect (committed (conn s)))
    (insert_data_to_database ps ths apps cans tasks)
    (fun _ s' =>
       exists db', apply_statements (batch_statements ps ths apps cans tasks)
                     (working (conn s)) = inr db'
                   /\ conn s' = connect db')
    s.
Proof.
  unfold insert_data_to_database. apply wpe_try_except.
  set (db0 := committed (conn s)).
  assert (forall e s', committed (conn s') = db0 ->
            wpe (fun _ s'' => conn s'' = connect db0)
              (rollback ;;; raise e)
              (fun (_ : unit) s'' =>
                 exists db', apply_statements (batch_statements ps ths apps cans tasks)
                               (working (conn s)) = inr db'
                             /\ conn s'' = connect db') s') as Hhandler.
  { intros e s' Hs'. apply wpe_bind, wpe_rollback, wpe_raise. cbn. now rewrite Hs'. }
  apply wpe_bind.
  eapply wpe_mono; [apply for_each_execute_wpe with (db0 := db0); reflexivity | |].
  { intros e s' Hs'. apply Hhandler, Hs'. }
  intros _ s1 [Hc1 Hw1]. cbv beta. apply wpe_bind.
  eapply wpe_mono; [apply for_each_execute_wpe with (db0 := db0); exact Hc1 | |].
  { intros e s' Hs'. apply Hhandler, Hs'. }
  intros _ s2 [Hc2 Hw2]. cbv beta. apply wpe_bind.
  eapply wpe_mono; [apply for_each_execute_wpe with (db0 := db0); exact Hc2 | |].
  { intros e s' Hs'. apply Hhandler, Hs'. }
  intros _ s3 [Hc3 Hw3]. cbv beta. apply wpe_bind.
  eapply wpe_mono; [apply for_each_execute_wpe with (db0 := db0); exact Hc3 | |].
  { intros e s' Hs'. apply Hhandler, Hs'. }
  intros _ s4 [Hc4 Hw4]. cbv beta. apply wpe_bind.
  eapply wpe_mono; [apply for_each_execute_wpe with (db0 := db0); exact Hc4 | |].
  { intros e s' Hs'. apply Hhandler, Hs'. }
  intros _ s5 [Hc5 Hw5]. cbv beta.
  apply wpe_commit.
  - intros _. apply Hhandler. exact Hc5.
  - intros _. exists (working (conn s5)). split; [| reflexivity].
    unfold batch_statements.
    repeat (eapply apply_statements_app; [eassumption |]). exact Hw5.
Qed.

Lemma generate_therapist_returns i s :
  wpe never (generate_therapist i) (fun _ s' => same_store s s') s.
Proof.
  unfold generate_therapist.
  destruct (i <? 4); [| destruct (i =? 4)];
    (apply wpe_bind, wpe_randint; [lia |]; intros hire _;
     do 10 wp_step;
     apply wpe_bind, wpe_randint; [lia |]; intros license _;
     repeat wp_step; st_solve).
Qed.

Lemma generate_therapists_returns n s :
  wpe never (generate_therapists n)
    (fun ths s' => List.length ths = Z.to_nat n /\ same_store s s') s.
Proof.
  unfold generate_therapists.
  apply wpe_for_range with
    (Inv := fun k ths s' => List.length ths = k /\ same_store s s').
  - split; [reflexivity | apply same_store_refl].
  - intros k ths s1 Hk [Hlen Hs1]. apply wpe_bind.
    eapply wpe_never; [apply generate_therapist_returns |].
    intros t s2 Hs2. cbv beta. apply wpe_ret. split.
    + rewrite length_app. cbn. lia.
    + eapply same_store_trans; eauto.
Qed.

Lemma _print_summary_statistics_wpe s :
  wpe (fun _ s' => s' = s) _print_summary_statistics (fun _ s' => s' = s) s.
Proof.
  unfold _print_summary_statistics. apply wpe_bind, wpe_select.
  destruct (_ =? 0); [now apply wpe_raise |].
  destruct (existsb _ _); [now apply wpe_ret | now apply wpe_raise].
Qed.

Lemma generate_all_data_wpe self db s :
  conn s = connect db ->
  wpe (fun e s' => run_outcome db (inl e) (conn s'))
    (generate_all_data self)
    (fun _ s' => run_outcome db (inr tt) (conn s')) s.
Proof.
  intros Hs. unfold generate_all_data.
  apply wpe_bind. eapply wpe_never; [apply generate_patients_returns |].
  intros ps s1 (Hps & Hs1 & _). cbv beta.
  apply wpe_bind. eapply wpe_never; [apply generate_therapists_returns |].
  intros ths s2 (Hths & Hs2). cbv beta.
  assert (conn s2 = connect db) as Hc2 by st_solve.
  apply wpe_bind. eapply wpe_mono; [apply insert_data_to_database_wpe | |].
  { intros e s' ->. rewrite Hc2. constructor. }
  intros _ s3 (db1 & Hdb1 & Hc3). cbv beta.
  rewrite Hc2 in Hdb1. cbn [working connect] in Hdb1.
  assert (first_batch_stored db db1) as Hfirst.
  { exists ps, ths. auto. }
  do 6 wp_step.
  apply wpe_bind, generate_appointments_wpe.
  { intros e s' _ [Hc _]. rewrite Hc, Hc3. now constructor. }
  intros apps cans s4 (Happs & Hs4 & _). cbv iota beta.
  do 2 wp_step.
  apply wpe_bind, generate_reception_tasks_wpe.
  { intros _ s' [Hc _]. rewrite Hc. destruct Hs4 as [[Hc4 _] _].
    rewrite Hc4, Hc3. now constructor. }
  intros tasks s5 (Htasks & Hs5 & _).
  assert (conn s5 = connect db1) as Hc5 by st_solve.
  apply wpe_bind. eapply wpe_mono; [apply insert_data_to_database_wpe | |].
  { intros e s' ->. rewrite Hc5. now constructor. }
  intros _ s6 (db2 & Hdb2 & Hc6). cbv beta.
  rewrite Hc5 in Hdb2. cbn [working connect] in Hdb2.
  assert (second_batch_stored db1 db2) as Hsecond.
  { exists apps, cans, tasks. auto. }
  eapply wpe_mono; [apply _print_summary_statistics_wpe | |].
  - intros e s' ->. rewrite Hc6. econstructor 3; eauto.
  - intros _ s' ->. rewrite Hc6. econstructor 3; eauto.
Qed.

(** ** An empty catalog *)

(** With no treatment key to choose from, or no treatment row to look the
    chosen key up in, a pass of the loop of [generate_appointments] raises
    before it reaches [appointments.append]. *)
Lemma generate_appointment_fails self rows pids thids trids id acc s :
  trids = [] \/ rows = [] ->
  wpe (fun e _ => e = IndexError \/ e = KeyError)
    (generate_appointment self rows pids thids trids id acc)
    (fun _ _ => False) s.
Proof.
  intros Hempty. unfold generate_appointment. destruct acc as [apps cans].
  apply wpe_bind, wpe_choice; [auto |]. intros pid _.
  apply wpe_bind, wpe_choice; [auto |]. intros thid _.
  apply wpe_bind, wpe_choice; [auto |]. intros trid Htrid.
  destruct Hempty as [-> | ->]; [contradiction |].
  apply wpe_bind. eapply wpe_never; [apply place_appointment_date_returns |].
  intros date s1 _. cbv beta.
  apply wpe_bind. eapply wpe_never; [apply _get_business_hours_datetime_returns |].
  intros dt s2 _. cbv beta.
  apply wpe_bind, wpe_randint; [lia |]. intros lead _.
  apply wpe_bind, wpe_lookup_treatment; [auto |]. intros row [].
Qed.

(** ** Lists of records *)

Lemma Forall2_map_eq A B C (R : A -> B -> Prop) (f : B -> C) (g : A -> C) l1 l2 :
  Forall2 R l1 l2 -> (forall a b, R a b -> f b = g a) -> map f l2 = map g l1.
Proof.
  intros H HR. induction H as [| a b l1 l2 Hab _ IH]; cbn.
  - reflexivity.
  - now rewrite IH, (HR a b Hab).
Qed.

Lemma Forall2_In_right A B (R : A -> B -> Prop) l1 l2 b :
  Forall2 R l1 l2 -> In b l2 -> exists a, In a l1 /\ R a b.
Proof.
  intros H. induction H as [| a b' l1 l2 Hab _ IH]; cbn.
  - intros [].
  - intros [<- | Hin]; [eauto |]. destruct (IH Hin) as (a' & ? & ?). eauto.
Qed.

Lemma count_absent (l : list Z) x :
  ~ In x l -> List.length (filter (fun y => y =? x) l) = 0%nat.
Proof.
  induction l as [| y tl IH]; cbn; [reflexivity |]. intros Hnot.
  destruct (Z.eqb_spec y x); [tauto | apply IH; tauto].
Qed.

(** Among records with pairwise distinct keys, the key of a record occurs
    once among the keys of the selected records if the record is selected,
    and not at all otherwise. *)
Lemma count_key_selected A (key : A -> Z) (sel : A -> bool) (l : list A) a :
  NoDup (map key l) -> In a l ->
  List.length (filter (fun y => y =? key a) (map key (filter sel l)))
  = if sel a then 1%nat else 0%nat.
Proof.
  induction l as [| b tl IH]; cbn [map filter]; [intros _ [] |].
  intros Hnd Hin. apply NoDup_cons_iff in Hnd as [Hfresh Hnd].
  assert (forall x, ~ In x (map key tl) -> ~ In x (map key (filter sel tl))) as Hsub.
  { intros x Hx Hin'. apply Hx. apply in_map_iff in Hin' as (c & <- & Hc).
    apply in_map, (proj1 (filter_In sel c tl) Hc). }
  destruct Hin as [-> | Hin].
  - destruct (sel a); cbn [map filter].
    + rewrite Z.eqb_refl. cbn [List.length]. now rewrite count_absent by auto.
    + now apply count_absent, Hsub.
  - assert (key b <> key a) as Hne.
    { intros Heq. apply Hfresh. rewrite Heq. now apply in_map. }
    destruct (sel b); cbn [map filter]; [| now apply IH].
    destruct (Z.eqb_spec (key b) (key a)); [contradiction | now apply IH].
Qed.

Lemma length_filter_map A B (f : A -> B) (p : B -> bool) (l : list A) :
  List.length (filter (fun x => p (f x)) l) = List.length (filter p (map f l)).
Proof.
  induction l as [| x tl IH]; cbn; [reflexivity |].
  destruct (p (f x)); cbn; now rewrite IH.
Qed.

Lemma appointment_ids_NoDup s rows pids thids trids n apps cans s' :
  appointments_ok s rows pids thids trids n apps cans s' ->
  NoDup (map Appointment.appointment_id apps).
Proof.
  intros (_ & _ & Hall & _). apply NoDup_nth_error. intros i j Hi Heq.
  rewrite length_map in Hi. rewrite !nth_error_map in Heq.
  destruct (nth_error apps i) as [a |] eqn:Ha;
    [| apply nth_error_None in Ha; lia].
  destruct (nth_error apps j) as [b |] eqn:Hb; [| discriminate].
  cbn in Heq. injection Heq as Heq.
  destruct (Hall i a Ha) as [Hida _]. destruct (Hall j b Hb) as [Hidb _]. lia.
Qed.

Lemma refund_policy_coin_flip hours_before s :
  24 <= hours_before ->
  refund_policy hours_before s
  = (inr (let refund_issued := rand (rpos s) mod 2 =? 0 in
          (refund_issued, if refund_issued then 2500 else 0)),
     tick_rand s).
Proof.
  intros H. unfold refund_policy. destruct (Z.leb_spec 24 hours_before); [| lia].
  erewrite bind_inr by apply choice_run. unfold ret. cbn [List.length].
  pose proof (Z.mod_pos_bound (rand (rpos s)) 2 ltac:(lia)) as Hb.
  change (Z.of_nat 2) with 2.
  destruct (Z.eqb_spec (rand (rpos s) mod 2) 0) as [-> | Hne].
  - reflexivity.
  - replace (rand (rpos s) mod 2) with 1 by lia. reflexivity.
Qed.

(** * Properties of the generator *)

(** C2. For every appointment returned by [generate_appointments], the
    clock reading taken in its pass of the loop (the i-th reading after
    entry for the appointment of index i) decides the status: when the slot
    of the appointment is strictly later than the reading the status is
    Scheduled; the weighted draw over Completed, Cancelled, No-show and
    Scheduled is made only when the slot is at or before the reading.  The
    same holds against any later instant [T], such as the end of the
    run. *)
Theorem future_appointments_are_scheduled
    self pids thids trids n s apps cans s' :
  generate_appointments self pids thids trids n s = (inr (apps, cans), s') ->
  forall i a,
    nth_error apps i = Some a ->
    let now_ := clock (cpos s + N.of_nat i) in
    ((now_ < Appointment.datetime a /\ Appointment.status a = Scheduled)
     \/ (Appointment.datetime a <= now_
         /\ In (Appointment.status a) [Completed; Cancelled; NoShow; Scheduled]))
    /\ (now_ < Appointment.datetime a -> Appointment.status a = Scheduled)
    /\ (forall T, now_ <= T -> T < Appointment.datetime a ->
                  Appointment.status a = Scheduled).
Proof.
  intros Hrun i a Ha now_.
  apply generate_appointments_inr in Hrun as (_ & _ & Hall & _).
  destruct (Hall i a Ha) as (_ & _ & _ & _ & _ & Hstatus & _).
  fold now_ in Hstatus. unfold status_ok in Hstatus. cbn [map fst status_weights] in Hstatus.
  split; [exact Hstatus |].
  destruct Hstatus as [[Hlt Hst] | [Hle _]]; split; intros; auto; lia.
Qed.

(** C3. The cancellations returned by [generate_appointments] are in 1:1
    correspondence with the returned appointments whose status is
    Cancelled: the appointment keys are pairwise distinct; the keys the
    cancellations refer to are, in order, the keys of the cancelled
    appointments; so a cancelled appointment is referred to by exactly one
    cancellation, any other appointment by none, and every cancellation
    refers to an appointment whose status is Cancelled. *)
Theorem cancellations_one_to_one
    self pids thids trids n s apps cans s' :
  generate_appointments self pids thids trids n s = (inr (apps, cans), s') ->
  NoDup (map Appointment.appointment_id apps)
  /\ map Cancellation.appointment_id cans
     = map Appointment.appointment_id (filter is_cancelled apps)
  /\ (forall a, In a apps ->
        List.length
          (filter (fun c => Cancellation.appointment_id c =? Appointment.appointment_id a)
             cans)
        = if status_eqb (Appointment.status a) Cancelled then 1%nat else 0%nat)
  /\ (forall c, In c cans ->
        exists a, In a apps
                  /\ Appointment.appointment_id a = Cancellation.appointment_id c
                  /\ Appointment.status a = Cancelled).
Proof.
  intros Hrun. apply generate_appointments_inr in Hrun as Hok.
  assert (NoDup (map Appointment.appointment_id apps)) as Hnd
    by (eapply appointment_ids_NoDup; exact Hok).
  destruct Hok as (_ & _ & _ & Hmatch).
  assert (map Cancellation.appointment_id cans
          = map Appointment.appointment_id (filter is_cancelled apps)) as Hkeys.
  { eapply Forall2_map_eq; [exact Hmatch |]. intros a c Hc. apply Hc. }
  split; [exact Hnd | split; [exact Hkeys | split]].
  - intros a Ha.
    rewrite (length_filter_map Cancellation.appointment_id
               (fun y => y =? Appointment.appointment_id a)).
    rewrite Hkeys. apply count_key_selected; assumption.
  - intros c Hc.
    destruct (@Forall2_In_right _ _ _ _ _ c Hmatch Hc) as (a & Ha & Hac).
    apply filter_In in Ha as [Ha Hsel]. exists a.
    split; [exact Ha | split; [symmetry; apply Hac | now apply status_eqb_eq]].
Qed.



Lemma cancellation_of_cancelled_appointment
    self pids thids trids n s apps cans s' c :
  generate_appointments self pids thids trids n s = (inr (apps, cans), s') ->
  In c cans ->
  exists a, In a apps /\ Appointment.status a = Cancelled
            /\ cancellation_ok (Appointment.appointment_id a) (Appointment.datetime a) c.
Proof.
  intros Hrun Hc.
  apply generate_appointments_inr in Hrun as (_ & _ & _ & Hmatch).
  destruct (@Forall2_In_right _ _ _ _ _ c Hmatch Hc) as (a & Ha & Hac).
  apply filter_In in Ha as [Ha Hsel]. exists a.
  split; [exact Ha | split; [now apply status_eqb_eq | exact Hac]].
Qed.

(** C5. For every cancellation returned by [generate_appointments]: with
    less than 24 hours of notice no refund is issued and the amount is 0;
    with 24 hours or more the amount is 25.00 when a refund is issued and
    0 otherwise; so a refund is issued, and an amount paid back, only with
    24 hours of notice or more.  In that case the flag is a coin flip: it
    is decided by the parity of the next draw of the random stream. *)
Theorem refund_only_with_a_day_of_notice
    self pids thids trids n s apps cans s' :
  generate_appointments self pids thids trids n s = (inr (apps, cans), s') ->
  (forall c,
      In c cans ->
      let hours_before := Cancellation.hours_before_appointment c in
      (hours_before < 24 ->
       Cancellation.refund_issued c = false /\ Cancellation.refund_amount c = 0)
      /\ (24 <= hours_before ->
          Cancellation.refund_amount c
          = if Cancellation.refund_issued c then 2500 else 0)
      /\ (Cancellation.refund_issued c = true -> 24 <= hours_before)
      /\ (Cancellation.refund_amount c <> 0 -> 24 <= hours_before))
  /\ (forall hours_before st,
         24 <= hours_before ->
         refund_policy hours_before st
         = (inr (let refund_issued := rand (rpos st) mod 2 =? 0 in
                 (refund_issued, if refund_issued then 2500 else 0)),
            tick_rand st)).
Proof.
  intros Hrun. split; [| intros; now apply refund_policy_coin_flip].
  intros c Hc hours_before.
  destruct (@cancellation_of_cancelled_appointment _ _ _ _ _ _ _ _ _ c Hrun Hc)
    as (a & _ & _ & (_ & _ & _ & Hlow & Hhigh)).
  fold hours_before in Hlow, Hhigh.
  split; [exact Hlow | split; [exact Hhigh | split]].
  - intros Hissued. destruct (Z.lt_ge_cases hours_before 24) as [Hlt | Hge];
      [| exact Hge]. destruct (Hlow Hlt) as [Hfalse _]. congruence.
  - intros Hamount. destruct (Z.lt_ge_cases hours_before 24) as [Hlt | Hge];
      [| exact Hge]. destruct (Hlow Hlt) as [_ Hzero]. contradiction.
Qed.

(** C10. For every cancellation returned by [generate_appointments], the
    notice is an integer number of hours between 1 and 168, and the
    cancellation date is the slot of the cancelled appointment it refers
    to minus that many hours; so it precedes the slot by one hour at
    least. *)
Theorem cancellation_precedes_appointment
    self pids thids trids n s apps cans s' :
  generate_appointments self pids thids trids n s = (inr (apps, cans), s') ->
  forall c,
    In c cans ->
    1 <= Cancellation.hours_before_appointment c <= 168
    /\ exists a,
        In a apps
        /\ Appointment.appointment_id a = Cancellation.appointment_id c
        /\ Cancellation.cancellation_date c
           = Appointment.datetime a
             - timedelta_hours (Cancellation.hours_before_appointment c)
        /\ Cancellation.cancellation_date c + timedelta_hours 1
           <= Appointment.datetime a.
Proof.
  intros Hrun c Hc.
  destruct (@cancellation_of_cancelled_appointment _ _ _ _ _ _ _ _ _ c Hrun Hc)
    as (a & Ha & _ & (Hid & Hhours & Hdate & _)).
  split; [exact Hhours |]. exists a.
  split; [exact Ha | split; [now symmetry | split; [exact Hdate |]]].
  rewrite Hdate. unfold timedelta_hours, us_per_hour, us_per_minute. lia.
Qed.

(** C6. [generate_patients] always returns.  For the patient of index i,
    [today] being the clock reading from which the birth date is counted
    back (the (2 i)-th reading after entry), there is an age between 25
    and 90, the drawn one, such that the birth date is the date of [today]
    minus 365 days per year of age; so the age re-derived from the birth
    date on that date is the drawn age, and at any instant [T] of the
    following 24 hours the elapsed days are off by one at most and the age
    column of the read side still shows the drawn age. *)
Theorem patient_age_and_birth_date n s :
  exists ps s',
    generate_patients n s = (inr ps, s')
    /\ List.length ps = Z.to_nat n
    /\ forall i p,
        nth_error ps i = Some p ->
        let today := clock (cpos s + 2 * N.of_nat i) in
        exists age,
          25 <= age <= 90
          /\ Patient.date_of_birth p = date_of today - age * 365
          /\ (date_of today - Patient.date_of_birth p) / 365 = age
          /\ forall T,
              0 <= T - today <= us_per_day ->
              age * 365 <= date_of T - Patient.date_of_birth p <= age * 365 + 1
              /\ age_column T (Patient.date_of_birth p) = age.
Proof.
  pose proof (generate_patients_returns n s) as Hw. apply wpe_returns in Hw.
  destruct Hw as (ps & s' & Hrun & Hlen & _ & Hall).
  exists ps, s'. split; [exact Hrun | split; [exact Hlen |]].
  intros i p Hp today. destruct (Hall i p Hp) as [(age & Hage & Hbirth) _].
  fold today in Hbirth. exists age.
  split; [exact Hage | split; [exact Hbirth | split]].
  - rewrite Hbirth. replace (date_of today - (date_of today - age * 365))
      with (age * 365) by lia. apply Z.div_mul. discriminate.
  - intros T HT. rewrite Hbirth. split; [| apply age_column_exact; lia].
    unfold date_of.
    assert (today / us_per_day <= T / us_per_day)
      by (apply Z.div_le_mono; [reflexivity | lia]).
    assert (T / us_per_day <= (today + 1 * us_per_day) / us_per_day)
      by (apply Z.div_le_mono; [reflexivity | lia]).
    rewrite Z.div_add in * by discriminate. lia.
Qed.

(** C9. [generate_patients] always returns, and every patient it returns
    has gender M or F: the third value of the schema, Other, is never
    generated. *)
Theorem patient_gender_is_M_or_F n s :
  exists ps s',
    generate_patients n s = (inr ps, s')
    /\ List.length ps = Z.to_nat n
    /\ forall p, In p ps ->
                 (Patient.gender p = M \/ Patient.gender p = F)
                 /\ Patient.gender p <> Other.
Proof.
  pose proof (generate_patients_returns n s) as Hw. apply wpe_returns in Hw.
  destruct Hw as (ps & s' & Hrun & Hlen & _ & Hall).
  exists ps, s'. split; [exact Hrun | split; [exact Hlen |]].
  intros p Hp. apply In_nth_error in Hp as [i Hi].
  destruct (Hall i p Hi) as [_ Hgender].
  split; [exact Hgender | destruct Hgender as [-> | ->]; discriminate].
Qed.

(** C7. For the task of index i returned by [generate_reception_tasks],
    [now_] being the clock reading against which its age is tested (the
    (2 i + 1)-th reading after entry): when the task was created more than
    one day before [now_] its status is Completed or Cancelled, and when
    Completed the completion date and the actual duration are present and
    the completion date is later than the creation date; when the task
    was created one day before [now_] at most, its status is Pending or
    In Progress and both completion fields are absent. *)
Theorem reception_task_status_follows_age appointment_ids patient_ids s tasks s' :
  generate_reception_tasks appointment_ids patient_ids s = (inr tasks, s') ->
  forall i t,
    nth_error tasks i = Some t ->
    let now_ := clock (cpos s + 2 * N.of_nat i + 1) in
    (ReceptionTask.created_at t < now_ - timedelta_days 1 ->
     (ReceptionTask.status t = TaskCompleted \/ ReceptionTask.status t = TaskCancelled)
     /\ (ReceptionTask.status t = TaskCompleted ->
         exists completed_date actual_duration,
           ReceptionTask.completed_date t = Some completed_date
           /\ ReceptionTask.actual_duration_minutes t = Some actual_duration
           /\ ReceptionTask.created_at t < completed_date))
    /\ (now_ - timedelta_days 1 <= ReceptionTask.created_at t ->
        (ReceptionTask.status t = Pending \/ ReceptionTask.status t = TaskInProgress)
        /\ ReceptionTask.completed_date t = None
        /\ ReceptionTask.actual_duration_minutes t = None).
Proof.
  intros Hrun i t Ht now_.
  apply generate_reception_tasks_inr in Hrun as (_ & _ & Hall).
  destruct (Hall i t Ht) as (_ & _ & _ & _ & Houtcome). fold now_ in Houtcome.
  unfold task_outcome_ok in Houtcome.
  destruct Houtcome as [[Hold Hterminal] | (Hrecent & Hopen & Hnone)].
  - split; [intros _ | intros Hle; exfalso; lia].
    destruct Hterminal
      as [(Hst & h & j & Hh & Hj & Hcd & Had) | (Hst & Hcd & Had)].
    + split; [now left |]. intros _. do 2 eexists.
      split; [exact Hcd | split; [exact Had |]].
      unfold timedelta_hours, us_per_hour, us_per_minute. lia.
    + split; [now right |]. intros Hc. congruence.
  - split; [intros Hlt; exfalso; lia | intros _].
    split; [exact Hopen | exact Hnone].
Qed.

(** C8. When the list of treatment keys is empty, or the treatments table
    has no row, and at least one appointment is requested,
    [generate_appointments] raises (IndexError from [random.choice], or
    KeyError from the lookup of the treatment); the exception is the one
    raised by the first pass of the loop, run on two empty lists, before
    any appointment is appended. *)
Theorem empty_catalog_is_refused self pids thids trids n s :
  trids = [] \/ treatments_table (working (conn s)) = [] ->
  1 <= n ->
  exists e s',
    (e = IndexError \/ e = KeyError)
    /\ generate_appointments self pids thids trids n s = (inl e, s')
    /\ generate_appointment self (treatments_table (working (conn s)))
         pids thids trids 1 ([], []) s = (inl e, s').
Proof.
  intros Hempty Hn.
  assert (wpe (fun e _ => e = IndexError \/ e = KeyError)
            (generate_appointment self (treatments_table (working (conn s)))
               pids thids trids 1 ([], []))
            (fun _ _ => False) s) as Hw
    by (apply generate_appointment_fails; exact Hempty).
  apply wpe_fails in Hw. destruct Hw as (e & s' & Hbody & He).
  exists e, s'. split; [exact He | split; [| exact Hbody]].
  unfold generate_appointments. erewrite bind_inr by apply select_run.
  destruct (Z.to_nat n) as [| k] eqn:Hk; [lia |]. cbn [for_range].
  apply bind_inl. exact Hbody.
Qed.

(** C1, as amended.  Each call of [insert_data_to_database] is atomic: when
    an insertion or the commit fails, the call raises the error and the
    store is as it durably was before the call.  A run makes two such
    calls, so it leaves the store it started on either untouched, or with
    exactly the patients and therapists of the run added, or with both
    batches added; it never leaves part of a batch, and when it returns
    normally both batches are stored. *)
Theorem run_stores_whole_batches self db s r s' :
  conn s = connect db ->
  generate_all_data self s = (r, s') ->
  run_outcome db r (conn s')
  /\ (r = inr tt ->
      exists db1 db2,
        first_batch_stored db db1 /\ second_batch_stored db1 db2
        /\ conn s' = connect db2)
  /\ (forall ps ths apps cans tasks s0 e s1,
         insert_data_to_database ps ths apps cans tasks s0 = (inl e, s1) ->
         conn s1 = connect (committed (conn s0)))
  /\ (forall ps ths apps cans tasks s0 s1,
         insert_data_to_database ps ths apps cans tasks s0 = (inr tt, s1) ->
         exists db',
           apply_statements (batch_statements ps ths apps cans tasks)
             (working (conn s0)) = inr db'
           /\ conn s1 = connect db').
Proof.
  intros Hs Hrun.
  assert (run_outcome db r (conn s')) as Hout.
  { pose proof (@generate_all_data_wpe self db s Hs) as Hw. destruct r as [e | []].
    - exact (@wpe_inl _ _ _ _ _ _ _ Hw Hrun).
    - exact (@wpe_inr _ _ _ _ _ _ _ Hw Hrun). }
  split; [exact Hout | split; [| split]].
  - intros ->. inversion Hout; subst. eauto.
  - intros ps ths apps cans tasks s0 e s1 Hcall.
    exact (@wpe_inl _ _ _ _ _ _ _
             (insert_data_to_database_wpe ps ths apps cans tasks s0) Hcall).
  - intros ps ths apps cans tasks s0 s1 Hcall.
    exact (@wpe_inr _ _ _ _ _ _ _
             (insert_data_to_database_wpe ps ths apps cans tasks s0) Hcall).
Qed.

(** * Further properties of the generator *)

(** ** The weighted choice *)



(** ** Time of day *)

Lemma date_of_combine d t : 0 <= t < us_per_day -> date_of (combine d t) = d.
Proof.
  intros Ht. unfold date_of, combine.
  rewrite Z.div_add_l by discriminate. rewrite Z.div_small by exact Ht. lia.
Qed.

Lemma time_of_combine d t : 0 <= t < us_per_day -> time_of (combine d t) = t.
Proof.
  intros Ht. unfold time_of, combine.
  rewrite Z.add_comm, Z.mod_add by discriminate. apply Z.mod_small, Ht.
Qed.

Lemma date_of_add_days dt d : date_of (dt + timedelta_days d) = date_of dt + d.
Proof.
  unfold date_of, timedelta_days. apply Z.div_add. discriminate.
Qed.

Lemma business_time_bounds t :
  business_time t ->
  timedelta_hours 8 <= t <= timedelta_hours 16 + timedelta_minutes 45
  /\ t mod timedelta_minutes 15 = 0.
Proof.
  intros (hour & minute & Hh & Hm & ->). cbn in Hh, Hm.
  repeat (destruct Hh as [<- | Hh]; [| try contradiction]);
    repeat (destruct Hm as [<- | Hm]; [| try contradiction]);
    (split; [cbv; split; discriminate | reflexivity]).
Qed.

Lemma _get_business_hours_datetime_details date s :
  wpe never (_get_business_hours_datetime date)
    (fun dt s' =>
       date_of dt = date_of date /\ business_time (time_of dt) /\ st_after s s' 0) s.
Proof.
  unfold _get_business_hours_datetime. apply wpe_bind, wpe_random_random.
  intros r Hr. apply wpe_bind, wpe_choice.
  { destruct (lt_percent r 70); discriminate. }
  intros hour Hhour.
  assert (In hour [8; 9; 10; 11; 12; 13; 14; 15; 16]) as Hh.
  { destruct (lt_percent r 70); cbn in Hhour |- *; intuition auto. }
  apply wpe_bind, wpe_choice; [discriminate |]. intros minute Hminute.
  apply wpe_ret.
  assert (0 <= timedelta_hours hour + timedelta_minutes minute < us_per_day) as Hb.
  { cbn in Hh, Hminute.
    unfold timedelta_hours, timedelta_minutes, us_per_day, us_per_hour, us_per_minute.
    intuition subst; lia. }
  unfold replace_hm. rewrite date_of_combine, time_of_combine by exact Hb.
  split; [reflexivity | split; [| st_solve]].
  exists hour, minute. auto.
Qed.


(** X2. [_get_business_hours_datetime] always returns an instant of the day
    it is given, at a full quarter of an hour between 08:00 and 16:45, so
    within the opening hours 08:00 to 17:00. *)
Theorem business_hours_datetime_in_opening_hours date s :
  exists dt s',
    _get_business_hours_datetime date s = (inr dt, s')
    /\ date_of dt = date_of date
    /\ timedelta_hours 8 <= time_of dt
    /\ time_of dt <= timedelta_hours 16 + timedelta_minutes 45
    /\ time_of dt < timedelta_hours 17
    /\ time_of dt mod timedelta_minutes 15 = 0.
Proof.
  pose proof (_get_business_hours_datetime_details date s) as Hw.
  apply wpe_returns in Hw. destruct Hw as (dt & s' & Hrun & Hdate & Htime & _).
  exists dt, s'. split; [exact Hrun | split; [exact Hdate |]].
  apply business_time_bounds in Htime. destruct Htime as [[Hlow Hhigh] Hgrid].
  split; [exact Hlow | split; [exact Hhigh | split; [| exact Hgrid]]].
  revert Hhigh. unfold timedelta_hours, timedelta_minutes, us_per_hour, us_per_minute.
  lia.
Qed.

(** ** The place, booking and price of an appointment *)

Lemma weekday_after_weekend d : 5 <= weekday d -> weekday (d + 2) <= 1.
Proof.
  unfold weekday. intros H.
  pose proof (Z.mod_pos_bound (d + 6) 7 ltac:(lia)).
  pose proof (Z.mod_pos_bound (d + 2 + 6) 7 ltac:(lia)).
  pose proof (Z.div_mod (d + 6) 7 ltac:(lia)).
  pose proof (Z.div_mod (d + 2 + 6) 7 ltac:(lia)).
  lia.
Qed.

Lemma place_appointment_date_details self s :
  wpe never (place_appointment_date self)
    (fun date s' =>
       (exists days_from_start shift,
           0 <= days_from_start <= 180
           /\ (shift = 0
               \/ (shift = 2
                   /\ 5 <= weekday (date_of (CLINIC_START_DATE self) + days_from_start)))
           /\ date_of date = date_of (CLINIC_START_DATE self) + days_from_start + shift)
       /\ st_after s s' 0) s.
Proof.
  unfold place_appointment_date.
  apply wpe_bind, wpe_triangular_int_range; [lia |]. intros days Hdays.
  apply wpe_bind.
  apply wpe_never with
    (Q := fun (shift : bool) s' =>
            (shift = true ->
             5 <= weekday (date_of (CLINIC_START_DATE self) + days))
            /\ st_after s s' 0).
  { rewrite date_of_add_days.
    destruct (Z.leb_spec 5 (weekday (date_of (CLINIC_START_DATE self) + days))).
    - apply wpe_bind, wpe_random_random. intros r _. apply wpe_ret.
      split; [auto | st_solve].
    - apply wpe_ret. split; [discriminate | st_solve]. }
  intros shift s1 [Hshift Hs1]. cbv beta. apply wpe_ret. split; [| exact Hs1].
  exists days. destruct shift.
  - exists 2. rewrite !date_of_add_days.
    split; [exact Hdays | split; [right; split; [reflexivity | auto] | reflexivity]].
  - exists 0. rewrite date_of_add_days. split; [exact Hdays | split; [auto | lia]].
Qed.

Lemma price_appointment_details base_price s :
  wpe never (price_appointment base_price)
    (fun pricing s' =>
       ((fst (fst pricing) = true /\ snd pricing = snd (fst pricing)
         /\ exists share, 100 <= share <= 300
                          /\ snd (fst pricing) = round_div (base_price * share) 1000)
        \/ (fst (fst pricing) = false /\ snd (fst pricing) = 0
            /\ snd pricing = base_price))
       /\ st_after s s' 0) s.
Proof.
  unfold price_appointment. apply wpe_bind, wpe_choice; [discriminate |].
  intros [|] _.
  - apply wpe_bind, wpe_uniform_int_range; [lia |]. intros share Hshare.
    apply wpe_ret. cbn. split; [| st_solve]. left. eauto.
  - apply wpe_ret. cbn. split; [| st_solve]. right. auto.
Qed.

Lemma _generate_cancellation_details appointment_id dt s :
  wpe never (_generate_cancellation appointment_id dt)
    (fun c _ => cancellation_details_ok c) s.
Proof.
  unfold _generate_cancellation.
  apply wpe_bind, wpe__weighted_choice; [cbn; lia |]. intros max_hours Hmax.
  apply wpe_bind, wpe_randint.
  { cbn in Hmax. intuition lia. }
  intros hours_before _.
  apply wpe_bind, wpe__weighted_choice; [cbn; lia |]. intros category _.
  apply wpe_bind, wpe_choice; [destruct category; discriminate |].
  intros detail Hdetail.
  apply wpe_bind. eapply wpe_never; [apply refund_policy_returns |].
  intros refund s1 _. cbv beta.
  apply wpe_bind, wpe__weighted_choice; [cbn; lia |]. intros cancelled_by Hby.
  apply wpe_bind, wpe_choice; [discriminate |]. intros rescheduled _.
  apply wpe_ret. split; [exact Hdetail | exact Hby].
Qed.

Lemma generate_appointment_details_wpe self rows pids thids trids id apps cans s :
  wpe (fun _ _ => True)
    (generate_appointment self rows pids thids trids id (apps, cans))
    (fun acc _ =>
       (exists a, fst acc = apps ++ [a] /\ appointment_details_ok self rows a)
       /\ (snd acc = cans
           \/ exists c, snd acc = cans ++ [c] /\ cancellation_details_ok c))
    s.
Proof.
  unfold generate_appointment.
  apply wpe_bind, wpe_choice; [auto |]. intros pid _.
  apply wpe_bind, wpe_choice; [auto |]. intros thid _.
  apply wpe_bind, wpe_choice; [auto |]. intros trid _.
  apply wpe_bind. eapply wpe_never; [apply place_appointment_date_details |].
  intros date s1 [Hdate _]. cbv beta.
  apply wpe_bind. eapply wpe_never; [apply _get_business_hours_datetime_details |].
  intros dt s2 (Hday & Htime & _). cbv beta.
  apply wpe_bind, wpe_randint; [lia |]. intros lead Hlead.
  apply wpe_bind, wpe_lookup_treatment; [auto |]. intros row Hrow Hfst.
  apply wpe_bind. eapply wpe_never; [apply price_appointment_details |].
  intros [[insurance_covered copay_amount] final_price] s3 [Hprice _].
  cbv beta iota. cbn [fst snd] in Hprice.
  apply wpe_bind. eapply wpe_never; [apply draw_status_returns |].
  intros status s4 _. cbv beta.
  apply wpe_bind, wpe__weighted_choice; [cbn; lia |]. intros method _.
  apply wpe_bind, wpe_random_random. intros r _.
  apply wpe_bind.
  apply wpe_never with (Q := fun (_ : option string) (_ : St) => True).
  { destruct (lt_percent r 20); repeat wp_step; exact I. }
  intros notes s5 _. cbv beta.
  apply wpe_bind, wpe_choice; [discriminate |]. intros reminder _.
  apply wpe_bind. eapply wpe_never; [apply treatment_timestamps_returns |].
  intros [[check_in treatment_start] treatment_end] s6 _. cbv beta iota.
  set (a := Appointment.mk id pid thid trid (date_of dt) (time_of dt)
              (Treatment.duration_minutes (snd row)) status
              (dt - timedelta_days lead) method final_price insurance_covered
              copay_amount notes reminder check_in treatment_start treatment_end).
  assert (appointment_details_ok self rows a) as Hok.
  { unfold appointment_details_ok, Appointment.datetime. cbn.
    rewrite combine_date_time, Hday.
    split; [exact Hdate | split; [exact Htime | split]].
    - exists lead. auto.
    - exists row. auto. }
  destruct (status_eqb status Cancelled).
  - apply wpe_bind. eapply wpe_never; [apply _generate_cancellation_details |].
    intros c s7 Hc. cbv beta. apply wpe_ret. cbn [fst snd].
    split; [exists a; auto | right; exists c; auto].
  - apply wpe_ret. cbn [fst snd]. split; [exists a; auto | left; reflexivity].
Qed.

Lemma generate_appointments_details self pids thids trids n s apps cans s' :
  generate_appointments self pids thids trids n s = (inr (apps, cans), s') ->
  Forall (appointment_details_ok self (treatments_table (working (conn s)))) apps
  /\ Forall cancellation_details_ok cans.
Proof.
  intros Hrun.
  refine (@wpe_inr _ (fun _ _ => True) _
            (fun acc _ =>
               Forall (appointment_details_ok self
                         (treatments_table (working (conn s)))) (fst acc)
               /\ Forall cancellation_details_ok (snd acc))
            s (apps, cans) s' _ Hrun).
  unfold generate_appointments. apply wpe_bind, wpe_select.
  eapply wpe_post;
    [ apply wpe_for_range with
        (Inv := fun (_ : nat) acc (_ : St) =>
                  Forall (appointment_details_ok self
                            (treatments_table (working (conn s)))) (fst acc)
                  /\ Forall cancellation_details_ok (snd acc))
    | auto ].
  - split; constructor.
  - intros k [apps0 cans0] s1 _ [Hall Hcans]. cbn [fst snd] in Hall, Hcans.
    eapply wpe_post; [apply generate_appointment_details_wpe |].
    intros acc _ [(a & -> & Ha) Hstep]. split.
    + apply Forall_app. split; [exact Hall |]. constructor; [exact Ha | constructor].
    + destruct Hstep as [-> | (c & -> & Hc)]; [exact Hcans |].
      apply Forall_app. split; [exact Hcans |]. constructor; [exact Hc | constructor].
Qed.


Lemma init_returns s :
  wpe never init
    (fun self s' =>
       CLINIC_START_DATE self = clock (cpos s) - timedelta_days 180
       /\ CLINIC_END_DATE self = clock (cpos s + 1) + timedelta_days 30
       /\ st_after s s' 2) s.
Proof.
  unfold init. repeat wp_step. cbn [CLINIC_START_DATE CLINIC_END_DATE].
  split; [reflexivity | split; [| st_solve]].
  st_simpl. rewrite N.add_1_r. reflexivity.
Qed.

(** X3. Every appointment returned by [generate_appointments] lies on a day
    that is the start date of the clinic period plus 0 to 180 days, or such
    a day that fell on a Saturday or Sunday moved two days on, to a Monday
    or Tuesday; so on one of the 183 days from the start date.  Its time is
    a full quarter of an hour between 08:00 and 16:45, and it was booked a
    whole number of days, 1 to 14, before its slot. *)
Theorem appointments_are_placed_in_the_clinic_period
    self pids thids trids n s apps cans s' :
  generate_appointments self pids thids trids n s = (inr (apps, cans), s') ->
  forall a,
    In a apps ->
    let first_day := date_of (CLINIC_START_DATE self) in
    (exists days_from_start,
        0 <= days_from_start <= 180
        /\ (Appointment.appointment_date a = first_day + days_from_start
            \/ (5 <= weekday (first_day + days_from_start)
                /\ Appointment.appointment_date a = first_day + days_from_start + 2
                /\ weekday (Appointment.appointment_date a) <= 1)))
    /\ first_day <= Appointment.appointment_date a <= first_day + 182
    /\ timedelta_hours 8 <= Appointment.appointment_time a
       <= timedelta_hours 16 + timedelta_minutes 45
    /\ Appointment.appointment_time a mod timedelta_minutes 15 = 0
    /\ exists lead,
        1 <= lead <= 14
        /\ Appointment.booking_date a = Appointment.datetime a - timedelta_days lead
        /\ Appointment.booking_date a < Appointment.datetime a.
Proof.
  intros Hrun a Ha first_day.
  pose proof (generate_appointments_details _ _ _ _ _ _ Hrun) as [Hall _].
  rewrite Forall_forall in Hall.
  destruct (Hall a Ha) as ((d & shift & Hd & Hshift & Hdate) & Htime & Hbook & _).
  fold first_day in Hshift, Hdate.
  apply business_time_bounds in Htime. destruct Htime as [Hbounds Hgrid].
  split; [| split; [| split; [exact Hbounds | split; [exact Hgrid |]]]].
  - exists d. split; [exact Hd |].
    destruct Hshift as [-> | [-> Hweekend]].
    + left. lia.
    + right. split; [exact Hweekend | split; [exact Hdate |]].
      rewrite Hdate. apply weekday_after_weekend. exact Hweekend.
  - destruct Hshift as [-> | [-> _]]; lia.
  - destruct Hbook as (lead & Hlead & Hbooking). exists lead.
    split; [exact Hlead | split; [exact Hbooking |]].
    rewrite Hbooking. unfold timedelta_days, us_per_day, us_per_hour, us_per_minute.
    lia.
Qed.


(** X5. For a generator built by [__init__], whose clinic period starts 180
    days before the clock reading [t] taken there, every appointment
    returned by [generate_appointments] lies between 180 days before the
    day of [t] and two days after it: no appointment is placed in the rest
    of the 30 days ahead that [CLINIC_END_DATE] announces. *)
Theorem appointments_end_two_days_after_creation
    s0 self s1 pids thids trids n s apps cans s' :
  init s0 = (inr self, s1) ->
  generate_appointments self pids thids trids n s = (inr (apps, cans), s') ->
  forall a,
    In a apps ->
    let t := clock (cpos s0) in
    date_of t - 180 <= Appointment.appointment_date a <= date_of t + 2
    /\ (t <= clock (cpos s0 + 1) ->
        Appointment.appointment_date a + 28 <= date_of (CLINIC_END_DATE self)).
Proof.
  intros Hinit Hrun a Ha t.
  pose proof (init_returns s0) as Hself.
  eapply wpe_inr in Hself; [| exact Hinit]. destruct Hself as (Hstart & Hend & _).
  pose proof (generate_appointments_details _ _ _ _ _ _ Hrun) as [Hall _].
  rewrite Forall_forall in Hall.
  destruct (Hall a Ha) as ((d & shift & Hd & Hshift & Hdate) & _).
  fold t in Hstart.
  assert (date_of (CLINIC_START_DATE self) = date_of t - 180) as Hfirst.
  { rewrite Hstart. replace (t - timedelta_days 180) with (t + timedelta_days (-180))
      by (unfold timedelta_days; lia).
    rewrite date_of_add_days. lia. }
  rewrite Hfirst in Hdate.
  assert (shift = 0 \/ shift = 2) as Hs by (destruct Hshift as [-> | [-> _]]; auto).
  split; [lia |]. intros Hmono. rewrite Hend, date_of_add_days.
  assert (date_of t <= date_of (clock (cpos s0 + 1))) as Hle.
  { unfold date_of. apply Z.div_le_mono; [reflexivity | exact Hmono]. }
  lia.
Qed.

(** X6. Every cancellation returned by [generate_appointments] gives a
    reason detail that is one of the four phrases of its reason category,
    and is made by the patient, the clinic or the therapist: the fourth
    value of the schema, System, is never generated. *)
Theorem cancellation_reason_matches_its_category
    self pids thids trids n s apps cans s' :
  generate_appointments self pids thids trids n s = (inr (apps, cans), s') ->
  forall c,
    In c cans ->
    In (Cancellation.reason_detail c) (reason_details (Cancellation.reason_category c))
    /\ List.length (reason_details (Cancellation.reason_category c)) = 4%nat
    /\ (Cancellation.cancelled_by c = ByPatient
        \/ Cancellation.cancelled_by c = ByClinic
        \/ Cancellation.cancelled_by c = ByTherapist)
    /\ Cancellation.cancelled_by c <> BySystem.
Proof.
  intros Hrun c Hc.
  pose proof (generate_appointments_details _ _ _ _ _ _ Hrun) as [_ Hall].
  rewrite Forall_forall in Hall. destruct (Hall c Hc) as [Hdetail Hby].
  split; [exact Hdetail |].
  split; [destruct (Cancellation.reason_category c); reflexivity |].
  cbn in Hby.
  split; [intuition auto | intros Heq; rewrite Heq in Hby; intuition discriminate].
Qed.

(** ** Lists built by appending in a loop *)

Lemma wpe_collect A E (step : Mon A) (P : N -> A -> Prop) (c : N) n s :
  (forall s1, wpe E step (fun x s2 => P (cpos s1) x /\ cpos s2 = (cpos s1 + c)%N) s1) ->
  wpe E (repeatM n (fun xs => x <- step ;; ret (xs ++ [x])) [])
    (fun xs _ =>
       List.length xs = n
       /\ forall i x, nth_error xs i = Some x -> P (cpos s + c * N.of_nat i)%N x) s.
Proof.
  intros Hstep.
  eapply wpe_post;
    [ apply wpe_repeatM with
        (Inv := fun k xs s1 =>
                  List.length xs = k
                  /\ cpos s1 = (cpos s + c * N.of_nat k)%N
                  /\ forall i x, nth_error xs i = Some x ->
                                 P (cpos s + c * N.of_nat i)%N x)
    | intros xs s1 (Hlen & _ & Hall); auto ].
  - split; [reflexivity | split; [lia | intros [| i] x; discriminate]].
  - intros k xs s1 _ (Hlen & Hpos & Hall). apply wpe_bind.
    eapply wpe_post; [apply Hstep |]. intros x s2 [Hx Hpos2]. cbv beta.
    apply wpe_ret. split; [| split].
    + rewrite length_app. cbn. lia.
    + lia.
    + intros i y Hy. apply nth_error_snoc in Hy as [[_ Hy] | [-> ->]]; [eauto |].
      rewrite Hlen, <- Hpos. exact Hx.
Qed.

Lemma wpe_collect_range A E (step : Z -> Mon A) (P : Z -> N -> A -> Prop) (c : N)
    start n s :
  (forall i s1,
      wpe E (step i) (fun x s2 => P i (cpos s1) x /\ cpos s2 = (cpos s1 + c)%N) s1) ->
  wpe E (for_range (fun i xs => x <- step i ;; ret (xs ++ [x])) start n [])
    (fun xs _ =>
       List.length xs = n
       /\ forall i x, nth_error xs i = Some x ->
                      P (start + Z.of_nat i) (cpos s + c * N.of_nat i)%N x) s.
Proof.
  intros Hstep.
  eapply wpe_post;
    [ apply wpe_for_range with
        (Inv := fun k xs s1 =>
                  List.length xs = k
                  /\ cpos s1 = (cpos s + c * N.of_nat k)%N
                  /\ forall i x, nth_error xs i = Some x ->
                                 P (start + Z.of_nat i) (cpos s + c * N.of_nat i)%N x)
    | intros xs s1 (Hlen & _ & Hall); auto ].
  - split; [reflexivity | split; [lia | intros [| i] x; discriminate]].
  - intros k xs s1 _ (Hlen & Hpos & Hall). apply wpe_bind.
    eapply wpe_post; [apply Hstep |]. intros x s2 [Hx Hpos2]. cbv beta.
    apply wpe_ret. split; [| split].
    + rewrite length_app. cbn. lia.
    + lia.
    + intros i y Hy. apply nth_error_snoc in Hy as [[_ Hy] | [-> ->]]; [eauto |].
      rewrite Hlen, <- Hpos. exact Hx.
Qed.

(** ** Therapists *)

Lemma generate_therapist_details i s :
  wpe never (generate_therapist i)
    (fun t s' => therapist_ok i (clock (cpos s)) t /\ cpos s' = (cpos s + 1)%N) s.
Proof.
  unfold generate_therapist.
  destruct (Z.ltb_spec i 4) as [Hlt | Hge]; [| destruct (Z.eqb_spec i 4) as [Heq | Hne]];
    (apply wpe_bind, wpe_randint; [lia |]; intros hire Hhire;
     do 10 wp_step;
     apply wpe_bind, wpe_randint; [lia |]; intros license Hlicense;
     apply wpe_bind, wpe_uniform_int_range; [lia |]; intros rate Hrate;
     apply wpe_ret; split; [| st_simpl; lia];
     unfold therapist_ok; cbn;
     split; [intros H; first [lia | auto] |];
     split; [intros H; first [lia | auto] |];
     split; [intros H; first [lia | auto] |];
     split; [reflexivity |];
     split; [exact Hlicense |];
     split; [exists hire; auto |];
     split; [exact Hrate | reflexivity]).
Qed.

(** X7. [generate_therapists] always returns, with as many therapists as
    asked for.  The therapist of index i gets the staffing pattern of its
    index (full time for the first four, mornings for the fifth, afternoons
    for the others), the specialization of index i modulo 6, a licence
    number of five digits, a hiring date 365 to 1800 days before the day of
    the clock reading of its pass, an hourly rate between 35.00 and 55.00
    and the active flag. *)
Theorem therapists_follow_the_staffing_patterns n s :
  exists ths s',
    generate_therapists n s = (inr ths, s')
    /\ List.length ths = Z.to_nat n
    /\ forall i t,
        nth_error ths i = Some t ->
        therapist_ok (Z.of_nat i) (clock (cpos s + N.of_nat i)) t
        /\ Therapist.hire_date t < date_of (clock (cpos s + N.of_nat i)) - 364
        /\ In (Therapist.max_patients_per_day t) [12; 6]
        /\ In (Therapist.specialization t) specializations.
Proof.
  assert (wpe never (generate_therapists n)
            (fun ths _ =>
               List.length ths = Z.to_nat n
               /\ forall i t, nth_error ths i = Some t ->
                              therapist_ok (0 + Z.of_nat i)
                                (clock (cpos s + 1 * N.of_nat i)) t) s) as Hw.
  { unfold generate_therapists.
    apply wpe_collect_range
      with (P := fun i pos t => therapist_ok i (clock pos) t) (c := 1%N).
    intros i s1. apply generate_therapist_details. }
  apply wpe_returns in Hw. destruct Hw as (ths & s' & Hrun & Hlen & Hall).
  exists ths, s'. split; [exact Hrun | split; [exact Hlen |]].
  intros i t Ht. specialize (Hall i t Ht).
  rewrite Z.add_0_l, N.mul_1_l in Hall. split; [exact Hall |].
  destruct Hall as (Hfull & Hmorning & Hafternoon & Hspec & _ & (d & Hd & Hhire) & _).
  split; [lia |]. split.
  - destruct (Z.ltb_spec (Z.of_nat i) 4) as [Hlt | Hge].
    + destruct (Hfull Hlt) as (_ & _ & _ & ->). cbn. auto.
    + destruct (Z.eqb_spec (Z.of_nat i) 4) as [Heq | Hne].
      * destruct (Hmorning Heq) as (_ & _ & _ & ->). cbn. auto.
      * destruct (Hafternoon ltac:(lia)) as (_ & _ & _ & ->). cbn. auto.
  - rewrite Hspec.
    pose proof (Z.mod_pos_bound (Z.of_nat i) 6 ltac:(lia)) as Hmod.
    apply nth_In. change (List.length specializations) with 6%nat. lia.
Qed.

(** ** Patients *)

Lemma replace_newline_no_newline s : contains_newline (replace_newline s) = false.
Proof.
  induction s as [| c tl IH]; [reflexivity |]. cbn [replace_newline].
  destruct (Ascii.eqb c "010"%char) eqn:Hc.
  - cbn. exact IH.
  - cbn [contains_newline]. rewrite Hc, IH. reflexivity.
Qed.

Lemma generate_patient_details s :
  wpe never generate_patient
    (fun p _ => patient_details_ok (clock (cpos s + 1)) p) s.
Proof.
  unfold generate_patient. apply wpe_bind.
  eapply wpe_never; [apply _generate_realistic_age_returns |].
  intros age s1 [_ Hs1]. cbv beta.
  apply wpe_bind, wpe_choice; [discriminate |]. intros gender _.
  do 2 wp_step.
  apply wpe_bind, wpe_randint; [lia |]. intros reg Hreg.
  do 2 wp_step.
  apply wpe_bind.
  apply wpe_never with
    (Q := fun (_ : string) (_ : St) => cpos s1 = cpos s).
  { destruct (gender_eqb gender M); apply wpe_fake_text; st_solve. }
  intros first_name s2 Hclock. cbv beta.
  do 8 wp_step.
  apply wpe_bind, wpe__weighted_choice; [cbn; lia |]. intros ins _.
  apply wpe_bind, wpe__weighted_choice; [cbn; lia |]. intros cond _.
  do 4 wp_step.
  apply wpe_bind, wpe_random_random. intros r _.
  apply wpe_bind.
  apply wpe_never with (Q := fun (_ : option string) (_ : St) => True).
  { destruct (lt_percent r 30); repeat wp_step; exact I. }
  intros notes s3 _. cbv beta. apply wpe_ret.
  split; cbn.
  - exists reg. split; [exact Hreg |]. st_simpl. rewrite Hclock, N.add_1_r.
    reflexivity.
  - apply replace_newline_no_newline.
Qed.

(** X8. [generate_patients] always returns.  The patient of index i is
    registered 30 to 180 days before the day of the second clock reading of
    its pass (reading 2 i + 1 after entry), and its address holds no line
    feed.  When the clock does not run backwards between the two readings of
    the pass, the registration lies at least 8945 days, more than 24 years,
    after the birth date: every patient registers as an adult. *)
Theorem patients_register_one_to_six_months_back n s :
  exists ps s',
    generate_patients n s = (inr ps, s')
    /\ List.length ps = Z.to_nat n
    /\ forall i p,
        nth_error ps i = Some p ->
        let today := clock (cpos s + 2 * N.of_nat i) in
        let today' := clock (cpos s + 2 * N.of_nat i + 1) in
        date_of today' - 180 <= Patient.registration_date p <= date_of today' - 30
        /\ contains_newline (Patient.address p) = false
        /\ (today <= today' ->
            Patient.date_of_birth p + 8945 <= Patient.registration_date p).
Proof.
  assert (wpe never (generate_patients n)
            (fun ps _ =>
               List.length ps = Z.to_nat n
               /\ forall i p,
                   nth_error ps i = Some p ->
                   patient_ok (clock (cpos s + 2 * N.of_nat i)) p
                   /\ patient_details_ok (clock (cpos s + 2 * N.of_nat i + 1)) p) s)
    as Hw.
  { unfold generate_patients.
    apply wpe_collect
      with (P := fun pos p => patient_ok (clock pos) p
                              /\ patient_details_ok (clock (pos + 1)) p)
           (c := 2%N).
    intros s1.
    pose proof (@wpe_conj _ _ _ _ _ _ _ (generate_patient_returns s1)
                  (generate_patient_details s1)) as Hboth.
    eapply wpe_mono; [exact Hboth | intros e s2 [[] _] |].
    intros p s2 [[Hp Hs2] Hd]. cbv beta in *.
    split; [split; [exact Hp | exact Hd] | st_solve]. }
  apply wpe_returns in Hw. destruct Hw as (ps & s' & Hrun & Hlen & Hall).
  exists ps, s'. split; [exact Hrun | split; [exact Hlen |]].
  intros i p Hp today today'.
  destruct (Hall i p Hp)
    as [[(age & Hage & Hbirth) _] [(reg & Hreg & Hregistration) Haddress]].
  fold today in Hbirth. fold today' in Hregistration.
  split; [lia | split; [exact Haddress |]]. intros Hmono.
  assert (date_of today <= date_of today') as Hle.
  { unfold date_of. apply Z.div_le_mono; [reflexivity | exact Hmono]. }
  lia.
Qed.

(** ** Workflow tasks *)

Lemma task_target_details task_type appointment_ids patient_ids s :
  wpe (fun _ _ => True) (task_target task_type appointment_ids patient_ids)
    (fun target _ =>
       (appointment_specific task_type = true ->
        snd target = None
        /\ exists k, fst target = Some k /\ In k appointment_ids)
       /\ (appointment_specific task_type = false ->
           (exists k, snd target = Some k /\ In k patient_ids)
           /\ forall k, fst target = Some k -> In k appointment_ids)) s.
Proof.
  unfold task_target. destruct (appointment_specific task_type).
  - apply wpe_bind, wpe_choice; [auto |]. intros a Ha. apply wpe_ret. cbn.
    split; [intros _; split; [reflexivity | exists a; auto] | discriminate].
  - apply wpe_bind, wpe_random_random. intros r _. apply wpe_bind.
    apply wpe_post with
      (Q := fun (a : option Z) (_ : St) =>
              forall k, a = Some k -> In k appointment_ids).
    { destruct (lt_percent r 70).
      - apply wpe_bind, wpe_choice; [auto |]. intros a Ha. apply wpe_ret.
        intros k Hk. injection Hk as <-. exact Ha.
      - apply wpe_ret. discriminate. }
    intros a s1 Ha. cbv beta.
    apply wpe_bind, wpe_choice; [auto |]. intros p Hp. apply wpe_ret. cbn.
    split; [discriminate | intros _; split; [exists p; auto | exact Ha]].
Qed.

Lemma generate_reception_task_target appointment_ids patient_ids s :
  wpe (fun _ _ => True) (generate_reception_task appointment_ids patient_ids)
    (fun t _ => task_target_ok appointment_ids patient_ids t) s.
Proof.
  unfold generate_reception_task.
  apply wpe_bind, wpe_choice; [discriminate |]. intros task_type _.
  apply wpe_bind. eapply wpe_post; [apply task_target_details |].
  intros [appointment_id patient_id] s1 Htarget. cbv beta iota.
  cbn [fst snd] in Htarget.
  do 2 wp_step.
  apply wpe_bind, wpe_randint; [lia |]. intros d _.
  apply wpe_bind. eapply wpe_never; [apply task_status_returns |].
  intros [[status completed_date] actual_duration] s2 _. cbv beta iota.
  apply wpe_bind, wpe_choice; [discriminate |]. intros assigned _.
  apply wpe_bind, wpe_random_random. intros r _.
  apply wpe_bind.
  apply wpe_never with (Q := fun (_ : option string) (_ : St) => True).
  { destruct (lt_percent r 30); repeat wp_step; exact I. }
  intros notes s3 _. cbv beta. apply wpe_ret. exact Htarget.
Qed.

Lemma generate_reception_tasks_target appointment_ids patient_ids s tasks s' :
  generate_reception_tasks appointment_ids patient_ids s = (inr tasks, s') ->
  Forall (task_target_ok appointment_ids patient_ids) tasks.
Proof.
  intros Hrun.
  refine (@wpe_inr _ (fun _ _ => True) _
            (fun tasks _ => Forall (task_target_ok appointment_ids patient_ids) tasks)
            s tasks s' _ Hrun).
  unfold generate_reception_tasks.
  eapply wpe_post;
    [ apply wpe_repeatM with
        (Inv := fun (_ : nat) tasks (_ : St) =>
                  Forall (task_target_ok appointment_ids patient_ids) tasks)
    | auto ].
  - constructor.
  - intros k tasks0 s1 _ Hall. apply wpe_bind.
    eapply wpe_post; [apply generate_reception_task_target |].
    intros t s2 Ht. cbv beta. apply wpe_ret.
    apply Forall_app. split; [exact Hall | constructor; [exact Ht | constructor]].
Qed.

(** X9. Every task returned by [generate_reception_tasks] has the target
    its type asks for: a task of type Appointment Confirmation or Patient
    Check-in refers to one of the given appointment keys and to no patient;
    a task of another type refers to one of the given patient keys, and to
    one of the given appointment keys or to no appointment.  So when the
    list of appointment keys is empty, the tasks of a call that returns are
    all of the second kind and refer to no appointment. *)
Theorem reception_task_target_follows_its_type
    appointment_ids patient_ids s tasks s' :
  generate_reception_tasks appointment_ids patient_ids s = (inr tasks, s') ->
  forall t,
    In t tasks ->
    (appointment_specific (ReceptionTask.task_type t) = true ->
     ReceptionTask.patient_id t = None
     /\ exists k, ReceptionTask.appointment_id t = Some k /\ In k appointment_ids)
    /\ (appointment_specific (ReceptionTask.task_type t) = false ->
        (exists k, ReceptionTask.patient_id t = Some k /\ In k patient_ids)
        /\ forall k, ReceptionTask.appointment_id t = Some k -> In k appointment_ids)
    /\ (appointment_ids = [] ->
        appointment_specific (ReceptionTask.task_type t) = false
        /\ ReceptionTask.appointment_id t = None).
Proof.
  intros Hrun t Ht.
  pose proof (generate_reception_tasks_target _ _ _ Hrun) as Hall.
  rewrite Forall_forall in Hall. destruct (Hall t Ht) as [Hspecific Hother].
  split; [exact Hspecific | split; [exact Hother |]]. intros ->.
  destruct (appointment_specific (ReceptionTask.task_type t)) eqn:Hty.
  - destruct (Hspecific eq_refl) as (_ & k & _ & []).
  - split; [reflexivity |]. destruct (Hother eq_refl) as [_ Hnone].
    destruct (ReceptionTask.appointment_id t) as [k |]; [| reflexivity].
    destruct (Hnone k eq_refl).
Qed.

(** X10. Every task returned by [generate_reception_tasks] was created a
    whole number of days, 1 to 30, before the first clock reading of its
    pass and is due 24 hours after its creation; its priority (1 to 4) and
    its estimated duration (2 to 8 minutes) are those of its type.  A
    completion date, when present, lies 1 to 48 hours after the creation, so
    up to 24 hours after the due date; an actual duration, when present, is
    the estimate plus -2 to 3 minutes and is never negative. *)
Theorem reception_task_dates_and_durations appointment_ids patient_ids s tasks s' :
  generate_reception_tasks appointment_ids patient_ids s = (inr tasks, s') ->
  forall i t,
    nth_error tasks i = Some t ->
    let created := ReceptionTask.created_at t in
    let estimate := ReceptionTask.estimated_duration_minutes t in
    (exists d, 1 <= d <= 30
               /\ created = clock (cpos s + 2 * N.of_nat i) - timedelta_days d)
    /\ ReceptionTask.due_date t = created + timedelta_hours 24
    /\ ReceptionTask.priority t = priority_map (ReceptionTask.task_type t)
    /\ 1 <= ReceptionTask.priority t <= 4
    /\ estimate = duration_map (ReceptionTask.task_type t)
    /\ 2 <= estimate <= 8
    /\ (forall completed_date,
           ReceptionTask.completed_date t = Some completed_date ->
           created + timedelta_hours 1 <= completed_date
           /\ completed_date <= ReceptionTask.due_date t + timedelta_hours 24)
    /\ (forall actual,
           ReceptionTask.actual_duration_minutes t = Some actual ->
           estimate - 2 <= actual <= estimate + 3 /\ 0 <= actual).
Proof.
  intros Hrun i t Ht created estimate.
  destruct (generate_reception_tasks_inr _ _ _ Hrun) as (_ & _ & Hall).
  destruct (Hall i t Ht) as (Hcreated & Hdue & Hpriority & Hestimate & Houtcome).
  fold created in Hcreated, Hdue, Houtcome. fold estimate in Hestimate, Houtcome.
  assert (2 <= estimate <= 8) as Hrange
    by (rewrite Hestimate; destruct (ReceptionTask.task_type t); cbn; lia).
  split; [exact Hcreated | split; [exact Hdue | split; [exact Hpriority |]]].
  split; [rewrite Hpriority; destruct (ReceptionTask.task_type t); cbn; lia |].
  split; [exact Hestimate | split; [exact Hrange |]].
  unfold task_outcome_ok in Houtcome.
  destruct Houtcome
    as [(_ & [(_ & h & j & Hh & Hj & Hc & Ha) | (_ & Hc & Ha)]) | (_ & _ & Hc & Ha)];
    rewrite Hc, Ha; (split; [intros c Heq | intros a Heq]);
    try discriminate.
  - injection Heq as <-. rewrite Hdue.
    unfold timedelta_hours, us_per_hour, us_per_minute. lia.
  - injection Heq as <-. lia.
Qed.

Lemma repeatM_S A n (body : A -> Mon A) acc :
  repeatM (S n) body acc = bind (body acc) (fun acc' => repeatM n body acc').
Proof. reflexivity. Qed.

Lemma generate_reception_task_fails s :
  wpe (fun e s' => e = IndexError /\ same_store s s')
    (generate_reception_task [] []) (fun _ _ => False) s.
Proof.
  unfold generate_reception_task.
  apply wpe_bind, wpe_choice; [discriminate |]. intros task_type _.
  apply wpe_bind. unfold task_target. destruct (appointment_specific task_type).
  - apply wpe_bind, wpe_choice; [intros _; split; [reflexivity | st_solve] |].
    intros k [].
  - apply wpe_bind, wpe_random_random. intros r _. apply wpe_bind.
    destruct (lt_percent r 70).
    + apply wpe_bind, wpe_choice; [intros _; split; [reflexivity | st_solve] |].
      intros k [].
    + apply wpe_ret.
      apply wpe_bind, wpe_choice; [intros _; split; [reflexivity | st_solve] |].
      intros k [].
Qed.

(** X11. When there is neither an appointment key nor a patient key to
    choose from, [generate_reception_tasks] raises IndexError in its first
    pass, whatever type of task is drawn, and leaves the store alone. *)
Theorem reception_tasks_need_keys appointment_ids patient_ids s :
  appointment_ids = [] ->
  patient_ids = [] ->
  exists s',
    generate_reception_tasks appointment_ids patient_ids s = (inl IndexError, s')
    /\ generate_reception_task appointment_ids patient_ids s = (inl IndexError, s')
    /\ conn s' = conn s.
Proof.
  intros -> ->.
  pose proof (generate_reception_task_fails s) as Hw.
  apply wpe_fails in Hw. destruct Hw as (e & s' & Hbody & -> & Hstore & _).
  exists s'. split; [| split; [exact Hbody | exact Hstore]].
  unfold generate_reception_tasks. rewrite repeatM_S.
  apply bind_inl, bind_inl. exact Hbody.
Qed.

(** X12. [generate_reception_tasks] raises nothing but IndexError, and only
    when one of the two lists of keys is empty; the store is then as it
    was.  On two non-empty lists it returns its 200 tasks. *)
Theorem reception_tasks_raise_only_on_empty_keys appointment_ids patient_ids s :
  (forall e s',
      generate_reception_tasks appointment_ids patient_ids s = (inl e, s') ->
      e = IndexError /\ (appointment_ids = [] \/ patient_ids = [])
      /\ conn s' = conn s)
  /\ (appointment_ids <> [] -> patient_ids <> [] ->
      exists tasks s',
        generate_reception_tasks appointment_ids patient_ids s = (inr tasks, s')
        /\ List.length tasks = 200%nat /\ conn s' = conn s).
Proof.
  split.
  - intros e s' Hrun.
    refine (@wpe_inl _
              (fun e s' => e = IndexError
                           /\ (appointment_ids = [] \/ patient_ids = [])
                           /\ conn s' = conn s)
              _ (fun _ _ => True) s e s' _ Hrun).
    apply generate_reception_tasks_wpe; [| auto].
    intros Hempty s1 [Hconn _]. auto.
  - intros Ha Hp.
    destruct (generate_reception_tasks_returns s Ha Hp)
      as (tasks & s' & Hrun & Hlen & [[Hconn _] _] & _).
    exists tasks, s'. auto.
Qed.

(** ** Batches of rows *)

Lemma number_rows_app A seq (xs ys : list A) :
  number_rows seq (xs ++ ys)
  = number_rows seq xs ++ number_rows (seq + Z.of_nat (List.length xs)) ys.
Proof.
  revert seq. induction xs as [| x tl IH]; intros seq.
  - cbn. now rewrite Z.add_0_r.
  - cbn [app number_rows List.length]. rewrite IH. cbn [app]. do 3 f_equal. lia.
Qed.

Lemma map_snd_number_rows A seq (xs : list A) : map snd (number_rows seq xs) = xs.
Proof.
  revert seq. induction xs as [| x tl IH]; intros seq; cbn; [| rewrite IH];
    reflexivity.
Qed.

Lemma with_batch_nil db : with_batch db [] [] [] [] [] = db.
Proof.
  destruct db. unfold with_batch. cbn. rewrite !app_nil_r, !Z.add_0_r. reflexivity.
Qed.

Lemma with_batch_compose db ps ths apps cans tasks ps' ths' apps' cans' tasks' :
  with_batch (with_batch db ps ths apps cans tasks) ps' ths' apps' cans' tasks'
  = with_batch db (ps ++ ps') (ths ++ ths') (apps ++ apps') (cans ++ cans')
      (tasks ++ tasks').
Proof.
  unfold with_batch. cbn. rewrite !number_rows_app, !length_app, !Nat2Z.inj_add.
  rewrite <- !app_assoc, !Z.add_assoc. reflexivity.
Qed.

Lemma apply_statements_app_eq l1 l2 db :
  apply_statements (l1 ++ l2) db
  = match apply_statements l1 db with
    | inr db1 => apply_statements l2 db1
    | inl e => inl e
    end.
Proof.
  revert db. induction l1 as [| stmt tl IH]; intros db; cbn; [reflexivity |].
  destruct (stmt db) as [e | db']; [reflexivity | apply IH].
Qed.

Lemma existsb_false_iff A (p : A -> bool) l :
  existsb p l = false <-> forall x, In x l -> p x = false.
Proof.
  split.
  - intros H x Hx. destruct (p x) eqn:Hp; [| reflexivity].
    rewrite <- H. symmetry. apply existsb_exists. eauto.
  - intros H. destruct (existsb p l) eqn:He; [| reflexivity].
    apply existsb_exists in He as (x & Hx & Hp). rewrite (H x Hx) in Hp.
    discriminate.
Qed.

Lemma insert_patient_cases p db :
  (insert_patient p db = inl IntegrityError
   /\ In (Patient.email p) (patient_emails db))
  \/ (insert_patient p db = inr (with_batch db [p] [] [] [] [])
      /\ ~ In (Patient.email p) (patient_emails db)).
Proof.
  unfold insert_patient, patient_emails.
  destruct (existsb _ (patients_table db)) eqn:He.
  - left. split; [reflexivity |].
    apply existsb_exists in He as (row & Hrow & Heq).
    apply String.eqb_eq in Heq. rewrite <- Heq. apply in_map_iff. eauto.
  - right. split.
    + unfold with_batch. cbn. rewrite !app_nil_r, !Z.add_0_r. reflexivity.
    + intros Hin. apply in_map_iff in Hin as (row & Heq & Hrow).
      rewrite existsb_false_iff in He. specialize (He row Hrow).
      apply String.eqb_neq in He. congruence.
Qed.

Lemma insert_patients_outcome ps :
  forall db,
    (apply_statements (map insert_patient ps) db = inl IntegrityError
     /\ ~ patients_fresh db ps)
    \/ (apply_statements (map insert_patient ps) db = inr (with_batch db ps [] [] [] [])
        /\ patients_fresh db ps).
Proof.
  induction ps as [| p tl IH]; intros db.
  - right. cbn. rewrite with_batch_nil. split; [reflexivity |].
    split; [constructor | intros p []].
  - cbn [map apply_statements].
    destruct (insert_patient_cases p db) as [[-> Hin] | [-> Hnew]].
    + left. split; [reflexivity |]. intros [_ Hfresh]. apply (Hfresh p); [left |]; auto.
    + assert (patient_emails (with_batch db [p] [] [] [] [])
              = patient_emails db ++ [Patient.email p]) as Hemails.
      { unfold patient_emails. cbn. now rewrite map_app. }
      destruct (IH (with_batch db [p] [] [] [] [])) as [[-> Hbad] | [-> Hgood]].
      * left. split; [reflexivity |]. intros [Hnodup Hfresh]. apply Hbad.
        cbn in Hnodup. apply NoDup_cons_iff in Hnodup as [Hnotin Hnodup].
        split; [exact Hnodup |]. intros q Hq. rewrite Hemails, in_app_iff.
        intros [Hold | [Heq | []]].
        -- apply (Hfresh q); [right |]; auto.
        -- apply Hnotin. rewrite Heq. apply in_map. exact Hq.
      * right. split.
        -- rewrite with_batch_compose. reflexivity.
        -- destruct Hgood as [Hnodup Hfresh]. split.
           ++ cbn. constructor; [| exact Hnodup]. intros Hin.
              apply in_map_iff in Hin as (q & Heq & Hq).
              apply (Hfresh q Hq). rewrite Hemails, in_app_iff. right. left. auto.
           ++ intros q [<- | Hq]; [exact Hnew |]. intros Hold.
              apply (Hfresh q Hq). rewrite Hemails, in_app_iff. auto.
Qed.

Lemma insert_therapist_cases t db :
  (insert_therapist t db = inl IntegrityError
   /\ (In (Therapist.email t) (therapist_emails db)
       \/ In (Therapist.license_number t) (therapist_licenses db)))
  \/ (insert_therapist t db = inr (with_batch db [] [t] [] [] [])
      /\ ~ In (Therapist.email t) (therapist_emails db)
      /\ ~ In (Therapist.license_number t) (therapist_licenses db)).
Proof.
  unfold insert_therapist, therapist_emails, therapist_licenses.
  destruct (existsb _ (therapists_table db)) eqn:He.
  - left. split; [reflexivity |].
    apply existsb_exists in He as (row & Hrow & Heq).
    apply orb_true_iff in Heq as [Heq | Heq].
    + left. apply String.eqb_eq in Heq. rewrite <- Heq. apply in_map_iff. eauto.
    + right. apply Z.eqb_eq in Heq. rewrite <- Heq. apply in_map_iff. eauto.
  - right. split.
    + unfold with_batch. cbn. rewrite !app_nil_r, !Z.add_0_r. reflexivity.
    + rewrite existsb_false_iff in He.
      split; intros Hin; apply in_map_iff in Hin as (row & Heq & Hrow);
        specialize (He row Hrow); apply orb_false_iff in He as [He1 He2].
      * apply String.eqb_neq in He1. congruence.
      * apply Z.eqb_neq in He2. congruence.
Qed.

Lemma insert_therapists_outcome ths :
  forall db,
    (apply_statements (map insert_therapist ths) db = inl IntegrityError
     /\ ~ therapists_fresh db ths)
    \/ (apply_statements (map insert_therapist ths) db
        = inr (with_batch db [] ths [] [] [])
        /\ therapists_fresh db ths).
Proof.
  induction ths as [| t tl IH]; intros db.
  - right. cbn. rewrite with_batch_nil. split; [reflexivity |].
    split; [constructor | split; [constructor | intros t []]].
  - cbn [map apply_statements].
    destruct (insert_therapist_cases t db) as [[-> Hin] | [-> [Hnew1 Hnew2]]].
    + left. split; [reflexivity |]. intros (_ & _ & Hfresh).
      destruct (Hfresh t (or_introl eq_refl)) as [H1 H2]. tauto.
    + assert (therapist_emails (with_batch db [] [t] [] [] [])
              = therapist_emails db ++ [Therapist.email t]) as Hemails.
      { unfold therapist_emails. cbn. now rewrite map_app. }
      assert (therapist_licenses (with_batch db [] [t] [] [] [])
              = therapist_licenses db ++ [Therapist.license_number t]) as Hlicenses.
      { unfold therapist_licenses. cbn. now rewrite map_app. }
      destruct (IH (with_batch db [] [t] [] [] [])) as [[-> Hbad] | [-> Hgood]].
      * left. split; [reflexivity |]. intros (Hnodup1 & Hnodup2 & Hfresh). apply Hbad.
        cbn in Hnodup1, Hnodup2.
        apply NoDup_cons_iff in Hnodup1 as [Hnotin1 Hnodup1].
        apply NoDup_cons_iff in Hnodup2 as [Hnotin2 Hnodup2].
        split; [exact Hnodup1 | split; [exact Hnodup2 |]]. intros q Hq.
        rewrite Hemails, Hlicenses, !in_app_iff.
        destruct (Hfresh q (or_intror Hq)) as [H1 H2].
        split; intros [Hold | [Heq | []]]; auto.
        -- apply Hnotin1. rewrite Heq. apply in_map. exact Hq.
        -- apply Hnotin2. rewrite Heq. apply in_map. exact Hq.
      * right. split.
        -- rewrite with_batch_compose. reflexivity.
        -- destruct Hgood as (Hnodup1 & Hnodup2 & Hfresh).
           split; [| split].
           ++ cbn. constructor; [| exact Hnodup1]. intros Hin.
              apply in_map_iff in Hin as (q & Heq & Hq).
              destruct (Hfresh q Hq) as [H1 _]. apply H1.
              rewrite Hemails, in_app_iff. right. left. auto.
           ++ cbn. constructor; [| exact Hnodup2]. intros Hin.
              apply in_map_iff in Hin as (q & Heq & Hq).
              destruct (Hfresh q Hq) as [_ H2]. apply H2.
              rewrite Hlicenses, in_app_iff. right. left. auto.
           ++ intros q [<- | Hq]; [auto |].
              destruct (Hfresh q Hq) as [H1 H2].
              rewrite Hemails, Hlicenses, !in_app_iff in *. tauto.
Qed.

Lemma insert_appointments_outcome apps :
  forall db,
    apply_statements (map insert_appointment apps) db
    = inr (with_batch db [] [] apps [] []).
Proof.
  induction apps as [| a tl IH]; intros db; cbn [map apply_statements].
  - now rewrite with_batch_nil.
  - unfold insert_appointment at 1. rewrite IH.
    replace (mkDatabase _ _ _ _ _ _ _ _ _ _ _ _) with (with_batch db [] [] [a] [] []).
    + now rewrite with_batch_compose.
    + unfold with_batch. cbn. rewrite !app_nil_r, !Z.add_0_r. reflexivity.
Qed.

Lemma insert_cancellations_outcome cans :
  forall db,
    apply_statements (map insert_cancellation cans) db
    = inr (with_batch db [] [] [] cans []).
Proof.
  induction cans as [| c tl IH]; intros db; cbn [map apply_statements].
  - now rewrite with_batch_nil.
  - unfold insert_cancellation at 1. rewrite IH.
    replace (mkDatabase _ _ _ _ _ _ _ _ _ _ _ _) with (with_batch db [] [] [] [c] []).
    + now rewrite with_batch_compose.
    + unfold with_batch. cbn. rewrite !app_nil_r, !Z.add_0_r. reflexivity.
Qed.

Lemma insert_reception_tasks_outcome tasks :
  forall db,
    apply_statements (map insert_reception_task tasks) db
    = inr (with_batch db [] [] [] [] tasks).
Proof.
  induction tasks as [| t tl IH]; intros db; cbn [map apply_statements].
  - now rewrite with_batch_nil.
  - unfold insert_reception_task at 1. rewrite IH.
    replace (mkDatabase _ _ _ _ _ _ _ _ _ _ _ _) with (with_batch db [] [] [] [] [t]).
    + now rewrite with_batch_compose.
    + unfold with_batch. cbn. rewrite !app_nil_r, !Z.add_0_r. reflexivity.
Qed.

(** The statements of a batch succeed exactly when its patients and its
    therapists are fresh; they fail with IntegrityError otherwise. *)
Lemma batch_statements_outcome ps ths apps cans tasks db :
  (apply_statements (batch_statements ps ths apps cans tasks) db = inl IntegrityError
   /\ ~ (patients_fresh db ps /\ therapists_fresh db ths))
  \/ (apply_statements (batch_statements ps ths apps cans tasks) db
      = inr (with_batch db ps ths apps cans tasks)
      /\ patients_fresh db ps /\ therapists_fresh db ths).
Proof.
  unfold batch_statements. rewrite apply_statements_app_eq.
  destruct (insert_patients_outcome ps db) as [[-> Hbad] | [-> Hps]].
  { left. split; [reflexivity | tauto]. }
  rewrite apply_statements_app_eq.
  assert (forall P, therapists_fresh (with_batch db ps [] [] [] []) ths = P ->
                    therapists_fresh db ths = P) as Hsame.
  { intros P <-. unfold therapists_fresh, therapist_emails, therapist_licenses.
    cbn. now rewrite app_nil_r. }
  destruct (insert_therapists_outcome ths (with_batch db ps [] [] [] []))
    as [[-> Hbad] | [-> Hths]].
  { left. split; [reflexivity |]. rewrite (Hsame _ eq_refl). tauto. }
  right. rewrite (Hsame _ eq_refl). split; [| auto].
  rewrite apply_statements_app_eq, insert_appointments_outcome.
  rewrite apply_statements_app_eq, insert_cancellations_outcome.
  rewrite insert_reception_tasks_outcome.
  rewrite !with_batch_compose, !app_nil_r. reflexivity.
Qed.

(** ** Writing a batch *)

Lemma bind_ext A B (m : Mon A) (f g : A -> Mon B) s :
  (forall a s', f a s' = g a s') -> bind m f s = bind m g s.
Proof.
  intros H. unfold bind. destruct (m s) as [[e | a] s']; [reflexivity | apply H].
Qed.

Lemma for_each_map_bind A B (f : A -> Database -> exn + Database) xs (k : Mon B) :
  forall s,
    bind (for_each (fun x => execute (f x)) xs) (fun _ => k) s
    = bind (for_each execute (map f xs)) (fun _ => k) s.
Proof.
  induction xs as [| x tl IH]; intros s; cbn [for_each map]; [reflexivity |].
  unfold bind in *. destruct (execute (f x) s) as [[e | []] s1]; [reflexivity |].
  apply IH.
Qed.

Lemma for_each_app_bind A B (body : A -> Mon unit) l1 l2 (k : Mon B) :
  forall s,
    bind (for_each body (l1 ++ l2)) (fun _ => k) s
    = bind (for_each body l1) (fun _ => bind (for_each body l2) (fun _ => k)) s.
Proof.
  induction l1 as [| x tl IH]; intros s; cbn [for_each app]; [reflexivity |].
  unfold bind in *. destruct (body x s) as [[e | []] s1]; [reflexivity |].
  apply IH.
Qed.

(** The five loops of [insert_data_to_database] are one loop over the
    statements of the batch. *)
Lemma insert_data_to_database_run ps ths apps cans tasks s :
  insert_data_to_database ps ths apps cans tasks s
  = try_except
      (for_each execute (batch_statements ps ths apps cans tasks) ;;; commit)
      (fun e => rollback ;;; raise e) s.
Proof.
  unfold insert_data_to_database, try_except, batch_statements.
  assert (forall B (k k' : Mon B) A (f : A -> Database -> exn + Database) xs l s0,
             (forall s1, k s1 = bind (for_each execute l) (fun _ => k') s1) ->
             bind (for_each (fun x => execute (f x)) xs) (fun _ => k) s0
             = bind (for_each execute (map f xs ++ l)) (fun _ => k') s0) as Hstep.
  { intros B k k' A f xs l s0 Hk.
    rewrite for_each_map_bind, for_each_app_bind. apply bind_ext.
    intros _ s1. apply Hk. }
  erewrite Hstep; [reflexivity |]. intros s1.
  erewrite Hstep; [reflexivity |]. intros s2.
  erewrite Hstep; [reflexivity |]. intros s3.
  erewrite Hstep; [reflexivity |]. intros s4.
  apply for_each_map_bind.
Qed.

Lemma for_each_execute_outcome stmts db0 :
  forall s,
    committed (conn s) = db0 ->
    wpe (fun e s' =>
           committed (conn s') = db0
           /\ ((e = OperationalError
                /\ io_fails_within s (N.of_nat (List.length stmts)))
               \/ apply_statements stmts (working (conn s)) = inl e))
      (for_each execute stmts)
      (fun _ s' =>
         committed (conn s') = db0
         /\ xpos s' = (xpos s + N.of_nat (List.length stmts))%N
         /\ (forall k, (xpos s <= k < xpos s')%N -> io_error k = false)
         /\ apply_statements stmts (working (conn s)) = inr (working (conn s')))
      s.
Proof.
  induction stmts as [| stmt tl IH]; intros s Hs;
    cbn [for_each apply_statements List.length].
  - apply wpe_ret. split; [exact Hs |]. split; [cbn; lia |].
    split; [intros k Hk; lia | reflexivity].
  - unfold io_fails_within.
    apply wpe_bind, wpe_execute.
    + intros Hio. split; [exact Hs |]. left. split; [reflexivity |].
      exists (xpos s). split; [lia | exact Hio].
    + intros e Hio Hstmt. split; [exact Hs |]. right. now rewrite Hstmt.
    + intros db' Hio Hstmt. rewrite Hstmt.
      eapply wpe_mono; [apply IH; exact Hs | |]; cbv beta;
        unfold io_fails_within; st_simpl.
      * intros e s' [Hc [[He (k & Hk & Hfail)] | Hfail]].
        -- split; [exact Hc |]. left. split; [exact He |]. exists k.
           split; [lia | exact Hfail].
        -- split; [exact Hc |]. right. exact Hfail.
      * intros _ s' (Hc & Hpos & Hnone & Hw).
        split; [exact Hc |]. split; [lia |]. split; [| exact Hw].
        intros k Hk. destruct (N.eq_dec k (xpos s)) as [-> | Hne]; [exact Hio |].
        apply Hnone. lia.
Qed.

(** What a call of [insert_data_to_database] does, by its outcome: [writes]
    counts the INSERT statements of the batch and the commit. *)
Lemma insert_data_to_database_outcome ps ths apps cans tasks s :
  let stmts := batch_statements ps ths apps cans tasks in
  let writes := (N.of_nat (List.length stmts) + 1)%N in
  wpe (fun e s' =>
         conn s' = connect (committed (conn s))
         /\ ((e = OperationalError /\ io_fails_within s writes)
             \/ apply_statements stmts (working (conn s)) = inl e))
    (insert_data_to_database ps ths apps cans tasks)
    (fun _ s' =>
       (forall k, (xpos s <= k < xpos s + writes)%N -> io_error k = false)
       /\ xpos s' = (xpos s + writes)%N
       /\ exists db', apply_statements stmts (working (conn s)) = inr db'
                      /\ conn s' = connect db')
    s.
Proof.
  intros stmts writes.
  eapply wpe_ext; [apply insert_data_to_database_run |]. fold stmts.
  apply wpe_try_except, wpe_bind.
  assert (forall e s',
             committed (conn s') = committed (conn s) ->
             (e = OperationalError /\ io_fails_within s writes)
             \/ apply_statements stmts (working (conn s)) = inl e ->
             wpe (fun e s'' =>
                    conn s'' = connect (committed (conn s))
                    /\ ((e = OperationalError /\ io_fails_within s writes)
                        \/ apply_statements stmts (working (conn s)) = inl e))
               (rollback ;;; raise e)
               (fun (_ : unit) s'' =>
                  (forall k, (xpos s <= k < xpos s + writes)%N -> io_error k = false)
                  /\ xpos s'' = (xpos s + writes)%N
                  /\ exists db', apply_statements stmts (working (conn s)) = inr db'
                                 /\ conn s'' = connect db') s') as Hhandler.
  { intros e s' Hs' He. apply wpe_bind, wpe_rollback, wpe_raise. cbn.
    rewrite Hs'. auto. }
  eapply wpe_mono; [apply for_each_execute_outcome; reflexivity | |]; cbv beta.
  - intros e s' [Hc [[He (k & Hk & Hfail)] | Hfail]]; apply Hhandler; auto.
    left. split; [exact He |]. exists k. split; [unfold writes; lia | exact Hfail].
  - intros _ s1 (Hc & Hpos & Hnone & Hw). apply wpe_commit.
    + intros Hio. apply Hhandler; [exact Hc |]. left. split; [reflexivity |].
      exists (xpos s1). split; [unfold writes; lia | exact Hio].
    + intros Hio. st_simpl. split; [| split].
      * intros k Hk. destruct (N.eq_dec k (xpos s1)) as [-> | Hne]; [exact Hio |].
        apply Hnone. unfold writes in Hk. lia.
      * unfold writes. lia.
      * exists (working (conn s1)). auto.
Qed.

Lemma length_batch_statements ps ths apps cans tasks :
  List.length (batch_statements ps ths apps cans tasks)
  = (List.length ps + List.length ths + List.length apps + List.length cans
     + List.length tasks)%nat.
Proof.
  unfold batch_statements. rewrite !length_app, !length_map. lia.
Qed.

(** The theorems on [insert_data_to_database] below are stated for calls
    whose list of appointments is empty, as the first call of a run is.  The
    INSERT of an appointment binds [appointment_time], a [datetime.time]
    value, for which sqlite3 has no adapter unless one is registered (this
    repository registers none); [insert_appointment] assumes that the value
    is accepted, so a statement about a call that stores appointments would
    rest on that assumption. *)

(** X13. When a call of [insert_data_to_database] without appointments
    returns, the store holds what the connection saw before the call with
    the batch appended: every record is a new last row of its table under
    the next AUTOINCREMENT key, in the order of the lists; no earlier row is
    changed and the treatments are untouched.  The e-mail addresses of the
    inserted patients, and the e-mail addresses and licence numbers of the
    inserted therapists, are then pairwise distinct and were not in the
    store; and the storage layer failed none of the writes of the call. *)
Theorem stored_batch_is_appended_under_new_keys ps ths cans tasks s s' :
  insert_data_to_database ps ths [] cans tasks s = (inr tt, s') ->
  let db := working (conn s) in
  conn s' = connect (with_batch db ps ths [] cans tasks)
  /\ treatments_table (committed (conn s')) = treatments_table db
  /\ appointments_table (committed (conn s')) = appointments_table db
  /\ patients_table (committed (conn s'))
     = patients_table db ++ number_rows (patients_seq db) ps
  /\ patients_fresh db ps
  /\ therapists_fresh db ths
  /\ (forall k, (xpos s <= k < xpos s')%N -> io_error k = false)
  /\ xpos s'
     = (xpos s
        + N.of_nat (List.length ps + List.length ths + List.length cans
                    + List.length tasks) + 1)%N.
Proof.
  intros Hrun db.
  pose proof (insert_data_to_database_outcome ps ths [] cans tasks s) as Hw.
  eapply wpe_inr in Hw; [| exact Hrun]. cbv beta zeta in Hw.
  destruct Hw as (Hnone & Hpos & db' & Hdb' & Hconn).
  rewrite length_batch_statements in Hpos, Hnone. fold db in Hdb'.
  cbn [List.length] in Hpos, Hnone.
  destruct (batch_statements_outcome ps ths [] cans tasks db)
    as [[Hbad _] | (Hgood & Hps & Hths)]; [congruence |].
  assert (db' = with_batch db ps ths [] cans tasks) as -> by congruence.
  split; [exact Hconn |]. split; [rewrite Hconn; reflexivity |].
  split; [rewrite Hconn; cbn; apply app_nil_r |].
  split; [rewrite Hconn; reflexivity |].
  split; [exact Hps | split; [exact Hths |]].
  split; [| lia]. intros k Hk. apply Hnone. lia.
Qed.



(** ** A whole run *)






(** ** database.py: the sample catalog *)

Lemma insert_or_ignore_treatment_cases db t :
  (In (Treatment.treatment_code t) (treatment_codes db)
   /\ insert_or_ignore_treatment db t = db)
  \/ (~ In (Treatment.treatment_code t) (treatment_codes db)
      /\ insert_or_ignore_treatment db t
         = mkDatabase
             (patients_table db) (therapists_table db)
             (treatments_table db ++ [(treatments_seq db + 1, t)])
             (appointments_table db) (cancellations_table db)
             (reception_tasks_table db)
             (patients_seq db) (therapists_seq db) (treatments_seq db + 1)
             (appointments_seq db) (cancellations_seq db) (reception_tasks_seq db)).
Proof.
  unfold insert_or_ignore_treatment, treatment_codes.
  destruct (existsb _ (treatments_table db)) eqn:He.
  - left. split; [| reflexivity].
    apply existsb_exists in He as (row & Hrow & Heq).
    apply String.eqb_eq in Heq. rewrite <- Heq. apply in_map_iff. eauto.
  - right. split; [| reflexivity].
    intros Hin. apply in_map_iff in Hin as (row & Heq & Hrow).
    rewrite existsb_false_iff in He. specialize (He row Hrow).
    apply String.eqb_neq in He. congruence.
Qed.

Lemma NoDup_snoc A (l : list A) x : NoDup l -> ~ In x l -> NoDup (l ++ [x]).
Proof.
  induction 1 as [| y l Hy Hl IH]; cbn; intros Hx.
  - constructor; [auto | constructor].
  - constructor.
    + rewrite in_app_iff. cbn. intros [Hin | [Heq | []]]; [auto |].
      apply Hx. left. congruence.
    + apply IH. intros Hin. apply Hx. right. exact Hin.
Qed.

(** What installing a list of treatments keeps and adds. *)
Lemma install_treatments_outcome ts :
  forall db,
    let db' := fold_left insert_or_ignore_treatment ts db in
    patients_table db' = patients_table db
    /\ therapists_table db' = therapists_table db
    /\ appointments_table db' = appointments_table db
    /\ cancellations_table db' = cancellations_table db
    /\ reception_tasks_table db' = reception_tasks_table db
    /\ (exists added,
           treatments_table db' = treatments_table db ++ added
           /\ (List.length added <= List.length ts)%nat
           /\ forall row, In row added -> In (snd row) ts)
    /\ (forall code, In code (treatment_codes db) -> In code (treatment_codes db'))
    /\ (forall t, In t ts -> In (Treatment.treatment_code t) (treatment_codes db'))
    /\ (NoDup (treatment_codes db) -> NoDup (treatment_codes db')).
Proof.
  induction ts as [| t tl IH]; intros db; cbn [fold_left].
  - cbv zeta. repeat (split; [reflexivity |]).
    split; [exists []; rewrite app_nil_r; cbn; split; [reflexivity | split; [lia |]];
            intros row [] |].
    split; [auto | split; [intros t [] | auto]].
  - specialize (IH (insert_or_ignore_treatment db t)). cbv zeta in *.
    destruct IH as (H1 & H2 & H3 & H4 & H5 & (added & Hadded & Hlen & Hfrom)
                    & Hold & Hnew & Hnodup).
    destruct (insert_or_ignore_treatment_cases db t) as [[Hin Heq] | [Hnotin Heq]];
      rewrite Heq in *; clear Heq.
    + repeat (split; [assumption |]).
      split; [exists added; split; [exact Hadded | split; [cbn; lia |]];
              intros row Hrow; right; auto |].
      split; [exact Hold | split; [| exact Hnodup]].
      intros t' [<- | Ht']; auto.
    + cbn [patients_table therapists_table appointments_table cancellations_table
             reception_tasks_table treatments_table] in *.
      repeat (split; [assumption |]).
      assert (forall code,
                 In code (treatment_codes db)
                 \/ code = Treatment.treatment_code t ->
                 In code
                   (treatment_codes
                      (mkDatabase
                         (patients_table db) (therapists_table db)
                         (treatments_table db ++ [(treatments_seq db + 1, t)])
                         (appointments_table db) (cancellations_table db)
                         (reception_tasks_table db)
                         (patients_seq db) (therapists_seq db) (treatments_seq db + 1)
                         (appointments_seq db) (cancellations_seq db)
                         (reception_tasks_seq db)))) as Hgrow.
      { intros code Hcode. unfold treatment_codes in *. cbn. rewrite map_app.
        apply in_or_app. cbn. destruct Hcode as [Hcode | ->]; auto. }
      split; [| split; [| split]].
      * exists ((treatments_seq db + 1, t) :: added).
        split; [rewrite Hadded, <- app_assoc; reflexivity |].
        split; [cbn; lia |]. intros row [<- | Hrow]; [left | right]; auto.
      * intros code Hcode. apply Hold, Hgrow. auto.
      * intros t' [<- | Ht']; [apply Hold, Hgrow; auto | auto].
      * intros Hnd. apply Hnodup. unfold treatment_codes in *. cbn.
        rewrite map_app. cbn. apply NoDup_snoc; auto.
Qed.


Lemma insert_sample_treatments_eq db :
  insert_sample_treatments db
  = fold_left insert_or_ignore_treatment sample_treatments db.
Proof. reflexivity. Qed.


(** X18. [insert_sample_treatments] leaves the patients, therapists,
    appointments, cancellations and tasks as they are, keeps every treatment
    row the store had and appends at most ten rows, each a sample treatment;
    afterwards the ten sample codes are all in the store, which is therefore
    not empty, and the treatment codes are still pairwise distinct if they
    were before. *)
Theorem sample_catalog_only_adds_missing_treatments db :
  let db' := insert_sample_treatments db in
  patients_table db' = patients_table db
  /\ therapists_table db' = therapists_table db
  /\ appointments_table db' = appointments_table db
  /\ cancellations_table db' = cancellations_table db
  /\ reception_tasks_table db' = reception_tasks_table db
  /\ (exists added,
         treatments_table db' = treatments_table db ++ added
         /\ (List.length added <= 10)%nat
         /\ forall row, In row added -> In (snd row) sample_treatments)
  /\ (forall t, In t sample_treatments ->
                In (Treatment.treatment_code t) (treatment_codes db'))
  /\ treatments_table db' <> []
  /\ (NoDup (treatment_codes db) -> NoDup (treatment_codes db')).
Proof.
  pose proof (install_treatments_outcome sample_treatments db) as Hinstall.
  cbv zeta in *. rewrite <- insert_sample_treatments_eq in Hinstall.
  revert Hinstall. generalize (insert_sample_treatments db). intros db' Hinstall.
  destruct Hinstall as (H1 & H2 & H3 & H4 & H5 & Hadded & _ & Hnew & Hnodup).
  split; [exact H1 | split; [exact H2 | split; [exact H3 | split; [exact H4 |]]]].
  split; [exact H5 | split; [exact Hadded | split; [exact Hnew |]]].
  split; [| exact Hnodup].
  assert (In (Treatment.treatment_code
                (Treatment.mk "Initial Assessment" "ASSESS-001" 60 8500
                   "Comprehensive initial evaluation and treatment planning" false
                   Assessment))
            (treatment_codes db')) as Hfirst
    by (apply Hnew; left; reflexivity).
  unfold treatment_codes in Hfirst.
  intros Hnil. rewrite Hnil in Hfirst. destruct Hfirst.
Qed.


Lemma run_outcome_with_batch db r c :
  run_outcome db r c ->
  exists ps ths apps cans tasks, c = connect (with_batch db ps ths apps cans tasks).
Proof.
  intros [e | e db1 (ps & ths & _ & _ & H1)
          | r' db1 db2 (ps & ths & _ & _ & H1) (apps & cans & tasks & _ & _ & H2)].
  - exists [], [], [], [], []. now rewrite with_batch_nil.
  - exists ps, ths, [], [], [].
    destruct (batch_statements_outcome ps ths [] [] [] db) as [[Hbad _] | [Hgood _]];
      congruence.
  - exists ps, ths, apps, cans, tasks.
    destruct (batch_statements_outcome ps ths [] [] [] db) as [[Hbad _] | [Hgood _]];
      [congruence |].
    assert (db1 = with_batch db ps ths [] [] []) as -> by congruence.
    destruct (batch_statements_outcome [] [] apps cans tasks
                (with_batch db ps ths [] [] [])) as [[Hbad _] | [Hgood2 _]];
      [congruence |].
    rewrite with_batch_compose, !app_nil_r in Hgood2. cbn [app] in Hgood2.
    congruence.
Qed.

(** X19. Whatever its outcome, a run of [generate_all_data] only appends:
    the store it leaves is the store it started on with records added at
    the end of the tables of patients, therapists, appointments,
    cancellations and tasks, under new keys.  No row is deleted or changed,
    and the treatments table and its key counter are never written. *)
Theorem run_only_appends self db s r s' :
  conn s = connect db ->
  generate_all_data self s = (r, s') ->
  (exists ps ths apps cans tasks,
      conn s' = connect (with_batch db ps ths apps cans tasks))
  /\ treatments_table (committed (conn s')) = treatments_table db
  /\ treatments_seq (committed (conn s')) = treatments_seq db
  /\ (forall row, In row (patients_table db) ->
                  In row (patients_table (committed (conn s'))))
  /\ (forall row, In row (therapists_table db) ->
                  In row (therapists_table (committed (conn s'))))
  /\ (forall row, In row (appointments_table db) ->
                  In row (appointments_table (committed (conn s'))))
  /\ (forall row, In row (cancellations_table db) ->
                  In row (cancellations_table (committed (conn s'))))
  /\ (forall row, In row (reception_tasks_table db) ->
                  In row (reception_tasks_table (committed (conn s')))).
Proof.
  intros Hs Hrun.
  pose proof (@generate_all_data_wpe self db s Hs) as Hw.
  assert (run_outcome db r (conn s')) as Hout.
  { destruct r as [e | []].
    - eapply wpe_inl in Hw; [exact Hw | exact Hrun].
    - eapply wpe_inr in Hw; [exact Hw | exact Hrun]. }
  apply run_outcome_with_batch in Hout as (ps & ths & apps & cans & tasks & Hconn).
  split; [eauto 6 |]. rewrite Hconn. cbn [committed connect with_batch
    treatments_table treatments_seq patients_table therapists_table
    appointments_table cancellations_table reception_tasks_table].
  split; [reflexivity | split; [reflexivity |]].
  repeat split; intros row Hrow; apply in_or_app; left; exact Hrow.
Qed.




(** ** data_access.py: indicators of the read side *)

(** X21. The week over which [get_real_time_kpis] sums the revenue starts
    on the Monday of the current week: [week_start] is a Monday, is not
    after today and is at most six days before it. *)
Theorem week_starts_on_monday today :
  weekday (week_start today) = 0
  /\ today - 6 <= week_start today <= today
  /\ (weekday today = 0 -> week_start today = today).
Proof.
  unfold week_start, weekday.
  pose proof (Z.mod_pos_bound (today + 6) 7 ltac:(lia)) as Hbound.
  pose proof (Z.div_mod (today + 6) 7 ltac:(lia)) as Hdiv.
  split; [| split; [lia | intros ->; lia]].
  replace (today - (today + 6) mod 7 + 6) with (((today + 6) / 7) * 7) by lia.
  apply Z.mod_mul. lia.
Qed.

Lemma count_status_bounds status rows :
  0 <= count_status status rows <= Z.of_nat (List.length rows).
Proof.
  unfold count_status. pose proof (filter_length_le
    (fun row : Z * Appointment.t => status_eqb (Appointment.status (snd row)) status)
    rows). lia.
Qed.

Lemma count_status_partition rows :
  Z.of_nat (List.length rows)
  = count_status Completed rows + count_status Cancelled rows
    + count_status NoShow rows + count_status Scheduled rows
    + count_status InProgress rows.
Proof.
  unfold count_status. induction rows as [| [key a] tl IH]; [reflexivity |].
  cbn [filter List.length snd]. destruct (Appointment.status a); cbn [status_eqb List.length];
    lia.
Qed.

(** X22. In the counts of today of [get_real_time_kpis], every appointment
    of the day is counted once in the total and at most once among the
    completed, cancelled and no-show ones: the three counts add up to the
    total less the appointments of the day that are still scheduled or in
    progress, and the total is at most the number of appointments. *)
Theorem today_counts_add_up rows today :
  let '(total, completed, cancelled, noshow) := today_stats rows today in
  let day :=
    filter (fun row => Appointment.appointment_date (snd row) =? today) rows in
  0 <= completed /\ 0 <= cancelled /\ 0 <= noshow
  /\ completed + cancelled + noshow
     = total - count_status Scheduled day - count_status InProgress day
  /\ completed + cancelled + noshow <= total
  /\ total <= Z.of_nat (List.length rows).
Proof.
  unfold today_stats. cbv zeta.
  set (day := filter _ rows).
  pose proof (count_status_bounds Completed day).
  pose proof (count_status_bounds Cancelled day).
  pose proof (count_status_bounds NoShow day).
  pose proof (count_status_bounds Scheduled day).
  pose proof (count_status_bounds InProgress day).
  pose proof (count_status_partition day).
  pose proof (filter_length_le
                (fun row : Z * Appointment.t =>
                   Appointment.appointment_date (snd row) =? today) rows).
  fold day in H5. lia.
Qed.

Lemma round_div_bounds num den :
  0 < den -> 0 <= num <= den * 10000 -> 0 <= round_div num den <= 10000.
Proof.
  intros Hden Hnum. unfold round_div. destruct (Z.leb_spec 0 num); [| lia].
  split.
  - apply Z.div_pos; lia.
  - apply Z.lt_succ_r, Z.div_lt_upper_bound; lia.
Qed.

(** X23. The 30-day cancellation rate of [get_real_time_kpis] lies between
    0 and 100 per cent; it is 0 when no appointment is selected (the
    division by the empty count gives NULL, read as 0) and 100 when every
    selected appointment is cancelled.  The selection has no upper bound:
    every appointment dated 30 days back or later counts, future ones
    included. *)
Theorem cancellation_rate_is_a_percentage rows today :
  let recent :=
    filter (fun row => today - 30 <=? Appointment.appointment_date (snd row)) rows in
  0 <= cancellation_rate_30d rows today <= 10000
  /\ (recent = [] -> cancellation_rate_30d rows today = 0)
  /\ (recent <> [] ->
      (forall row, In row recent -> Appointment.status (snd row) = Cancelled) ->
      cancellation_rate_30d rows today = 10000)
  /\ (forall row,
         In row rows -> today <= Appointment.appointment_date (snd row) ->
         In row recent).
Proof.
  intros recent. unfold cancellation_rate_30d. fold recent.
  pose proof (count_status_bounds Cancelled recent) as Hcount.
  split; [| split; [| split]].
  - destruct (Z.eqb_spec (Z.of_nat (List.length recent)) 0); [lia |].
    apply round_div_bounds; lia.
  - intros ->. reflexivity.
  - intros Hne Hall.
    destruct (Z.eqb_spec (Z.of_nat (List.length recent)) 0) as [Hzero | Hpos].
    { destruct recent; [contradiction | discriminate]. }
    assert (count_status Cancelled recent = Z.of_nat (List.length recent)) as ->.
    { unfold count_status. do 2 f_equal. apply forallb_filter_id.
      apply forallb_forall. intros row Hrow. apply status_eqb_eq. auto. }
    unfold round_div. destruct (Z.leb_spec 0 (Z.of_nat (List.length recent) * 10000));
      [| lia].
    symmetry. apply Z.div_unique with (r := Z.of_nat (List.length recent)); lia.
  - intros row Hrow Hdate. apply filter_In. split; [exact Hrow |].
    apply Z.leb_le. lia.
Qed.

(** X24. For every appointment returned by [generate_appointments], the
    column [days_booked_in_advance] of [get_cancellation_features], which
    counts from the midnight of the appointment date, gives the number of
    days of the booking lead when the appointment is at 12:00 or earlier,
    and one day less when it is later; so it lies between 0 and 14. *)
Theorem days_booked_in_advance_of_generated_appointments
    self pids thids trids n s apps cans s' :
  generate_appointments self pids thids trids n s = (inr (apps, cans), s') ->
  forall a,
    In a apps ->
    exists lead,
      1 <= lead <= 14
      /\ Appointment.booking_date a = Appointment.datetime a - timedelta_days lead
      /\ let days :=
           days_booked_in_advance (Appointment.appointment_date a)
             (Appointment.booking_date a) in
         (Appointment.appointment_time a <= timedelta_hours 12 -> days = lead)
         /\ (timedelta_hours 12 < Appointment.appointment_time a -> days = lead - 1)
         /\ 0 <= days <= 14.
Proof.
  intros Hrun a Ha.
  pose proof (generate_appointments_details _ _ _ _ _ _ Hrun) as [Hall _].
  rewrite Forall_forall in Hall.
  destruct (Hall a Ha) as (_ & Htime & (lead & Hlead & Hbooking) & _).
  apply business_time_bounds in Htime. destruct Htime as [[Hlow Hhigh] _].
  exists lead. split; [exact Hlead | split; [exact Hbooking |]].
  cbv zeta. unfold days_booked_in_advance. rewrite Hbooking.
  unfold Appointment.datetime, combine, timedelta_days.
  set (t := Appointment.appointment_time a) in *.
  set (d := Appointment.appointment_date a).
  replace (d * us_per_day - (d * us_per_day + t - lead * us_per_day))
    with (lead * us_per_day - t) by lia.
  unfold timedelta_hours, timedelta_minutes, us_per_hour, us_per_minute in Hlow, Hhigh.
  assert (us_per_day = 86400000000) as Hday by reflexivity.
  unfold timedelta_hours, us_per_hour, us_per_minute. rewrite Hday.
  unfold round_div.
  destruct (Z.leb_spec 0 (lead * 86400000000 - t)) as [_ | Hneg]; [| lia].
  assert (t <= 12 * (60 * 60000000) ->
          (2 * (lead * 86400000000 - t) + 86400000000) / (2 * 86400000000) = lead)
    as Hmorning.
  { intros Hle. symmetry.
    apply Z.div_unique with (r := 86400000000 - 2 * t); lia. }
  assert (12 * (60 * 60000000) < t ->
          (2 * (lead * 86400000000 - t) + 86400000000) / (2 * 86400000000) = lead - 1)
    as Hafternoon.
  { intros Hlt. symmetry.
    apply Z.div_unique with (r := 3 * 86400000000 - 2 * t); lia. }
  split; [exact Hmorning | split; [exact Hafternoon |]].
  destruct (Z.le_gt_cases t (12 * (60 * 60000000))) as [Hle | Hgt].
  - rewrite (Hmorning Hle). lia.
  - rewrite (Hafternoon ltac:(lia)). lia.
Qed.

End Generator.

(** * Concrete runs of the generator *)

(** [self0] and [after_init] are what [__init__] produces under [clock0]. *)
Lemma init_run db : init clock0 (start db) = (inr self0, after_init db).
Proof. reflexivity. Qed.


(** Evaluates the run [m] once and records its value in [H]. *)
Ltac evaluate_run m H :=
  pose proof (eq_refl m) as H;
  match type of H with
  | _ = ?rhs => let v := fresh "v" in
                set (v := rhs) in H at 2; vm_compute in v; subst v
  end.

(** Two appointments: the first is placed at 14:00 on the day of
    generation, after the clock reading of 10:00, and is Scheduled; the
    second lies in the past and gets its status from the weighted draw. *)
Lemma future_appointments_are_scheduled_witness :
  exists a1 a2 cans s',
    generate_appointments (rand_of_list draws_future) clock0 fake0 self0
      [1; 2; 3] [1; 2] [1; 2; 3] 2 (start fresh_store)
    = (inr ([a1; a2], cans), s')
    /\ clock0 0 < Appointment.datetime a1
    /\ Appointment.status a1 = Scheduled
    /\ Appointment.datetime a2 <= clock0 1
    /\ In (Appointment.status a2) [Completed; Cancelled; NoShow; Scheduled].
Proof.
  evaluate_run
    (generate_appointments (rand_of_list draws_future) clock0 fake0 self0
       [1; 2; 3] [1; 2] [1; 2; 3] 2 (start fresh_store)) Hrun.
  do 4 eexists. split; [exact Hrun |].
  pose proof (future_appointments_are_scheduled _ _ _ _ _ _ _ _ _ Hrun) as H.
  destruct (H 0%nat _ eq_refl) as (_ & Hfuture & _).
  destruct (H 1%nat _ eq_refl) as ([[Hlt _] | [Hle Hin]] & _ & _).
  - vm_compute in Hlt. discriminate.
  - split; [reflexivity |]. split; [apply Hfuture; reflexivity |].
    split; [exact Hle | exact Hin].
Defined.

(** Sixty appointments over the sample catalog: ten cancellations, one for
    each cancelled appointment. *)
Lemma cancellations_one_to_one_witness :
  exists apps cans s',
    generate_appointments rand0 clock0 fake0 self0
      [1; 2; 3] [1; 2] [1; 2; 3; 4; 5; 6; 7; 8; 9; 10] 60 (start fresh_store)
    = (inr (apps, cans), s')
    /\ List.length cans = 10%nat
    /\ map Cancellation.appointment_id cans
       = map Appointment.appointment_id (filter is_cancelled apps)
    /\ forall c, In c cans ->
                 exists a, In a apps
                           /\ Appointment.appointment_id a = Cancellation.appointment_id c
                           /\ Appointment.status a = Cancelled.
Proof.
  evaluate_run
    (generate_appointments rand0 clock0 fake0 self0
       [1; 2; 3] [1; 2] [1; 2; 3; 4; 5; 6; 7; 8; 9; 10] 60 (start fresh_store)) Hrun.
  do 3 eexists. split; [exact Hrun |].
  destruct (cancellations_one_to_one _ _ _ _ _ _ _ _ _ Hrun)
    as (_ & Hkeys & _ & Hrefers).
  split; [reflexivity | split; [exact Hkeys | exact Hrefers]].
Defined.


(** Sixty appointments: ten cancellations, two of them with a refund
    of 25.00, both with more than 24 hours of notice. *)
Lemma refund_only_with_a_day_of_notice_witness :
  exists apps cans s',
    generate_appointments rand0 clock0 fake0 self0
      [1; 2; 3] [1; 2] [1; 2; 3; 4; 5; 6; 7; 8; 9; 10] 60 (start fresh_store)
    = (inr (apps, cans), s')
    /\ map (fun c => (Cancellation.hours_before_appointment c,
                      Cancellation.refund_issued c, Cancellation.refund_amount c))
         cans
       = [ (66, true, 2500); (1, false, 0); (1, false, 0); (1, false, 0);
           (2, false, 0); (2, false, 0); (1, false, 0); (84, true, 2500);
           (16, false, 0); (33, false, 0) ]
    /\ forall c, In c cans ->
                 Cancellation.refund_issued c = true ->
                 24 <= Cancellation.hours_before_appointment c.
Proof.
  evaluate_run
    (generate_appointments rand0 clock0 fake0 self0
       [1; 2; 3] [1; 2] [1; 2; 3; 4; 5; 6; 7; 8; 9; 10] 60 (start fresh_store)) Hrun.
  do 3 eexists. split; [exact Hrun |]. split; [reflexivity |].
  intros c Hc.
  destruct (refund_only_with_a_day_of_notice _ _ _ _ _ _ _ _ _ Hrun) as [Hall _].
  apply (Hall c Hc).
Defined.

(** Sixty appointments: each of the ten cancellations is dated at least one
    hour before the slot of its appointment. *)
Lemma cancellation_precedes_appointment_witness :
  exists apps cans s',
    generate_appointments rand0 clock0 fake0 self0
      [1; 2; 3] [1; 2] [1; 2; 3; 4; 5; 6; 7; 8; 9; 10] 60 (start fresh_store)
    = (inr (apps, cans), s')
    /\ List.length cans = 10%nat
    /\ forall c,
        In c cans ->
        1 <= Cancellation.hours_before_appointment c <= 168
        /\ exists a,
            In a apps
            /\ Appointment.appointment_id a = Cancellation.appointment_id c
            /\ Cancellation.cancellation_date c
               = Appointment.datetime a
                 - timedelta_hours (Cancellation.hours_before_appointment c)
            /\ Cancellation.cancellation_date c + timedelta_hours 1
               <= Appointment.datetime a.
Proof.
  evaluate_run
    (generate_appointments rand0 clock0 fake0 self0
       [1; 2; 3] [1; 2] [1; 2; 3; 4; 5; 6; 7; 8; 9; 10] 60 (start fresh_store)) Hrun.
  do 3 eexists. split; [exact Hrun |]. split; [reflexivity |].
  exact (cancellation_precedes_appointment _ _ _ _ _ _ _ _ _ Hrun).
Defined.

(** The two hundred tasks of a call. *)
Lemma reception_task_status_follows_age_witness :
  exists tasks s',
    generate_reception_tasks rand0 clock0 fake0 [1; 2; 3] [1; 2] (start fresh_store)
    = (inr tasks, s')
    /\ List.length tasks = 200%nat
    /\ forall i t,
        nth_error tasks i = Some t ->
        let now_ := clock0 (2 * N.of_nat i + 1) in
        (ReceptionTask.created_at t < now_ - timedelta_days 1 ->
         (ReceptionTask.status t = TaskCompleted
          \/ ReceptionTask.status t = TaskCancelled)
         /\ (ReceptionTask.status t = TaskCompleted ->
             exists completed_date actual_duration,
               ReceptionTask.completed_date t = Some completed_date
               /\ ReceptionTask.actual_duration_minutes t = Some actual_duration
               /\ ReceptionTask.created_at t < completed_date))
        /\ (now_ - timedelta_days 1 <= ReceptionTask.created_at t ->
            (ReceptionTask.status t = Pending
             \/ ReceptionTask.status t = TaskInProgress)
            /\ ReceptionTask.completed_date t = None
            /\ ReceptionTask.actual_duration_minutes t = None).
Proof.
  evaluate_run
    (generate_reception_tasks rand0 clock0 fake0 [1; 2; 3] [1; 2]
       (start fresh_store)) Hrun.
  do 2 eexists. split; [exact Hrun |]. split; [reflexivity |].
  exact (reception_task_status_follows_age _ _ _ _ _ _ Hrun).
Defined.

(** A store without any treatment: the first pass raises IndexError. *)
Lemma empty_catalog_is_refused_witness :
  exists s',
    generate_appointments rand0 clock0 fake0 self0 [1; 2; 3] [1; 2] [] 3000
      (start empty_database)
    = (inl IndexError, s').
Proof.
  destruct (empty_catalog_is_refused rand0 clock0 fake0 self0 [1; 2; 3] [1; 2]
              (trids := []) (n := 3000) (start empty_database)
              (or_introl eq_refl) ltac:(lia))
    as (e & s' & _ & Hrun & _).
  exists s'. rewrite Hrun. f_equal.
  vm_compute in Hrun. now injection Hrun as -> _.
Defined.

Lemma after_init_conn db : conn (after_init db) = connect db.
Proof. reflexivity. Qed.

(** A run on a new store (what [main()] does on first use).  The
    first batch is stored; the appointment keys are then read from the
    store, where no appointment has been inserted yet, so the generation of
    the tasks raises IndexError and the run ends with the 500 patients and
    the 6 therapists stored and nothing else. *)
Lemma run_stores_whole_batches_witness :
  (let run :=
     generate_all_data rand0 clock0 fake0 io_ok self0 (after_init fresh_store) in
   let stored := committed (conn (snd run)) in
   (fst run, List.length (patients_table stored),
    List.length (therapists_table stored), appointments_table stored,
    cancellations_table stored, reception_tasks_table stored))
  = (inl IndexError, 500%nat, 6%nat, [], [], [])
  /\ run_outcome fresh_store
       (fst (generate_all_data rand0 clock0 fake0 io_ok self0 (after_init fresh_store)))
       (conn (snd (generate_all_data rand0 clock0 fake0 io_ok self0
                     (after_init fresh_store)))).
Proof.
  split; [vm_compute; reflexivity |].
  exact (proj1 (run_stores_whole_batches rand0 clock0 fake0 io_ok self0
                  (after_init fresh_store) (after_init_conn fresh_store)
                  (surjective_pairing
                     (generate_all_data rand0 clock0 fake0 io_ok self0
                        (after_init fresh_store))))).
Defined.

(** A run that is not atomic.  On a store with earlier data (1 patient, 1
    therapist, 1 appointment), the storage layer fails the first INSERT of
    an appointment (write 507: 500 patients, 6 therapists and the commit
    come first).  The run raises the error, the second batch is rolled
    back, and the 500 patients and 6 therapists of the run stay in the
    store next to the earlier ones. *)
Lemma failed_insertion_leaves_first_batch_stored :
  (let before := insert_sample_treatments old_store in
   let run := main rand0 clock0 fake0 (io_fails_at 507) old_store in
   let stored := committed (conn (snd run)) in
   (fst run,
    List.length (patients_table before), List.length (patients_table stored),
    List.length (therapists_table before), List.length (therapists_table stored),
    appointments_table stored, cancellations_table stored,
    reception_tasks_table stored))
  = (inl OperationalError, 1%nat, 501%nat, 1%nat, 7%nat,
     [(1, old_appointment)], [], []).
Proof. vm_compute. reflexivity. Qed.



(** * Further runs of the generator *)


(** Sixty appointments: all within 183 days from the start of the clinic
    period, at a quarter of an hour between 08:00 and 16:45, booked before
    their slot. *)
Lemma appointments_are_placed_in_the_clinic_period_witness :
  exists apps cans s',
    generate_appointments rand0 clock0 fake0 self0
      [1; 2; 3] [1; 2] [1; 2; 3; 4; 5; 6; 7; 8; 9; 10] 60 (start fresh_store)
    = (inr (apps, cans), s')
    /\ List.length apps = 60%nat
    /\ forall a,
        In a apps ->
        date_of (CLINIC_START_DATE self0) <= Appointment.appointment_date a
        <= date_of (CLINIC_START_DATE self0) + 182
        /\ timedelta_hours 8 <= Appointment.appointment_time a
           <= timedelta_hours 16 + timedelta_minutes 45
        /\ Appointment.appointment_time a mod timedelta_minutes 15 = 0
        /\ Appointment.booking_date a < Appointment.datetime a.
Proof.
  evaluate_run
    (generate_appointments rand0 clock0 fake0 self0
       [1; 2; 3] [1; 2] [1; 2; 3; 4; 5; 6; 7; 8; 9; 10] 60 (start fresh_store)) Hrun.
  do 3 eexists. split; [exact Hrun |]. split; [reflexivity |].
  intros a Ha.
  destruct (appointments_are_placed_in_the_clinic_period
              _ _ _ _ _ _ _ _ _ Hrun a Ha)
    as (_ & Hdate & Htime & Hgrid & (lead & _ & _ & Hbooked)).
  clear Hrun Ha.
  split; [exact Hdate | split; [exact Htime | split; [exact Hgrid | exact Hbooked]]].
Defined.


(** Sixty appointments of the generator built under [clock0]: none lies
    more than two days after the day of its creation. *)
Lemma appointments_end_two_days_after_creation_witness :
  exists apps cans s',
    generate_appointments rand0 clock0 fake0 self0
      [1; 2; 3] [1; 2] [1; 2; 3; 4; 5; 6; 7; 8; 9; 10] 60 (start fresh_store)
    = (inr (apps, cans), s')
    /\ forall a,
        In a apps ->
        date_of (clock0 (cpos (start fresh_store))) - 180
        <= Appointment.appointment_date a
        <= date_of (clock0 (cpos (start fresh_store))) + 2.
Proof.
  evaluate_run
    (generate_appointments rand0 clock0 fake0 self0
       [1; 2; 3] [1; 2] [1; 2; 3; 4; 5; 6; 7; 8; 9; 10] 60 (start fresh_store)) Hrun.
  do 3 eexists. split; [exact Hrun |]. intros a Ha.
  exact (proj1 (@appointments_end_two_days_after_creation rand0 clock0 fake0
                  (start fresh_store) self0 (after_init fresh_store)
                  _ _ _ _ _ _ _ _ (init_run fresh_store) Hrun a Ha)).
Defined.

(** Sixty appointments: each of the ten cancellations gives a phrase of its
    own category and is not made by the system. *)
Lemma cancellation_reason_matches_its_category_witness :
  exists apps cans s',
    generate_appointments rand0 clock0 fake0 self0
      [1; 2; 3] [1; 2] [1; 2; 3; 4; 5; 6; 7; 8; 9; 10] 60 (start fresh_store)
    = (inr (apps, cans), s')
    /\ List.length cans = 10%nat
    /\ forall c,
        In c cans ->
        In (Cancellation.reason_detail c)
          (reason_details (Cancellation.reason_category c))
        /\ Cancellation.cancelled_by c <> BySystem.
Proof.
  evaluate_run
    (generate_appointments rand0 clock0 fake0 self0
       [1; 2; 3] [1; 2] [1; 2; 3; 4; 5; 6; 7; 8; 9; 10] 60 (start fresh_store)) Hrun.
  do 3 eexists. split; [exact Hrun |]. split; [reflexivity |]. intros c Hc.
  destruct (cancellation_reason_matches_its_category
              _ _ _ _ _ _ _ _ _ Hrun c Hc) as (Hdetail & _ & _ & Hby).
  clear Hrun Hc. split; [exact Hdetail | exact Hby].
Defined.

(** The two hundred tasks of a call: those that refer to an appointment
    refer to one of the three keys given. *)
Lemma reception_task_target_follows_its_type_witness :
  exists tasks s',
    generate_reception_tasks rand0 clock0 fake0 [1; 2; 3] [1; 2] (start fresh_store)
    = (inr tasks, s')
    /\ List.length tasks = 200%nat
    /\ forall t,
        In t tasks ->
        (appointment_specific (ReceptionTask.task_type t) = true ->
         ReceptionTask.patient_id t = None
         /\ exists k, ReceptionTask.appointment_id t = Some k /\ In k [1; 2; 3])
        /\ (appointment_specific (ReceptionTask.task_type t) = false ->
            (exists k, ReceptionTask.patient_id t = Some k /\ In k [1; 2])
            /\ forall k, ReceptionTask.appointment_id t = Some k -> In k [1; 2; 3]).
Proof.
  evaluate_run
    (generate_reception_tasks rand0 clock0 fake0 [1; 2; 3] [1; 2]
       (start fresh_store)) Hrun.
  do 2 eexists. split; [exact Hrun |]. split; [reflexivity |]. intros t Ht.
  destruct (@reception_task_target_follows_its_type _ _ _ _ _ _ _ _ Hrun t Ht)
    as (Hspecific & Hother & _).
  clear Hrun Ht. split; [exact Hspecific | exact Hother].
Defined.

(** The two hundred tasks of a call: priorities from 1 to 4, estimates from
    2 to 8 minutes, and a due date 24 hours after the creation. *)
Lemma reception_task_dates_and_durations_witness :
  exists tasks s',
    generate_reception_tasks rand0 clock0 fake0 [1; 2; 3] [1; 2] (start fresh_store)
    = (inr tasks, s')
    /\ forall i t,
        nth_error tasks i = Some t ->
        ReceptionTask.due_date t = ReceptionTask.created_at t + timedelta_hours 24
        /\ 1 <= ReceptionTask.priority t <= 4
        /\ 2 <= ReceptionTask.estimated_duration_minutes t <= 8
        /\ forall actual,
            ReceptionTask.actual_duration_minutes t = Some actual -> 0 <= actual.
Proof.
  evaluate_run
    (generate_reception_tasks rand0 clock0 fake0 [1; 2; 3] [1; 2]
       (start fresh_store)) Hrun.
  do 2 eexists. split; [exact Hrun |]. intros i t Ht.
  destruct (@reception_task_dates_and_durations _ _ _ _ _ _ _ _ Hrun i t Ht)
    as (_ & Hdue & _ & Hpriority & _ & Hestimate & _ & Hactual).
  clear Hrun Ht.
  split; [exact Hdue | split; [exact Hpriority | split; [exact Hestimate |]]].
  intros actual Heq. exact (proj2 (Hactual actual Heq)).
Defined.

(** No key at all: the first pass raises IndexError. *)
Lemma reception_tasks_need_keys_witness :
  exists s',
    generate_reception_tasks rand0 clock0 fake0 [] [] (start fresh_store)
    = (inl IndexError, s')
    /\ conn s' = conn (start fresh_store).
Proof.
  destruct (@reception_tasks_need_keys rand0 clock0 fake0 [] [] (start fresh_store)
              eq_refl eq_refl) as (s' & Hrun & _ & Hconn).
  exists s'. split; [exact Hrun | exact Hconn].
Defined.

(** A new patient and a new therapist are stored under the keys 2 next to
    the ones of [old_store]. *)
Lemma stored_batch_is_appended_under_new_keys_witness :
  exists s',
    insert_data_to_database io_ok [new_patient] [new_therapist] [] [] []
      (start old_store)
    = (inr tt, s')
    /\ patients_table (committed (conn s')) = [(1, old_patient); (2, new_patient)]
    /\ therapists_table (committed (conn s'))
       = [(1, old_therapist); (2, new_therapist)]
    /\ appointments_table (committed (conn s')) = [(1, old_appointment)]
    /\ xpos s' = 3%N.
Proof.
  evaluate_run
    (insert_data_to_database io_ok [new_patient] [new_therapist] [] [] []
       (start old_store)) Hrun.
  eexists. split; [exact Hrun |].
  destruct (@stored_batch_is_appended_under_new_keys _ _ _ _ _ _ _ Hrun)
    as (Hconn & _ & Happs & Hps & _ & _ & _ & Hpos).
  split; [exact Hps |]. split; [reflexivity |]. split; [exact Happs | exact Hpos].
Defined.




(** The same run: the patient, the therapist and the appointment that
    [old_store] held are still there, and no treatment has appeared. *)
Lemma run_only_appends_witness :
  (let run :=
     generate_all_data rand0 clock0 fake0 io_ok self0 (after_init old_store) in
   let stored := committed (conn (snd run)) in
   (List.length (patients_table stored), List.length (therapists_table stored),
    appointments_table stored))
  = (501%nat, 7%nat, [(1, old_appointment)])
  /\ treatments_table
       (committed
          (conn (snd (generate_all_data rand0 clock0 fake0 io_ok self0
                        (after_init old_store)))))
     = treatments_table old_store
  /\ forall row,
      In row (patients_table old_store) ->
      In row
        (patients_table
           (committed
              (conn (snd (generate_all_data rand0 clock0 fake0 io_ok self0
                            (after_init old_store)))))).
Proof.
  split; [vm_compute; reflexivity |].
  destruct (@run_only_appends rand0 clock0 fake0 io_ok self0
              old_store (after_init old_store) _ _ (after_init_conn old_store)
              (surjective_pairing
                 (generate_all_data rand0 clock0 fake0 io_ok self0
                    (after_init old_store))))
    as (_ & Htreatments & _ & Hpatients & _).
  split; [exact Htreatments | exact Hpatients].
Defined.


(** Sixty appointments: the read side shows the booking lead, or one day
    less for the appointments of the afternoon. *)
Lemma days_booked_in_advance_of_generated_appointments_witness :
  exists apps cans s',
    generate_appointments rand0 clock0 fake0 self0
      [1; 2; 3] [1; 2] [1; 2; 3; 4; 5; 6; 7; 8; 9; 10] 60 (start fresh_store)
    = (inr (apps, cans), s')
    /\ forall a,
        In a apps ->
        0 <= days_booked_in_advance (Appointment.appointment_date a)
               (Appointment.booking_date a) <= 14.
Proof.
  evaluate_run
    (generate_appointments rand0 clock0 fake0 self0
       [1; 2; 3] [1; 2] [1; 2; 3; 4; 5; 6; 7; 8; 9; 10] 60 (start fresh_store)) Hrun.
  do 3 eexists. split; [exact Hrun |]. intros a Ha.
  destruct (days_booked_in_advance_of_generated_appointments
              _ _ _ _ _ _ _ _ _ Hrun a Ha) as (lead & _ & _ & _ & _ & Hdays).
  clear Hrun Ha. exact Hdays.
Defined.
